(** * nextcloud-public-uploader: chunk reassembly and session completion

    A shallow embedding of the Go server (package main): the three HTTP
    handlers [handleUploadSession], [handleUploadChunk] and
    [handleUploadComplete], the session registry ([checkAndUpdateSession]),
    the folder naming ([createFolderName]) and the parts of the Go standard
    library they call (strconv.Atoi, strings.ReplaceAll, path/filepath,
    os, sort.Slice, net/http client), followed by the properties of the
    specification that were checked against it. *)

From Stdlib Require Import ZArith Lia Ascii String List.
From stdpp Require Import base option list sorting gmap strings.

Local Open Scope Z_scope.

(** Raw file contents and request bodies. *)
Abbreviation bytes := (list Byte.byte).

(* ===================================================================== *)
(** ** Go integers *)

Module goint.

(** Go's [int] on the 64-bit targets the Dockerfile builds for. *)
Definition MinInt : Z := - 2 ^ 63.
Definition MaxInt : Z := 2 ^ 63 - 1.

Definition in_range (z : Z) : Prop := MinInt <= z <= MaxInt.

(** Two's complement wrap-around of an arithmetic result. *)
Definition wrap (z : Z) : Z := (z + 2 ^ 63) mod 2 ^ 64 - 2 ^ 63.

End goint.

(* ===================================================================== *)
(** ** strconv *)

Module strconv.

Definition is_digit (c : ascii) : bool :=
  (48 <=? nat_of_ascii c)%nat && (nat_of_ascii c <=? 57)%nat.

Definition digit_val (c : ascii) : Z := Z.of_nat (nat_of_ascii c) - 48.

Definition digit_char (d : Z) : ascii := ascii_of_nat (Z.to_nat (48 + d)).

(** The digit loop of Atoi/ParseUint, [n = n*10 + int(ch - '0')]; [None]
    is the syntax error raised at the first byte that is not a digit. *)
Fixpoint parse_digits (s : string) (n : Z) : option Z :=
  match s with
  | EmptyString => Some n
  | String ch s' =>
      if is_digit ch then parse_digits s' (n * 10 + digit_val ch) else None
  end.

(** Sign handling shared by the fast and the slow path of Atoi. *)
Definition split_sign (s : string) : bool * string :=
  match s with
  | String "-" s' => (true, s')
  | String "+" s' => (false, s')
  | _ => (false, s)
  end.

(** [strconv.Atoi] with the error dropped, as the comparator of
    handleUploadComplete does ([numI, _ := strconv.Atoi(...)]): a syntax
    error yields 0, a range error yields the nearest representable int. *)
Definition Atoi (s : string) : Z :=
  let '(neg, ds) := split_sign s in
  match ds with
  | EmptyString => 0
  | _ =>
      match parse_digits ds 0 with
      | None => 0
      | Some n =>
          let v := if neg then - n else n in
          Z.max goint.MinInt (Z.min goint.MaxInt v)
      end
  end.

(** Digits of a non-negative number, least significant first into the
    accumulator (strconv.formatBits, base 10). *)
Fixpoint format_digits (fuel : nat) (n : Z) (acc : string) : string :=
  match fuel with
  | O => acc
  | S fuel' =>
      let acc' := String (digit_char (n mod 10)) acc in
      if n <? 10 then acc' else format_digits fuel' (n / 10) acc'
  end.

Definition FormatUint (n : Z) : string :=
  format_digits (S (Z.to_nat (Z.log2 n))) n EmptyString.

(** [strconv.Itoa] / [fmt.Sprintf("%d", n)]. *)
Definition Itoa (n : Z) : string :=
  if n <? 0 then String "-" (FormatUint (- n)) else FormatUint n.

End strconv.

(* ===================================================================== *)
(** ** strings *)

Module strings.

(** [strings.ReplaceAll(s, old, new)] for a one-byte [old], the only way
    the program calls it. *)
Fixpoint ReplaceAll (s : string) (old : ascii) (new : string) : string :=
  match s with
  | EmptyString => EmptyString
  | String c s' =>
      if Ascii.eqb c old then new +:+ ReplaceAll s' old new
      else String c (ReplaceAll s' old new)
  end.

(** [strings.Join(elems, sep)]. *)
Definition Join (elems : list string) (sep : string) : string :=
  String.concat sep elems.

(** [strings.Split(s, "/")]: the fields between separators, at least one. *)
Fixpoint SplitSlash (s : string) : list string :=
  match s with
  | EmptyString => [EmptyString]
  | String c s' =>
      if Ascii.eqb c "/" then EmptyString :: SplitSlash s'
      else match SplitSlash s' with
           | x :: xs => String c x :: xs
           | [] => [String c EmptyString]
           end
  end.

(** [strings.HasSuffix(s, suffix)]:
    [len(s) >= len(suffix) && s[len(s)-len(suffix):] == suffix]. *)
Definition HasSuffix (s suffix : string) : bool :=
  (String.length suffix <=? String.length s)%nat
  && String.eqb
       (String.substring (String.length s - String.length suffix)
          (String.length suffix) s)
       suffix.

(** [strings.TrimSuffix(s, suffix)]: [s] without the trailing [suffix], or
    [s] itself when it does not end with it. *)
Definition TrimSuffix (s suffix : string) : string :=
  if HasSuffix s suffix
  then String.substring 0 (String.length s - String.length suffix) s
  else s.

End strings.

(* ===================================================================== *)
(** ** path/filepath (Unix) *)

Module filepath.

Definition rooted (path : string) : bool :=
  match path with
  | String "/" _ => true
  | _ => false
  end.

(** [filepath.IsAbs]. *)
Definition IsAbs (path : string) : bool := rooted path.

Definition nonempty (s : string) : bool := negb (String.eqb s "").

(** [filepath.Base]: the last element of the path after trailing slashes
    are removed; "." for the empty path, "/" for a path of slashes only. *)
Definition Base (path : string) : string :=
  if String.eqb path "" then "."
  else match reverse (filter (λ c, c ≠ "") (strings.SplitSlash path)) with
       | c :: _ => c
       | [] => "/"
       end.

(** One iteration of the loop of [filepath.Clean] on the next path
    element; [out] holds the elements written so far, last one first.
    A ".." removes the last written element unless there is none or it is
    itself a kept ".." (the [dotdot] mark of the Go code); then it is kept
    on a relative path and dropped on a rooted one. *)
Definition clean_step (is_rooted : bool) (out : list string) (elem : string)
  : list string :=
  if String.eqb elem "" then out
  else if String.eqb elem "." then out
  else if String.eqb elem ".." then
    match out with
    | [] => if is_rooted then [] else [".."]
    | last :: out' =>
        if String.eqb last ".." then ".." :: out else out'
    end
  else elem :: out.

Definition render (is_rooted : bool) (out : list string) : string :=
  match out, is_rooted with
  | [], false => "."
  | _, false => strings.Join (reverse out) "/"
  | _, true => "/" +:+ strings.Join (reverse out) "/"
  end.

(** [filepath.Clean]: the shortest path name equivalent to [path] by
    purely lexical processing. *)
Definition Clean (path : string) : string :=
  let r := rooted path in
  render r (fold_left (clean_step r) (strings.SplitSlash path) []).

(** [filepath.Join]: starts at the first non-empty element, joins it and
    everything after it with "/" and cleans the result; "" when every
    element is empty. *)
Fixpoint Join (elem : list string) : string :=
  match elem with
  | [] => ""
  | e :: rest =>
      if String.eqb e "" then Join rest
      else Clean (strings.Join elem "/")
  end.

End filepath.

(* ===================================================================== *)
(** ** os: the local file system *)

Module os.

Inductive node :=
| File (content : bytes)
| Dir.

(** The tree is a finite map from absolute paths, given as the list of
    their elements from the root down, to nodes; the root itself is a
    directory that always exists. [cwd] is the working directory of the
    process, which the program never changes. *)
Record FS := mkFS {
  files : gmap (list string) node;
  cwd : list string
}.

Definition stat (m : gmap (list string) node) (p : list string) : option node :=
  match p with
  | [] => Some Dir
  | _ => m !! p
  end.

(** Path resolution, one element at a time; [at_] is the directory reached
    so far, innermost element first. The program only passes results of
    filepath.Join, which are clean: ".." elements can only lead a relative
    path, where they climb from the working directory. No symbolic links. *)
Definition walk (at_ : list string) (elem : string) : list string :=
  if String.eqb elem "" then at_
  else if String.eqb elem "." then at_
  else if String.eqb elem ".." then tail at_
  else elem :: at_.

(** [None] is ENOENT for the empty path name. *)
Definition resolve (fs : FS) (path : string) : option (list string) :=
  if String.eqb path "" then None
  else Some (reverse (fold_left walk (strings.SplitSlash path)
               (if filepath.rooted path then [] else reverse (cwd fs)))).

(** mkdir for every missing element of [rest] below [at_], parents first;
    [None] is ENOTDIR, an element that exists and is a regular file. *)
Fixpoint mkdirs (m : gmap (list string) node) (at_ rest : list string)
  : option (gmap (list string) node) :=
  match rest with
  | [] => Some m
  | e :: rest' =>
      let q := at_ ++ [e] in
      match m !! q with
      | Some (File _) => None
      | Some Dir => mkdirs m q rest'
      | None => mkdirs (<[q := Dir]> m) q rest'
      end
  end.

(** [os.MkdirAll(path, perm)]. *)
Definition MkdirAll (path : string) (fs : FS) : option FS :=
  match resolve fs path with
  | None => None
  | Some p =>
      match mkdirs (files fs) [] p with
      | None => None
      | Some m => Some (mkFS m (cwd fs))
      end
  end.

(** [os.Create(name)]: creates or truncates the named file; the result is
    the new tree and the open file, identified by its resolved path.
    Fails when the parent is not an existing directory (ENOENT, ENOTDIR)
    or the name is a directory (EISDIR). *)
Definition Create (name : string) (fs : FS) : option (FS * list string) :=
  match resolve fs name with
  | None => None
  | Some p =>
      match p, stat (files fs) (removelast p), stat (files fs) p with
      | [], _, _ => None
      | _, Some Dir, Some Dir => None
      | _, Some Dir, _ => Some (mkFS (<[p := File []]> (files fs)) (cwd fs), p)
      | _, _, _ => None
      end
  end.

(** Writing [content] to a file opened by [Create], as [io.Copy(dst, src)]
    does with the whole of [src]. *)
Definition Write (dst : list string) (content : bytes) (fs : FS) : option FS :=
  Some (mkFS (<[dst := File content]> (files fs)) (cwd fs)).

(** The name of [k] when [k] is an entry of directory [p]. *)
Definition child_name (p k : list string) : option string :=
  match last k with
  | Some n => if decide (k = p ++ [n]) then Some n else None
  | None => None
  end.

Definition name_le (a b : string) : Prop := String.leb a b = true.

Global Instance name_le_dec a b : Decision (name_le a b).
Proof. unfold name_le. apply _. Defined.

(** [os.ReadDir(name)]: the entries of the directory, sorted by filename.
    An entry is represented by its [Name()], the only method the program
    calls. *)
Definition ReadDir (name : string) (fs : FS) : option (list string) :=
  match resolve fs name with
  | None => None
  | Some p =>
      match stat (files fs) p with
      | Some Dir =>
          Some (merge_sort name_le
                  (omap (λ kv, child_name p kv.1) (map_to_list (files fs))))
      | _ => None
      end
  end.

(** [os.Open(name)]: the open file is represented by the node it refers
    to; reading a directory fails later, at the first Read (EISDIR). *)
Definition Open (name : string) (fs : FS) : option node :=
  match resolve fs name with
  | None => None
  | Some p => stat (files fs) p
  end.

Definition endsWithDot (path : string) : bool :=
  match reverse (list_ascii_of_string path) with
  | ["."%char] => true
  | "."%char :: "/"%char :: _ => true
  | _ => false
  end.

(** [os.RemoveAll(path)]: removes the path and everything below it. As in
    Go, the empty path is a no-op, and a path that ends in "." is refused
    (EINVAL) and nothing is removed. The root loses its entries but
    stays. The error is not part of the result: the program drops it. *)
Definition RemoveAll (path : string) (fs : FS) : FS :=
  if String.eqb path "" then fs
  else if endsWithDot path then fs
  else match resolve fs path with
       | None => fs
       | Some p =>
           mkFS (filter (λ kv, ¬ (p `prefix_of` kv.1)) (files fs)) (cwd fs)
       end.

End os.

(* ===================================================================== *)
(** ** io: readers *)

Module io.

Inductive Reader :=
| FileReader (f : os.node)             (* an *os.File returned by os.Open *)
| StringReader (s : string)            (* strings.NewReader *)
| MultiReader (files : list os.node)   (* io.MultiReader over opened files *).

Definition read_file (f : os.node) : option bytes :=
  match f with
  | os.File content => Some content
  | os.Dir => None
  end.

(** The readers of a MultiReader are read to the end one after the other;
    the first error ends the stream. *)
Fixpoint read_files (files : list os.node) : option bytes :=
  match files with
  | [] => Some []
  | f :: files' =>
      match read_file f, read_files files' with
      | Some a, Some b => Some (a ++ b)
      | _, _ => None
      end
  end.

(** Reading a reader to the end, as the HTTP client does with a request
    body; [None] is a read error. *)
Definition ReadAll (r : Reader) : option bytes :=
  match r with
  | FileReader f => read_file f
  | StringReader s => Some (String.list_byte_of_string s)
  | MultiReader files => read_files files
  end.

End io.

(* ===================================================================== *)
(** ** The program state and its environment *)

(** Config holds the application configuration. *)
Record Config := mkConfig {
  NextcloudURL : string;
  NextcloudUser : string;
  NextcloudAppPass : string;
  NextcloudUploadDir : string;
  UploadTempDir : string
}.

(** Upload session tracking. The two mutexes of the Go code only matter
    when handlers interleave; they are modelled in [Module Concurrent]. The
    map holds pointers in Go; every pointer is created by one registration
    and reachable from the map only, so the map of values below has the
    same contents. *)
Record UploadSession := mkUploadSession {
  Email : string;
  Phone : string;
  DataOrigin : string;
  UploadCount : Z;
  CompletedCount : Z
}.

(** What the handlers do to the outside world, in program order. *)
Inductive Event :=
| EvMkdirAll (path : string)
| EvCreate (path : string)
| EvCopy (path : string) (content : bytes)
| EvReadDir (path : string)
| EvOpen (path : string)
| EvRemoveAll (path : string)
| EvHTTP (method url : string) (body : option bytes) (status : option Z).

(** The mutable state: the local file system, the global
    [uploadSessions] map, the clock (nanoseconds since the Unix epoch, read
    by time.Now) and the trace of effects so far. *)
Record World := mkWorld {
  fs : os.FS;
  uploadSessions : gmap string UploadSession;
  now : Z;
  trace : list Event
}.

(** What the program does not control: library functions whose result is
    all that matters here, and the WebDAV server behind the network. *)
Record Env := mkEnv {
  (** [url.PathEscape]. *)
  PathEscape : string → string;
  (** Whether [http.NewRequest(method, url, body)] accepts the URL. *)
  NewRequest_ok : string → string → bool;
  (** [client.Do]: the status code of the response, given everything that
      happened before; [None] is a transport error or a timeout. *)
  RoundTrip : list Event → string → string → option bytes → option Z;
  (** [t.UTC().Format(time.RFC3339)]. *)
  FormatRFC3339 : Z → string;
  (** [sort.Slice] on directory entries, with its [less] on elements. *)
  sort_Slice : (string → string → bool) → list string → list string
}.

(** State passing. *)
Definition M (A : Type) : Type := World → A * World.

Definition ret {A} (a : A) : M A := λ w, (a, w).
Definition bind {A B} (c : M A) (k : A → M B) : M B :=
  λ w, let '(a, w') := c w in k a w'.

Notation "x <- c ;; k" := (bind c (λ x, k))
  (at level 100, c at next level, right associativity).

Definition emit (e : Event) : M unit :=
  λ w, (tt, mkWorld (fs w) (uploadSessions w) (now w) (trace w ++ [e])).

Definition get_fs : M os.FS := λ w, (fs w, w).
Definition put_fs (f : os.FS) : M unit :=
  λ w, (tt, mkWorld f (uploadSessions w) (now w) (trace w)).

(** [time.Now().Unix()]: whole seconds since the epoch. *)
Definition Unix (t : Z) : Z := t / 1000000000.

Definition time_Now : M Z := λ w, (now w, w).

(** File system calls, each recorded in the trace. *)
Definition os_MkdirAll (path : string) : M bool :=
  _ <- emit (EvMkdirAll path) ;;
  f <- get_fs ;;
  match os.MkdirAll path f with
  | Some f' => _ <- put_fs f' ;; ret true
  | None => ret false
  end.

Definition os_Create (path : string) : M (option (list string)) :=
  _ <- emit (EvCreate path) ;;
  f <- get_fs ;;
  match os.Create path f with
  | Some (f', dst) => _ <- put_fs f' ;; ret (Some dst)
  | None => ret None
  end.

Definition io_Copy (path : string) (dst : list string) (src : bytes) : M bool :=
  _ <- emit (EvCopy path src) ;;
  f <- get_fs ;;
  match os.Write dst src f with
  | Some f' => _ <- put_fs f' ;; ret true
  | None => ret false
  end.

Definition os_ReadDir (path : string) : M (option (list string)) :=
  _ <- emit (EvReadDir path) ;;
  f <- get_fs ;;
  ret (os.ReadDir path f).

Definition os_Open (path : string) : M (option os.node) :=
  _ <- emit (EvOpen path) ;;
  f <- get_fs ;;
  ret (os.Open path f).

Definition os_RemoveAll (path : string) : M unit :=
  _ <- emit (EvRemoveAll path) ;;
  f <- get_fs ;;
  put_fs (os.RemoveAll path f).

(** One HTTP exchange of the client: the request is built, its body read
    to the end and the response awaited. [None] is the [err != nil] of
    [http.NewRequest] or [client.Do]. *)
Definition http_Do (env : Env) (method url : string) (body : option io.Reader)
  : M (option Z) :=
  if negb (NewRequest_ok env method url) then ret None
  else
    match body with
    | None =>
        λ w, let st := RoundTrip env (trace w) method url None in
             (st, snd (emit (EvHTTP method url None st) w))
    | Some r =>
        match io.ReadAll r with
        | None => _ <- emit (EvHTTP method url None None) ;; ret None
        | Some data =>
            λ w, let st := RoundTrip env (trace w) method url (Some data) in
                 (st, snd (emit (EvHTTP method url (Some data) st) w))
        end
    end.

(* ===================================================================== *)
(** ** HTTP requests and responses of the server *)

Inductive Body :=
| PlainText (s : string)
| JSON (fields : list (string * string)).

Record Response := mkResponse {
  StatusCode : Z;
  ResponseBody : Body
}.

Definition StatusOK : Z := 200.
Definition StatusCreated : Z := 201.
Definition StatusNoContent : Z := 204.
Definition StatusBadRequest : Z := 400.
Definition StatusMethodNotAllowed : Z := 405.
Definition StatusInternalServerError : Z := 500.

Definition MethodPost : string := "POST".
Definition MethodPut : string := "PUT".

(** [http.Error(w, msg, code)]. *)
Definition http_Error (msg : string) (code : Z) : Response :=
  mkResponse code (PlainText msg).

(** jsonError is a helper to return a JSON error response. *)
Definition jsonError (message : string) (statusCode : Z) : Response :=
  mkResponse statusCode (JSON [("error", message)]).

(** Struct for the /upload-complete request body. *)
Record CompleteRequest := mkCompleteRequest {
  UploadID : string;
  FileName : string;
  cr_Email : string;
  cr_Phone : string;
  cr_DataOrigin : string;
  SessionID : string;
  TotalFiles : Z
}.

(** Struct for the /upload-session request body. *)
Record SessionRequest := mkSessionRequest {
  sr_SessionID : string;
  sr_Email : string;
  sr_Phone : string;
  sr_DataOrigin : string;
  sr_TotalFiles : Z
}.

(** A request with a JSON body; [None] is a body that json.Decode rejects. *)
Record JSONRequest (A : Type) := mkJSONRequest {
  Method : string;
  Decoded : option A
}.
Arguments mkJSONRequest {A} _ _.
Arguments Method {A} _.
Arguments Decoded {A} _.

(** The multipart form of /upload-chunk after ParseMultipartForm:
    [dataFile] is [r.FormFile("dataFile")] ([None] when the key is
    missing), the other two are [r.FormValue], "" when missing. *)
Record MultipartForm := mkMultipartForm {
  dataFile : option bytes;
  uploadId : string;
  chunkIndex : string
}.

(** [None] is a form that ParseMultipartForm(10 << 20) rejects. *)
Record ChunkRequest := mkChunkRequest {
  ch_Method : string;
  Form : option MultipartForm
}.

(* ===================================================================== *)
(** ** package main *)

Definition set_uploadSessions (m : gmap string UploadSession) : M unit :=
  λ w, (tt, mkWorld (fs w) m (now w) (trace w)).

Definition get_uploadSessions : M (gmap string UploadSession) :=
  λ w, (uploadSessions w, w).

(** handleUploadSession registers a new upload session. *)
Definition handleUploadSession (r : JSONRequest SessionRequest) : M Response :=
  if negb (String.eqb (Method r) MethodPost) then
    ret (http_Error "Method not allowed" StatusMethodNotAllowed)
  else
    match Decoded r with
    | None => ret (http_Error "Invalid JSON body." StatusBadRequest)
    | Some reqData =>
        sessions <- get_uploadSessions ;;
        _ <- set_uploadSessions
               (<[sr_SessionID reqData :=
                    mkUploadSession (sr_Email reqData) (sr_Phone reqData)
                      (sr_DataOrigin reqData) (sr_TotalFiles reqData) 0]> sessions) ;;
        ret (mkResponse StatusOK
               (JSON [("message", "Upload session registered successfully");
                      ("sessionId", sr_SessionID reqData)]))
    end.

(** handleUploadChunk receives and saves a single file chunk. *)
Definition handleUploadChunk (cfg : Config) (r : ChunkRequest) : M Response :=
  if negb (String.eqb (ch_Method r) MethodPost) then
    ret (http_Error "Method not allowed" StatusMethodNotAllowed)
  else
    match Form r with
    | None =>
        ret (http_Error "Could not parse form. Chunk might be too large."
               StatusBadRequest)
    | Some form =>
        match dataFile form with
        | None => ret (http_Error "Invalid file chunk key." StatusBadRequest)
        | Some file =>
            let uploadID := uploadId form in
            let chunkIndex := chunkIndex form in
            let cleanUploadID := filepath.Clean (filepath.Base uploadID) in
            if String.eqb cleanUploadID "." || String.eqb cleanUploadID ".." then
              ret (http_Error "Invalid upload ID." StatusBadRequest)
            else
              let chunkDir := filepath.Join [UploadTempDir cfg; cleanUploadID] in
              made <- os_MkdirAll chunkDir ;;
              if negb made then
                ret (http_Error "Server error creating chunk directory."
                       StatusInternalServerError)
              else
                let chunkPath := filepath.Join [chunkDir; chunkIndex] in
                dst <- os_Create chunkPath ;;
                match dst with
                | None =>
                    ret (http_Error "Server error creating chunk file."
                           StatusInternalServerError)
                | Some dst =>
                    copied <- io_Copy chunkPath dst file ;;
                    if negb copied then
                      ret (http_Error "Server error saving chunk file."
                             StatusInternalServerError)
                    else
                      ret (mkResponse StatusOK
                             (PlainText "Chunk uploaded successfully"))
                end
        end
    end.

Definition webdavFolderURL (env : Env) (cfg : Config) (folderName : string)
  : string :=
  NextcloudURL cfg +:+ "/remote.php/dav/files/" +:+ NextcloudUser cfg +:+ "/"
    +:+ NextcloudUploadDir cfg +:+ "/" +:+ PathEscape env folderName.

Definition webdavFileURL (env : Env) (cfg : Config) (folderName filename : string)
  : string :=
  webdavFolderURL env cfg folderName +:+ "/" +:+ PathEscape env filename.

(** createNextcloudFolder creates a folder in Nextcloud using WebDAV MKCOL;
    [true] is the nil error. MKCOL returns 201 for created, 405 for already
    exists, both are OK. *)
Definition createNextcloudFolder (env : Env) (cfg : Config) (folderName : string)
  : M bool :=
  resp <- http_Do env "MKCOL" (webdavFolderURL env cfg folderName) None ;;
  match resp with
  | None => ret false
  | Some status =>
      ret ((status =? StatusCreated) || (status =? StatusMethodNotAllowed))
  end.

(** uploadToNextcloudFolder uploads a file to a specific folder in
    Nextcloud; [true] is the nil error. *)
Definition uploadToNextcloudFolder (env : Env) (cfg : Config)
    (folderName filename : string) (data : io.Reader) : M bool :=
  resp <- http_Do env MethodPut (webdavFileURL env cfg folderName filename)
            (Some data) ;;
  match resp with
  | None => ret false
  | Some status =>
      ret ((status =? StatusCreated) || (status =? StatusNoContent))
  end.

(** The five replacements of createFolderName on the phone number. *)
Definition sanitizePhone (phone : string) : string :=
  let sanitizedPhone := strings.ReplaceAll phone " " "" in
  let sanitizedPhone := strings.ReplaceAll sanitizedPhone "-" "" in
  let sanitizedPhone := strings.ReplaceAll sanitizedPhone "(" "" in
  let sanitizedPhone := strings.ReplaceAll sanitizedPhone ")" "" in
  strings.ReplaceAll sanitizedPhone "+" "plus".

(** The two replacements of createFolderName on the email address. *)
Definition sanitizeEmail (email : string) : string :=
  let sanitizedEmail := strings.ReplaceAll email "@" "_at_" in
  strings.ReplaceAll sanitizedEmail "." "_".

(** createFolderName creates a folder name with timestamp, email, and
    phone (no filename). [t] is the instant that [time.Now()] returns in
    its first line. *)
Definition createFolderName (t : Z) (email phone : string) : string :=
  let timestamp := Unix t in
  let sanitizedEmail := sanitizeEmail email in
  let sanitizedPhone := sanitizePhone phone in
  let components := [strconv.Itoa timestamp] in
  let components :=
    if negb (String.eqb email "") then components ++ [sanitizedEmail]
    else components in
  let components :=
    if negb (String.eqb phone "") then components ++ [sanitizedPhone]
    else components in
  strings.Join components "-".

(** createDescriptionContent creates the content for the description.txt
    file; [t] is the instant that [time.Now()] returns. *)
Definition createDescriptionContent (env : Env) (t : Z)
    (filename email phone dataOrigin : string) : string :=
  "--- UPLOAD INFORMATION ---
" +:+ "Timestamp (UTC): " +:+ FormatRFC3339 env t +:+ "
" +:+ "Original Filename: " +:+ filename +:+ "
" +:+ "Email: " +:+ email +:+ "
" +:+ (if negb (String.eqb phone "") then "Teléfono: " +:+ phone +:+ "
" else "") +:+ "
--- DESCRIPCIÓN ---
" +:+ dataOrigin +:+ "

--- FIN ---
".

(** checkAndUpdateSession checks if all files in a session are complete and
    updates the session. The increment goes through the pointer found in
    the map, so the map sees it at once. *)
Definition checkAndUpdateSession
    (sessionID folderName email phone dataOrigin : string) : M bool :=
  sessions <- get_uploadSessions ;;
  match sessions !! sessionID with
  | None => ret true
  | Some session =>
      let session :=
        mkUploadSession (Email session) (Phone session) (DataOrigin session)
          (UploadCount session) (goint.wrap (CompletedCount session + 1)) in
      let sessions := <[sessionID := session]> sessions in
      if UploadCount session <=? CompletedCount session then
        _ <- set_uploadSessions (delete sessionID sessions) ;;
        ret true
      else
        _ <- set_uploadSessions sessions ;;
        ret false
  end.

(** checkDescriptionFileExists checks if a description file already exists
    in the folder. *)
Definition checkDescriptionFileExists (env : Env) (cfg : Config)
    (folderName : string) : M bool :=
  resp <- http_Do env "HEAD"
            (webdavFolderURL env cfg folderName +:+ "/descripcion.txt") None ;;
  match resp with
  | None => ret false
  | Some status => ret (status =? StatusOK)
  end.

(** The loop of handleUploadComplete that opens the chunk files in the
    order of [chunkFiles]; the left result is the response of the early
    return. *)
Fixpoint openChunks (chunkDir : string) (chunkFiles : list string)
    (readers : list os.node) : M (Response + list os.node) :=
  match chunkFiles with
  | [] => ret (inr readers)
  | chunkFile :: rest =>
      let path := filepath.Join [chunkDir; chunkFile] in
      f <- os_Open path ;;
      match f with
      | None =>
          ret (inl (jsonError "Error processing chunks." StatusInternalServerError))
      | Some f => openChunks chunkDir rest (readers ++ [f])
      end
  end.

(** The comparator given to sort.Slice: numerically by file name. *)
Definition chunkLess (a b : string) : bool :=
  strconv.Atoi a <? strconv.Atoi b.

(** handleUploadComplete, from os.ReadDir to io.MultiReader: the chunk
    files are listed, sorted numerically by their filename (which is their
    index) and opened; the result is [originalFileReader]. *)
Definition assembleChunks (env : Env) (chunkDir : string)
  : M (Response + io.Reader) :=
  chunkFiles <- os_ReadDir chunkDir ;;
  match chunkFiles with
  | None =>
      ret (inl (jsonError "Could not find chunks on server."
                  StatusInternalServerError))
  | Some chunkFiles =>
      let chunkFiles := sort_Slice env chunkLess chunkFiles in
      readers <- openChunks chunkDir chunkFiles [] ;;
      match readers with
      | inl resp => ret (inl resp)
      | inr readers => ret (inr (io.MultiReader readers))
      end
  end.

(** handleUploadComplete, the description file: created and uploaded only
    if needed and not already there. [None] means the handler goes on to
    its success response. *)
Definition uploadDescription (env : Env) (cfg : Config) (reqData : CompleteRequest)
    (folderName : string) (shouldUploadDescription : bool)
  : M (option Response) :=
  if shouldUploadDescription then
    found <- checkDescriptionFileExists env cfg folderName ;;
    if found then ret None
    else
      t <- time_Now ;;
      let descriptionContent :=
        createDescriptionContent env t (FileName reqData) (cr_Email reqData)
          (cr_Phone reqData) (cr_DataOrigin reqData) in
      let descriptionReader := io.StringReader descriptionContent in
      sent <- uploadToNextcloudFolder env cfg folderName "descripcion.txt"
                descriptionReader ;;
      if negb sent then
        ret (Some (jsonError "Failed to upload description file."
                     StatusInternalServerError))
      else ret None
  else ret None.

(** handleUploadComplete after [defer os.RemoveAll(chunkDir)]. *)
Definition completeUpload (env : Env) (cfg : Config) (reqData : CompleteRequest)
    (chunkDir : string) : M Response :=
  assembled <- assembleChunks env chunkDir ;;
  match assembled with
  | inl resp => ret resp
  | inr originalFileReader =>
      t <- time_Now ;;
      let folderName := createFolderName t (cr_Email reqData) (cr_Phone reqData) in
      created <- createNextcloudFolder env cfg folderName ;;
      if negb created then
        ret (jsonError "Failed to create folder in Nextcloud."
               StatusInternalServerError)
      else
        let finalFilename := filepath.Base (FileName reqData) in
        sent <- uploadToNextcloudFolder env cfg folderName finalFilename
                  originalFileReader ;;
        if negb sent then
          ret (jsonError "Failed to upload to Nextcloud."
                 StatusInternalServerError)
        else
          shouldUploadDescription <-
            (if negb (String.eqb (SessionID reqData) "") then
               checkAndUpdateSession (SessionID reqData) folderName
                 (cr_Email reqData) (cr_Phone reqData) (cr_DataOrigin reqData)
             else ret true) ;;
          failed <- uploadDescription env cfg reqData folderName
                      shouldUploadDescription ;;
          match failed with
          | Some resp => ret resp
          | None =>
              ret (mkResponse StatusOK
                     (JSON [("message", "File uploaded successfully!");
                            ("folderName", folderName);
                            ("fileName", finalFilename)]))
          end
  end.

(** handleUploadComplete assembles chunks and uploads to Nextcloud. The
    deferred [os.RemoveAll(chunkDir)] runs when the part of the function
    after the [defer] statement returns, whichever way it does. *)
Definition handleUploadComplete (env : Env) (cfg : Config)
    (r : JSONRequest CompleteRequest) : M Response :=
  if negb (String.eqb (Method r) MethodPost) then
    ret (http_Error "Method not allowed" StatusMethodNotAllowed)
  else
    match Decoded r with
    | None => ret (http_Error "Invalid JSON body." StatusBadRequest)
    | Some reqData =>
        let cleanUploadID := filepath.Clean (filepath.Base (UploadID reqData)) in
        if String.eqb cleanUploadID "." || String.eqb cleanUploadID ".." then
          ret (http_Error "Invalid upload ID." StatusBadRequest)
        else
          let chunkDir := filepath.Join [UploadTempDir cfg; cleanUploadID] in
          resp <- completeUpload env cfg reqData chunkDir ;;
          _ <- os_RemoveAll chunkDir ;;
          ret resp
    end.

(* ===================================================================== *)
(** ** Goroutines running checkAndUpdateSession *)

Module Concurrent.

(** An [UploadSession] on the heap, with its [Mutex]. *)
Record Object := mkObject {
  data : UploadSession;
  Mutex : bool
}.

(** Where a goroutine stands in checkAndUpdateSession; [session] is its
    local pointer variable, [result] the value it is about to return. *)
Inductive pc :=
| AtLock                                        (* sessionsMutex.Lock() *)
| AtLookup                                      (* session, exists := uploadSessions[sessionID] *)
| AtSessionLock (session : nat)                 (* session.Mutex.Lock() *)
| AtIncrement (session : nat)                   (* session.CompletedCount++ *)
| AtCompare (session : nat)                     (* if session.CompletedCount >= session.UploadCount *)
| AtSessionUnlock (session : nat) (result : bool) (* deferred session.Mutex.Unlock() *)
| AtUnlock (result : bool)                      (* deferred sessionsMutex.Unlock() *)
| Returned (result : bool).

(** The shared memory and the goroutines; [sessions] is the global map
    [uploadSessions], whose values are pointers into [heap]. *)
Record State := mkState {
  heap : gmap nat Object;
  sessions : gmap string nat;
  sessionsMutex : bool;
  goroutines : list pc
}.

Definition set_pc (tid : nat) (p : pc) (st : State) : State :=
  mkState (heap st) (sessions st) (sessionsMutex st) (<[tid := p]> (goroutines st)).

(** One step of goroutine [tid], all goroutines having been called with
    the same [sessionID]; [None] when it is blocked on a mutex, has
    returned or does not exist. The program is free of data races (every
    access to the map and to a session is made under [sessionsMutex]), so
    interleaving whole statements loses no behaviour. *)
Definition step (sessionID : string) (tid : nat) (st : State) : option State :=
  match goroutines st !! tid with
  | None => None
  | Some AtLock =>
      if sessionsMutex st then None
      else Some (mkState (heap st) (sessions st) true
                   (<[tid := AtLookup]> (goroutines st)))
  | Some AtLookup =>
      match sessions st !! sessionID with
      | None => Some (set_pc tid (AtUnlock true) st)
      | Some session => Some (set_pc tid (AtSessionLock session) st)
      end
  | Some (AtSessionLock session) =>
      match heap st !! session with
      | None => None
      | Some o =>
          if Mutex o then None
          else Some (mkState (<[session := mkObject (data o) true]> (heap st))
                       (sessions st) (sessionsMutex st)
                       (<[tid := AtIncrement session]> (goroutines st)))
      end
  | Some (AtIncrement session) =>
      match heap st !! session with
      | None => None
      | Some o =>
          let d := data o in
          let d' := mkUploadSession (Email d) (Phone d) (DataOrigin d)
                      (UploadCount d) (goint.wrap (CompletedCount d + 1)) in
          Some (mkState (<[session := mkObject d' (Mutex o)]> (heap st))
                  (sessions st) (sessionsMutex st)
                  (<[tid := AtCompare session]> (goroutines st)))
      end
  | Some (AtCompare session) =>
      match heap st !! session with
      | None => None
      | Some o =>
          if UploadCount (data o) <=? CompletedCount (data o) then
            Some (mkState (heap st) (delete sessionID (sessions st))
                    (sessionsMutex st)
                    (<[tid := AtSessionUnlock session true]> (goroutines st)))
          else Some (set_pc tid (AtSessionUnlock session false) st)
      end
  | Some (AtSessionUnlock session result) =>
      match heap st !! session with
      | None => None
      | Some o =>
          Some (mkState (<[session := mkObject (data o) false]> (heap st))
                  (sessions st) (sessionsMutex st)
                  (<[tid := AtUnlock result]> (goroutines st)))
      end
  | Some (AtUnlock result) =>
      Some (mkState (heap st) (sessions st) false
              (<[tid := Returned result]> (goroutines st)))
  | Some (Returned _) => None
  end.

(** Running a schedule: the scheduler picks a goroutine at each turn; a
    goroutine that cannot move leaves the state as it is. *)
Definition exec (sessionID : string) (schedule : list nat) (st : State) : State :=
  fold_left (λ st tid, default st (step sessionID tid st)) schedule st.

Definition returned (p : pc) : option bool :=
  match p with
  | Returned r => Some r
  | _ => None
  end.

Definition all_returned (st : State) : Prop :=
  Forall (λ p, is_Some (returned p)) (goroutines st).

(** The values returned so far. *)
Definition results (st : State) : list bool := omap returned (goroutines st).

(** [n] concurrent calls on a registered session that nobody has locked. *)
Definition start (hp : gmap nat Object) (reg : gmap string nat) (n : nat) : State :=
  mkState hp reg false (replicate n AtLock).


End Concurrent.

(* ===================================================================== *)
(** ** The server loop *)

(** The requests that [main] routes to the three handlers, and the time
    that passes between them. *)
Inductive Call :=
| PostSession (r : JSONRequest SessionRequest)     (* /upload-session *)
| PostChunk (r : ChunkRequest)                     (* /upload-chunk *)
| PostComplete (r : JSONRequest CompleteRequest)   (* /upload-complete *)
| ClockAdvance (t : Z).

Definition serve (env : Env) (cfg : Config) (c : Call) : M (option Response) :=
  match c with
  | PostSession r => resp <- handleUploadSession r ;; ret (Some resp)
  | PostChunk r => resp <- handleUploadChunk cfg r ;; ret (Some resp)
  | PostComplete r => resp <- handleUploadComplete env cfg r ;; ret (Some resp)
  | ClockAdvance t =>
      λ w, (None, mkWorld (fs w) (uploadSessions w) t (trace w))
  end.

(** Requests served one after the other. *)
Definition serveAll (env : Env) (cfg : Config) (calls : list Call) (w : World)
  : World :=
  fold_left (λ w c, snd (serve env cfg c w)) calls w.

(* ===================================================================== *)
(** ** A reference sort and a reference environment *)

(** Insertion sort, one implementation of the contract of sort.Slice. *)
Fixpoint insert_sorted (less : string → string → bool) (x : string)
    (l : list string) : list string :=
  match l with
  | [] => [x]
  | y :: l' => if less x y then x :: l else y :: insert_sorted less x l'
  end.

Definition insertion_sort (less : string → string → bool) (l : list string)
  : list string :=
  foldr (insert_sorted less) [] l.

(** A server that creates what it is asked to and has no description file. *)
Definition plainEnv : Env :=
  mkEnv (λ s, s) (λ _ _, true)
    (λ _ method _ _, if String.eqb method "HEAD" then Some 404 else Some 201)
    (λ _, "1970-01-01T00:00:00Z") insertion_sort.

(** A server in whose folders the description file already exists. *)
Definition describedEnv : Env :=
  mkEnv (λ s, s) (λ _ _, true)
    (λ _ method _ _, if String.eqb method "HEAD" then Some 200 else Some 201)
    (λ _, "1970-01-01T00:00:00Z") insertion_sort.

(** A server that creates folders but has no room for files: every PUT is
    answered with 507 Insufficient Storage. *)
Definition fullEnv : Env :=
  mkEnv (λ s, s) (λ _ _, true)
    (λ _ method _ _,
       if String.eqb method "HEAD" then Some 404
       else if String.eqb method "PUT" then Some 507 else Some 201)
    (λ _, "1970-01-01T00:00:00Z") insertion_sort.

(** The configuration with the default scratch directory of [main]. *)
Definition defaultConfig : Config :=
  mkConfig "https://cloud.example" "user" "secret" "uploads"
    "/tmp/nextcloud-public-uploader/".

Definition emptyWorld : World := mkWorld (os.mkFS ∅ ["app"]) ∅ 0 [].

(* ===================================================================== *)
(** ** main: the configuration *)

(** getEnv is a helper to read an env var or return a default; [environ]
    is the environment of the process, which os.LookupEnv looks into. *)
Definition getEnv (environ : gmap string string) (key fallback : string) : string :=
  match environ !! key with
  | Some value => value
  | None => fallback
  end.

(** main, from its first statement to strings.TrimSuffix: the
    configuration that the handlers run with. [None] is the log.Fatal for
    a variable that must be set. *)
Definition main_appConfig (environ : gmap string string) : option Config :=
  let appConfig :=
    mkConfig (getEnv environ "NC_URL" "") (getEnv environ "NC_USER" "")
      (getEnv environ "NC_APP_PASSWORD" "") (getEnv environ "NC_FOLDER" "")
      (getEnv environ "UPLOAD_TEMP_DIR" "/tmp/nextcloud-public-uploader/") in
  if String.eqb (NextcloudURL appConfig) ""
     || String.eqb (NextcloudUser appConfig) ""
     || String.eqb (NextcloudAppPass appConfig) ""
  then None
  else
    Some (mkConfig (strings.TrimSuffix (NextcloudURL appConfig) "/")
            (NextcloudUser appConfig) (NextcloudAppPass appConfig)
            (NextcloudUploadDir appConfig) (UploadTempDir appConfig)).

(* ===================================================================== *)
(** * Properties *)

(** The state of a session that is in the registry: ACTIVE, with counts
    that are Go ints. *)
Definition session_active (s : UploadSession) : Prop :=
  0 <= CompletedCount s < UploadCount s ∧ UploadCount s <= goint.MaxInt.

Definition registry_active (w : World) : Prop :=
  map_Forall (λ _ s, session_active s) (uploadSessions w).

(** A registration that announces at least one file. *)
Definition announces_files (c : Call) : Prop :=
  match c with
  | PostSession r =>
      match Decoded r with
      | Some reqData => 1 <= sr_TotalFiles reqData <= goint.MaxInt
      | None => True
      end
  | _ => True
  end.

(** The number of digits that [strconv.format_digits] writes. *)
Fixpoint count_digits (fuel : nat) (n : Z) : Z :=
  match fuel with
  | O => 0
  | S fuel' => if n <? 10 then 1 else 1 + count_digits fuel' (n / 10)
  end.

Fixpoint all_digits (s : string) : bool :=
  match s with
  | EmptyString => true
  | String c s' => strconv.is_digit c && all_digits s'
  end.

(** The longest prefix of [s] made of digits. *)
Fixpoint take_digits (s : string) : string :=
  match s with
  | EmptyString => EmptyString
  | String c s' => if strconv.is_digit c then String c (take_digits s') else EmptyString
  end.

(** The decimal numeral, with its sign, that [s] starts with. *)
Definition leading_numeral (s : string) : string :=
  match s with
  | String "-" s' => String "-" (take_digits s')
  | _ => take_digits s
  end.

(** What can follow the timestamp in a folder name. *)
Definition dash_tail (r : string) : Prop :=
  r = EmptyString ∨ ∃ r', r = String "-" r'.

(** A path element: no separator in it. *)
Fixpoint slash_free (s : string) : bool :=
  match s with
  | EmptyString => true
  | String c s' => negb (Ascii.eqb c "/") && slash_free s'
  end.

(** The name of a file or directory: a non-empty path element other than
    "." and "..". *)
Definition is_name (s : string) : Prop :=
  slash_free s = true ∧ s ≠ "" ∧ s ≠ "." ∧ s ≠ "..".

(** An element that filepath.Clean writes to its output: a name, or a ".."
    that it had to keep. *)
Definition is_kept (s : string) : Prop := s = ".." ∨ is_name s.

(** Walking down (or up) from directory [p] along the relative path [b]. *)
Definition descend (p : list string) (b : string) : list string :=
  reverse (fold_left os.walk (strings.SplitSlash b) (reverse p)).

(** [grown P w0 w]: from [w0] to [w] the file system has not changed and
    the trace has grown by events that satisfy [P]. *)
Definition grown (P : Event → Prop) (w0 w : World) : Prop :=
  fs w = fs w0 ∧ ∃ evs, trace w = trace w0 ++ evs ∧ Forall P evs.

(** Every event but the existence probe of the description file. *)
Definition not_probe (e : Event) : Prop :=
  match e with
  | EvHTTP method _ _ _ => method ≠ "HEAD"
  | _ => True
  end.

Definition is_http (e : Event) : Prop :=
  match e with
  | EvHTTP _ _ _ _ => True
  | _ => False
  end.

(** The events of the description step of handleUploadComplete: either no
    probe at all, or the probe first, followed by nothing if it found the
    file. *)
Definition note_events (evs : list Event) : Prop :=
  Forall not_probe evs
  ∨ ∃ url st rest,
      evs = EvHTTP "HEAD" url None st :: rest ∧ Forall not_probe rest
      ∧ (st = Some StatusOK → rest = []).

(** Whenever a probe is answered with 200 OK, no request follows it. *)
Definition probe_discipline (evs : list Event) : Prop :=
  ∀ pre url st post,
    evs = pre ++ EvHTTP "HEAD" url None st :: post →
    (st = Some StatusOK → Forall (λ e, ¬ is_http e) post)
    ∧ (Exists is_http post → st ≠ Some StatusOK).




(** The contract of sort.Slice, for a [less] that compares a numeric key:
    the result is a rearrangement of the input in which no element comes
    before one with a smaller key. Nothing is said about elements with
    equal keys: the sort need not be stable. *)
Definition sorts_by_key (sort : (string → string → bool) → list string → list string)
  : Prop :=
  ∀ (key : string → Z) (l : list string),
    sort (λ a b, key a <? key b) l ≡ₚ l
    ∧ StronglySorted (λ a b, key a <= key b) (sort (λ a b, key a <? key b) l).

(** Every element of [rest] on the way down from [at_] is a directory. *)
Fixpoint all_dirs (m : gmap (list string) os.node) (at_ rest : list string) : Prop :=
  match rest with
  | [] => True
  | e :: rest' => m !! (at_ ++ [e]) = Some os.Dir ∧ all_dirs m (at_ ++ [e]) rest'
  end.



(** The response of handleUploadChunk to a chunk that it stored. *)
Definition chunkStored : Response :=
  mkResponse StatusOK (PlainText "Chunk uploaded successfully").

(** Every event but an upload to the server. *)
Definition not_put (e : Event) : Prop :=
  match e with
  | EvHTTP method _ _ _ => method ≠ MethodPut
  | _ => True
  end.

(** The events of a finalize call that sends no file at all, or whose
    first upload carries [data]. *)
Definition first_put_carries (data : bytes) (evs : list Event) : Prop :=
  Forall not_put evs
  ∨ ∃ pre url st post,
      evs = pre ++ EvHTTP MethodPut url (Some data) st :: post ∧ Forall not_put pre.

(** *** Counting goroutines by where they stand *)

Fixpoint tally (f : Concurrent.pc → bool) (ps : list Concurrent.pc) : nat :=
  match ps with
  | [] => 0
  | p :: ps' => (if f p then 1 else 0) + tally f ps'
  end.

(** Between sessionsMutex.Lock() and the deferred sessionsMutex.Unlock(). *)
Definition in_critical (p : Concurrent.pc) : bool :=
  match p with
  | Concurrent.AtLock | Concurrent.Returned _ => false
  | _ => true
  end.

(** Between session.Mutex.Lock() and the deferred session.Mutex.Unlock(). *)
Definition holds_session (p : Concurrent.pc) : bool :=
  match p with
  | Concurrent.AtIncrement _ | Concurrent.AtCompare _
  | Concurrent.AtSessionUnlock _ _ => true
  | _ => false
  end.

(** At or past the comparison: the goroutine has incremented the count,
    or has taken the return that needs no increment. *)
Definition counted (p : Concurrent.pc) : bool :=
  match p with
  | Concurrent.AtCompare _ | Concurrent.AtSessionUnlock _ _
  | Concurrent.AtUnlock _ | Concurrent.Returned _ => true
  | _ => false
  end.

Definition comparing (p : Concurrent.pc) : bool :=
  match p with
  | Concurrent.AtCompare _ => true
  | _ => false
  end.

(** The call returns true, or is about to. *)
Definition won (p : Concurrent.pc) : bool :=
  match p with
  | Concurrent.AtSessionUnlock _ r | Concurrent.AtUnlock r
  | Concurrent.Returned r => r
  | _ => false
  end.

(** The local pointer variable, where it is set, points to [l]. *)
Definition points_to (l : nat) (p : Concurrent.pc) : bool :=
  match p with
  | Concurrent.AtSessionLock s | Concurrent.AtIncrement s
  | Concurrent.AtCompare s | Concurrent.AtSessionUnlock s _ => Nat.eqb s l
  | _ => true
  end.

(** The number of steps a goroutine still has to take. *)
Definition remaining (p : Concurrent.pc) : nat :=
  match p with
  | Concurrent.AtLock => 7
  | Concurrent.AtLookup => 6
  | Concurrent.AtSessionLock _ => 5
  | Concurrent.AtIncrement _ => 4
  | Concurrent.AtCompare _ => 3
  | Concurrent.AtSessionUnlock _ _ => 2
  | Concurrent.AtUnlock _ => 1
  | Concurrent.Returned _ => 0
  end.

Definition total_remaining (st : Concurrent.State) : nat :=
  sum_list (remaining <$> Concurrent.goroutines st).

(** The invariant of [n] concurrent calls for the session at [l]: mutual
    exclusion on both mutexes, a count that equals the number of goroutines
    past the increment, and a registry that holds the session until one
    goroutine, the one whose increment reached [n], has removed it. *)
Definition calls_invariant (sessionID : string) (l n : nat) (st : Concurrent.State)
  : Prop :=
  let gs := Concurrent.goroutines st in
  length gs = n
  ∧ Forall (λ p, points_to l p = true) gs
  ∧ tally in_critical gs = (if Concurrent.sessionsMutex st then 1 else 0)%nat
  ∧ (∃ o, Concurrent.heap st !! l = Some o
          ∧ UploadCount (Concurrent.data o) = Z.of_nat n
          ∧ CompletedCount (Concurrent.data o) = Z.of_nat (tally counted gs)
          ∧ tally holds_session gs = (if Concurrent.Mutex o then 1 else 0)%nat)
  ∧ match Concurrent.sessions st !! sessionID with
    | Some l' =>
        l' = l ∧ tally won gs = 0%nat
        ∧ (tally comparing gs = 0%nat → (tally counted gs < n)%nat)
    | None =>
        tally won gs = 1%nat ∧ tally counted gs = n ∧ tally comparing gs = 0%nat
    end.

(** [stable I c]: the computation [c] keeps the invariant [I] of the state. *)
Definition stable {A} (I : World → Prop) (c : M A) : Prop :=
  ∀ w, I w → I (snd (c w)).

(** Calls of checkAndUpdateSession for one session, one after the other,
    each with the folder name, email, phone and origin of its finalize
    request; the values they return, in order. *)
Fixpoint completions (sessionID : string)
    (calls : list (string * string * string * string)) : M (list bool) :=
  match calls with
  | [] => ret []
  | (folderName, email, phone, dataOrigin) :: rest =>
      r <- checkAndUpdateSession sessionID folderName email phone dataOrigin ;;
      rs <- completions sessionID rest ;;
      ret (r :: rs)
  end.

(** The requests sent to the WebDAV server, by method and URL, in order. *)
Definition http_requests (evs : list Event) : list (string * string) :=
  omap (λ e, match e with
             | EvHTTP method url _ _ => Some (method, url)
             | _ => None
             end) evs.

(** What is uploaded to the WebDAV server: the URL and the body of every
    PUT request, in order. *)
Definition uploads (evs : list Event) : list (string * option bytes) :=
  omap (λ e, match e with
             | EvHTTP method url body _ =>
                 if String.eqb method MethodPut then Some (url, body) else None
             | _ => None
             end) evs.

(** The answers that createNextcloudFolder takes for success: 201 Created
    and 405 Method Not Allowed (the folder exists). *)
Definition folder_acknowledged (st : option Z) : bool :=
  match st with
  | Some status => (status =? StatusCreated) || (status =? StatusMethodNotAllowed)
  | None => false
  end.

(** The answers that uploadToNextcloudFolder takes for success: 201 Created
    and 204 No Content. *)
Definition file_acknowledged (st : option Z) : bool :=
  match st with
  | Some status => (status =? StatusCreated) || (status =? StatusNoContent)
  | None => false
  end.

(** The answer that checkDescriptionFileExists takes for "the file is
    there": 200 OK. *)
Definition probe_found (st : option Z) : bool :=
  match st with
  | Some status => status =? StatusOK
  | None => false
  end.

(** The four error responses of handleUploadComplete before the session is
    looked at, and the one after. *)
Definition chunksNotFound : Response :=
  jsonError "Could not find chunks on server." StatusInternalServerError.
Definition chunksNotRead : Response :=
  jsonError "Error processing chunks." StatusInternalServerError.
Definition folderFailed : Response :=
  jsonError "Failed to create folder in Nextcloud." StatusInternalServerError.
Definition uploadFailed : Response :=
  jsonError "Failed to upload to Nextcloud." StatusInternalServerError.
Definition descriptionFailed : Response :=
  jsonError "Failed to upload description file." StatusInternalServerError.

(** The session step of handleUploadComplete: whether the description is
    due. A request without sessionId is a single file upload. *)
Definition sessionStep (reqData : CompleteRequest) (folderName : string) : M bool :=
  if negb (String.eqb (SessionID reqData) "") then
    checkAndUpdateSession (SessionID reqData) folderName
      (cr_Email reqData) (cr_Phone reqData) (cr_DataOrigin reqData)
  else ret true.

(** The success response of handleUploadComplete. *)
Definition fileUploaded (folderName finalFilename : string) : Response :=
  mkResponse StatusOK
    (JSON [("message", "File uploaded successfully!");
           ("folderName", folderName);
           ("fileName", finalFilename)]).


(** The world with a longer trace. *)
Definition traced (w : World) (evs : list Event) : World :=
  mkWorld (fs w) (uploadSessions w) (now w) (trace w ++ evs).

Example Atoi_12 : strconv.Atoi "12" = 12. Proof. reflexivity. Qed.
Example Atoi_neg : strconv.Atoi "-7" = -7. Proof. reflexivity. Qed.
Example Atoi_bad : strconv.Atoi "1a" = 0. Proof. reflexivity. Qed.
Example Atoi_big : strconv.Atoi "9223372036854775808" = 9223372036854775807. Proof. reflexivity. Qed.
Example Itoa_ts : strconv.Itoa 1700000000 = "1700000000". Proof. reflexivity. Qed.
Example Itoa_0 : strconv.Itoa 0 = "0". Proof. reflexivity. Qed.
Example Itoa_n : strconv.Itoa (-45) = "-45". Proof. reflexivity. Qed.
Example Base_1 : filepath.Base "../foo" = "foo". Proof. reflexivity. Qed.
Example Base_2 : filepath.Base "/" = "/". Proof. reflexivity. Qed.
Example Base_3 : filepath.Base "" = ".". Proof. reflexivity. Qed.
Example Base_4 : filepath.Base "a/b//" = "b". Proof. reflexivity. Qed.
Example Clean_1 : filepath.Clean "a/../../b/./c//" = "../b/c". Proof. reflexivity. Qed.
Example Clean_2 : filepath.Clean "/../a/.." = "/". Proof. reflexivity. Qed.
Example Clean_3 : filepath.Clean "" = ".". Proof. reflexivity. Qed.
Example Clean_4 : filepath.Clean "../../a/../.." = "../../..". Proof. reflexivity. Qed.
Example Join_1 : filepath.Join ["/tmp/nextcloud-public-uploader/"; "abc"] = "/tmp/nextcloud-public-uploader/abc". Proof. reflexivity. Qed.
Example Join_2 : filepath.Join ["/tmp/x/abc"; "../../etc/passwd"] = "/tmp/etc/passwd". Proof. reflexivity. Qed.
Example Join_3 : filepath.Join ["."; "/"] = ".". Proof. reflexivity. Qed.
Example Join_4 : filepath.Join [""; "b"] = "b". Proof. reflexivity. Qed.

(* ===================================================================== *)
(** ** Go integers *)

Lemma wrap_in_range z : goint.in_range z → goint.wrap z = z.
Proof.
  unfold goint.in_range, goint.wrap, goint.MinInt, goint.MaxInt. intros Hz.
  rewrite Z.mod_small; lia.
Qed.

(* ===================================================================== *)
(** ** The session registry *)

Section Registry.

Variables folderName email phone dataOrigin : string.

Abbreviation complete id := (checkAndUpdateSession id folderName email phone dataOrigin).

Lemma complete_unknown w id :
  uploadSessions w !! id = None → complete id w = (true, w).
Proof.
  intros Hnone. unfold checkAndUpdateSession, bind, get_uploadSessions.
  rewrite Hnone. reflexivity.
Qed.

(** A completion that is not the last one: the count goes up by one. *)
Lemma complete_pending w id s :
  uploadSessions w !! id = Some s →
  0 <= CompletedCount s → CompletedCount s + 1 < UploadCount s →
  UploadCount s <= goint.MaxInt →
  complete id w =
    (false, mkWorld (fs w)
              (<[id := mkUploadSession (Email s) (Phone s) (DataOrigin s)
                         (UploadCount s) (CompletedCount s + 1)]> (uploadSessions w))
              (now w) (trace w)).
Proof.
  intros Hs H0 Hlt Hmax.
  unfold checkAndUpdateSession, bind, get_uploadSessions, set_uploadSessions, ret.
  rewrite Hs. cbn [UploadCount CompletedCount].
  rewrite wrap_in_range by (unfold goint.in_range, goint.MinInt, goint.MaxInt in *; lia).
  destruct (Z.leb_spec (UploadCount s) (CompletedCount s + 1)); [lia | reflexivity].
Qed.

(** The completion that reaches the expected count: the entry goes. *)
Lemma complete_last w id s :
  uploadSessions w !! id = Some s →
  0 <= CompletedCount s → UploadCount s <= CompletedCount s + 1 →
  CompletedCount s < goint.MaxInt →
  complete id w =
    (true, mkWorld (fs w) (delete id (uploadSessions w)) (now w) (trace w)).
Proof.
  intros Hs H0 Hge Hmax.
  unfold checkAndUpdateSession, bind, get_uploadSessions, set_uploadSessions, ret.
  rewrite Hs. cbn [UploadCount CompletedCount].
  rewrite wrap_in_range by (unfold goint.in_range, goint.MinInt, goint.MaxInt in *; lia).
  destruct (Z.leb_spec (UploadCount s) (CompletedCount s + 1)); [| lia].
  by rewrite delete_insert_eq.
Qed.

Lemma complete_keeps_active w id :
  registry_active w → registry_active (snd (complete id w)).
Proof.
  unfold registry_active. intros Hall.
  destruct (uploadSessions w !! id) as [s|] eqn:Hs.
  - destruct (Hall _ _ Hs) as [[H0 Hlt] Hmax].
    destruct (Z.le_gt_cases (UploadCount s) (CompletedCount s + 1)) as [Hge|Hgt].
    + rewrite (complete_last w id s) by (try done; lia). cbn.
      by apply map_Forall_delete.
    + rewrite (complete_pending w id s) by (try done; lia). cbn.
      apply map_Forall_insert_2; [| done].
      unfold session_active; cbn. lia.
  - by rewrite complete_unknown.
Qed.

End Registry.

Lemma register_run r reqData w :
  Method r = MethodPost → Decoded r = Some reqData →
  snd (handleUploadSession r w) =
    mkWorld (fs w)
      (<[sr_SessionID reqData :=
           mkUploadSession (sr_Email reqData) (sr_Phone reqData)
             (sr_DataOrigin reqData) (sr_TotalFiles reqData) 0]> (uploadSessions w))
      (now w) (trace w).
Proof.
  intros Hm Hd. unfold handleUploadSession. rewrite Hm, Hd. reflexivity.
Qed.

Lemma register_rejected r w :
  Method r ≠ MethodPost ∨ Decoded r = None → snd (handleUploadSession r w) = w.
Proof.
  unfold handleUploadSession. intros [Hm|Hd].
  - apply String.eqb_neq in Hm. by rewrite Hm.
  - rewrite Hd. by destruct (negb _).
Qed.

(** C4: after a registration with [totalFiles = 3], three calls of
    checkAndUpdateSession in a row return false, false and true, and after
    the third the session is no longer in the registry. *)
Theorem three_completions_false_false_true
    (w : World) (sessionID email phone dataOrigin : string)
    (f1 e1 p1 o1 f2 e2 p2 o2 f3 e3 p3 o3 : string) :
  let r := mkJSONRequest MethodPost
             (Some (mkSessionRequest sessionID email phone dataOrigin 3)) in
  let w0 := snd (handleUploadSession r w) in
  let c1 := checkAndUpdateSession sessionID f1 e1 p1 o1 w0 in
  let c2 := checkAndUpdateSession sessionID f2 e2 p2 o2 (snd c1) in
  let c3 := checkAndUpdateSession sessionID f3 e3 p3 o3 (snd c2) in
  fst c1 = false ∧ fst c2 = false ∧ fst c3 = true ∧
  uploadSessions (snd c3) !! sessionID = None.
Proof.
  intros r w0 c1 c2 c3.
  assert (Hw0 : uploadSessions w0 !! sessionID =
                Some (mkUploadSession email phone dataOrigin 3 0)).
  { unfold w0. erewrite register_run by reflexivity. cbn. apply lookup_insert_eq. }
  clearbody w0. subst c1 c2 c3.
  rewrite (complete_pending f1 e1 p1 o1 _ _ _ Hw0)
    by (cbn; unfold goint.MaxInt; lia).
  cbn [fst snd UploadCount CompletedCount Email Phone DataOrigin].
  erewrite (complete_pending f2 e2 p2 o2)
    by (cbn; first [apply lookup_insert_eq | unfold goint.MaxInt; lia]).
  cbn [fst snd UploadCount CompletedCount Email Phone DataOrigin
       fs uploadSessions now trace].
  erewrite (complete_last f3 e3 p3 o3)
    by (cbn; first [apply lookup_insert_eq | unfold goint.MaxInt; lia]).
  cbn. repeat split. apply lookup_delete_eq.
Qed.

(** C5: for a session id that is not in the registry (never registered, or
    removed by the call that completed it), checkAndUpdateSession returns
    true and leaves the registry, and the rest of the state, as it was. *)
Theorem completion_of_unknown_session
    (w : World) (sessionID folderName email phone dataOrigin : string) :
  uploadSessions w !! sessionID = None →
  checkAndUpdateSession sessionID folderName email phone dataOrigin w = (true, w).
Proof. apply complete_unknown. Qed.

Lemma completion_of_unknown_session_witness :
  checkAndUpdateSession "never-registered" "folder" "a@b.c" "" "" emptyWorld
  = (true, emptyWorld).
Proof. apply completion_of_unknown_session. reflexivity. Defined.

(* ===================================================================== *)
(** ** Invariants of the state along a computation *)

Lemma stable_ret {A} (I : World → Prop) (a : A) : stable I (ret a).
Proof. by intros w. Qed.

Lemma stable_bind {A B} (I : World → Prop) (c : M A) (k : A → M B) :
  stable I c → (∀ a, stable I (k a)) → stable I (x <- c ;; k x).
Proof.
  intros Hc Hk w Hw. unfold bind. specialize (Hc w Hw).
  destruct (c w) as [a w']. by apply Hk.
Qed.

(** Walks through a computation one bind, one branch at a time. *)
Create HintDb stable discriminated.

Ltac stable_walk :=
  repeat first
    [ solve [auto with stable nocore]
    | progress cbv zeta
    | match goal with
      | |- stable _ (ret _) => apply stable_ret
      | |- stable _ (bind _ _) => apply stable_bind; [| intros ?]
      | |- stable _ (match ?x with _ => _ end) => destruct x eqn:?
      end ].

Section RegistryInvariant.

Variable Q : gmap string UploadSession → Prop.
Let I (w : World) : Prop := Q (uploadSessions w).

Lemma sessions_emit e : stable I (emit e).
Proof. by intros w. Qed.

Lemma sessions_get_fs : stable I get_fs.
Proof. by intros w. Qed.

Lemma sessions_put_fs f : stable I (put_fs f).
Proof. by intros w. Qed.

Lemma sessions_time_Now : stable I time_Now.
Proof. by intros w. Qed.

Local Hint Resolve sessions_emit sessions_get_fs sessions_put_fs sessions_time_Now
: stable.

Lemma sessions_http_Do env method url body : stable I (http_Do env method url body).
Proof.
  unfold http_Do. destruct (negb _); [apply stable_ret |].
  destruct body as [r|]; [destruct (io.ReadAll r) |]; by intros w.
Qed.

Lemma sessions_os_MkdirAll path : stable I (os_MkdirAll path).
Proof. unfold os_MkdirAll. stable_walk. Qed.

Lemma sessions_os_Create path : stable I (os_Create path).
Proof. unfold os_Create. stable_walk. Qed.

Lemma sessions_io_Copy path dst src : stable I (io_Copy path dst src).
Proof. unfold io_Copy. stable_walk. Qed.

Lemma sessions_os_ReadDir path : stable I (os_ReadDir path).
Proof. unfold os_ReadDir. stable_walk. Qed.

Lemma sessions_os_Open path : stable I (os_Open path).
Proof. unfold os_Open. stable_walk. Qed.

Lemma sessions_os_RemoveAll path : stable I (os_RemoveAll path).
Proof. unfold os_RemoveAll. stable_walk. Qed.

Local Hint Resolve sessions_http_Do sessions_os_MkdirAll sessions_os_Create
  sessions_io_Copy sessions_os_ReadDir sessions_os_Open sessions_os_RemoveAll
: stable.

Lemma sessions_handleUploadChunk cfg r : stable I (handleUploadChunk cfg r).
Proof. unfold handleUploadChunk. stable_walk. Qed.

Lemma sessions_openChunks chunkDir chunkFiles readers :
  stable I (openChunks chunkDir chunkFiles readers).
Proof.
  revert readers. induction chunkFiles as [|chunkFile rest IH]; intros readers; cbn.
  - apply stable_ret.
  - stable_walk.
Qed.

Lemma sessions_assembleChunks env chunkDir : stable I (assembleChunks env chunkDir).
Proof.
  unfold assembleChunks. stable_walk. apply sessions_openChunks.
Qed.

Lemma sessions_createNextcloudFolder env cfg folderName :
  stable I (createNextcloudFolder env cfg folderName).
Proof. unfold createNextcloudFolder. stable_walk. Qed.

Lemma sessions_uploadToNextcloudFolder env cfg folderName filename data :
  stable I (uploadToNextcloudFolder env cfg folderName filename data).
Proof. unfold uploadToNextcloudFolder. stable_walk. Qed.

Lemma sessions_checkDescriptionFileExists env cfg folderName :
  stable I (checkDescriptionFileExists env cfg folderName).
Proof. unfold checkDescriptionFileExists. stable_walk. Qed.

Local Hint Resolve sessions_assembleChunks sessions_createNextcloudFolder
  sessions_uploadToNextcloudFolder sessions_checkDescriptionFileExists : stable.

Lemma sessions_uploadDescription env cfg reqData folderName should :
  stable I (uploadDescription env cfg reqData folderName should).
Proof. unfold uploadDescription. stable_walk. Qed.

Local Hint Resolve sessions_uploadDescription : stable.

(** The finalize handler touches the registry through
    checkAndUpdateSession only. *)
Hypothesis Q_complete : ∀ id folderName email phone dataOrigin,
  stable I (checkAndUpdateSession id folderName email phone dataOrigin).

Lemma sessions_handleUploadComplete env cfg r :
  stable I (handleUploadComplete env cfg r).
Proof.
  unfold handleUploadComplete, completeUpload.
  stable_walk.
Qed.

End RegistryInvariant.

Lemma register_keeps_active r w :
  announces_files (PostSession r) →
  registry_active w → registry_active (snd (handleUploadSession r w)).
Proof.
  cbn. intros Hr Hw. unfold handleUploadSession.
  destruct (negb _); [done |]. destruct (Decoded r) as [reqData|]; [| done].
  cbn. apply map_Forall_insert_2; [| done].
  unfold session_active; cbn. lia.
Qed.

Lemma serve_keeps_active env cfg c w :
  announces_files c → registry_active w → registry_active (snd (serve env cfg c w)).
Proof.
  intros Hc Hw. destruct c as [r|r|r|t]; cbn [serve].
  - unfold bind, ret. pose proof (register_keeps_active r w Hc Hw).
    by destruct (handleUploadSession r w).
  - unfold bind, ret.
    pose proof (sessions_handleUploadChunk (map_Forall (λ _ s, session_active s)) cfg r w Hw).
    by destruct (handleUploadChunk cfg r w).
  - unfold bind, ret.
    assert (registry_active (snd (handleUploadComplete env cfg r w))).
    { apply (sessions_handleUploadComplete (map_Forall (λ _ s, session_active s))); [| done].
      intros ????? w'. apply complete_keeps_active. }
    by destruct (handleUploadComplete env cfg r w).
  - done.
Qed.

(** C6, as amended: every session in the registry is ACTIVE, that is
    [0 <= completed < expected], and this is kept by checkAndUpdateSession,
    by the chunk and finalize handlers, and by a registration that
    announces at least one file; so it holds after every sequence of
    requests whose registrations have [totalFiles >= 1]. *)
Theorem registry_active_after_requests
    (env : Env) (cfg : Config) (calls : list Call) (w : World) :
  registry_active w →
  Forall announces_files calls →
  map_Forall (λ _ s, 0 <= CompletedCount s < UploadCount s)
    (uploadSessions (serveAll env cfg calls w)).
Proof.
  intros Hw Hcalls.
  assert (Hfinal : registry_active (serveAll env cfg calls w)).
  { revert w Hw. induction Hcalls as [|c calls Hc _ IH]; intros w Hw; [done |].
    cbn. apply IH. by apply serve_keeps_active. }
  intros id s Hs. by destruct (Hfinal id s Hs).
Qed.

Lemma registry_active_after_requests_witness :
  map_Forall (λ _ s, 0 <= CompletedCount s < UploadCount s)
    (uploadSessions
      (serveAll plainEnv defaultConfig
         [PostSession (mkJSONRequest "POST" (Some (mkSessionRequest "s" "a@b.c" "" "" 2)));
          PostComplete (mkJSONRequest "POST"
            (Some (mkCompleteRequest "u" "f.bin" "a@b.c" "" "" "s" 2)))]
         emptyWorld)).
Proof.
  apply registry_active_after_requests.
  - apply map_Forall_empty.
  - repeat constructor; cbn; unfold goint.MaxInt; lia.
Defined.

(** C6, the claim as written fails: a registration with [totalFiles = 0]
    is accepted and leaves a session with [completed = expected = 0] in the
    registry. *)
Lemma registration_of_zero_files_not_active :
  let w := snd (handleUploadSession
                  (mkJSONRequest "POST" (Some (mkSessionRequest "s" "a@b.c" "" "" 0)))
                  emptyWorld) in
  ∃ s, uploadSessions w !! "s" = Some s ∧ ¬ (CompletedCount s < UploadCount s).
Proof.
  cbn. eexists. split; [apply lookup_insert_eq |]. cbn. lia.
Qed.

(* ===================================================================== *)
(** ** Decimal numerals *)

Lemma digit_char_is_digit d : 0 <= d < 10 → strconv.is_digit (strconv.digit_char d) = true.
Proof.
  intros Hd.
  assert (d = 0 ∨ d = 1 ∨ d = 2 ∨ d = 3 ∨ d = 4 ∨ d = 5 ∨ d = 6 ∨ d = 7 ∨ d = 8 ∨ d = 9)
    as Hcases by lia.
  repeat (destruct Hcases as [-> | Hcases]; [reflexivity |]). by subst.
Qed.

Lemma digit_val_char d : 0 <= d < 10 → strconv.digit_val (strconv.digit_char d) = d.
Proof.
  intros Hd.
  assert (d = 0 ∨ d = 1 ∨ d = 2 ∨ d = 3 ∨ d = 4 ∨ d = 5 ∨ d = 6 ∨ d = 7 ∨ d = 8 ∨ d = 9)
    as Hcases by lia.
  repeat (destruct Hcases as [-> | Hcases]; [reflexivity |]). by subst.
Qed.

(** Reading back what format_digits wrote in front of [acc]. *)
Lemma parse_format_digits fuel : ∀ n acc a,
  0 <= n < 2 ^ Z.of_nat fuel →
  strconv.parse_digits (strconv.format_digits fuel n acc) a
  = strconv.parse_digits acc (a * 10 ^ count_digits fuel n + n).
Proof.
  induction fuel as [|fuel IH]; intros n acc a Hn.
  - cbn in *. f_equal. lia.
  - cbn [strconv.format_digits count_digits].
    assert (Hmod : 0 <= n mod 10 < 10) by (apply Z.mod_pos_bound; lia).
    destruct (Z.ltb_spec n 10) as [Hlt|Hge].
    + cbn [strconv.parse_digits]. rewrite digit_char_is_digit by done.
      rewrite digit_val_char by done. rewrite Z.mod_small by lia. f_equal; lia.
    + assert (Hdiv : 0 <= n / 10 < 2 ^ Z.of_nat fuel).
      { split; [apply Z.div_pos; lia |].
        apply Z.div_lt_upper_bound; [lia |].
        rewrite Nat2Z.inj_succ, Z.pow_succ_r in Hn by lia. lia. }
      rewrite IH by done. cbn [strconv.parse_digits].
      rewrite digit_char_is_digit by done. rewrite digit_val_char by done.
      f_equal.
      assert (0 <= count_digits fuel (n / 10)).
      { clear. generalize (n / 10). induction fuel; intros m; cbn; [lia |].
        destruct (m <? 10); [lia |]. specialize (IHfuel (m / 10)). lia. }
      rewrite Z.pow_add_r by lia.
      pose proof (Z.div_mod n 10). lia.
Qed.

Lemma log2_fuel n : 0 <= n → 0 <= n < 2 ^ Z.of_nat (S (Z.to_nat (Z.log2 n))).
Proof.
  intros Hn. split; [done |].
  rewrite Nat2Z.inj_succ, Z2Nat.id by apply Z.log2_nonneg.
  destruct (Z.eq_dec n 0) as [-> | Hne]; [reflexivity |].
  apply Z.log2_spec. lia.
Qed.

Lemma parse_FormatUint n :
  0 <= n → strconv.parse_digits (strconv.FormatUint n) 0 = Some n.
Proof.
  intros Hn. unfold strconv.FormatUint.
  rewrite parse_format_digits by by apply log2_fuel. cbn. f_equal; lia.
Qed.

Lemma all_digits_format fuel : ∀ n acc,
  0 <= n → all_digits acc = true → all_digits (strconv.format_digits fuel n acc) = true.
Proof.
  induction fuel as [|fuel IH]; intros n acc Hn Hacc; [done |].
  cbn [strconv.format_digits].
  assert (Hmod : 0 <= n mod 10 < 10) by (apply Z.mod_pos_bound; lia).
  destruct (n <? 10).
  - cbn. by rewrite digit_char_is_digit, Hacc.
  - apply IH; [apply Z.div_pos; lia |]. cbn. by rewrite digit_char_is_digit, Hacc.
Qed.

Lemma format_digits_nonempty fuel : ∀ n acc,
  acc ≠ EmptyString → strconv.format_digits fuel n acc ≠ EmptyString.
Proof.
  induction fuel as [|fuel IH]; intros n acc Hacc; [done |].
  cbn [strconv.format_digits]. destruct (n <? 10); [done |]. by apply IH.
Qed.

Lemma all_digits_FormatUint n : 0 <= n → all_digits (strconv.FormatUint n) = true.
Proof. intros Hn. by apply all_digits_format. Qed.

Lemma FormatUint_nonempty n : strconv.FormatUint n ≠ EmptyString.
Proof.
  unfold strconv.FormatUint. cbn [strconv.format_digits].
  destruct (n <? 10); [done |]. by apply format_digits_nonempty.
Qed.

(** A numeral of digits starts with a digit, so not with a sign. *)
Lemma FormatUint_head n :
  0 <= n → ∃ c s, strconv.FormatUint n = String c s ∧ strconv.is_digit c = true.
Proof.
  intros Hn. pose proof (all_digits_FormatUint n Hn) as Hall.
  pose proof (FormatUint_nonempty n) as Hne.
  destruct (strconv.FormatUint n) as [|c s]; [done |].
  cbn in Hall. apply andb_true_iff in Hall as [Hc _]. eauto.
Qed.

(** Atoi reads back what Itoa printed, for every Go int. *)
Lemma Atoi_Itoa n : goint.in_range n → strconv.Atoi (strconv.Itoa n) = n.
Proof.
  unfold goint.in_range, goint.MinInt, goint.MaxInt. intros Hn.
  unfold strconv.Itoa. destruct (Z.ltb_spec n 0) as [Hneg|Hpos].
  - unfold strconv.Atoi. cbn [strconv.split_sign].
    pose proof (FormatUint_nonempty (- n)).
    destruct (strconv.FormatUint (- n)) eqn:Hf; [done |]. rewrite <- Hf.
    rewrite parse_FormatUint by lia. unfold goint.MinInt, goint.MaxInt. lia.
  - destruct (FormatUint_head n Hpos) as (c & s & Hf & Hc).
    unfold strconv.Atoi.
    assert (Hsign : strconv.split_sign (strconv.FormatUint n) = (false, strconv.FormatUint n)).
    { rewrite Hf. unfold strconv.split_sign.
      destruct c as [[] [] [] [] [] [] [] []]; try reflexivity; discriminate. }
    rewrite Hsign. rewrite Hf at 1. rewrite parse_FormatUint by done.
    unfold goint.MinInt, goint.MaxInt. lia.
Qed.

Lemma take_digits_app ds r :
  all_digits ds = true → dash_tail r → take_digits (ds +:+ r) = ds.
Proof.
  intros Hds Hr. induction ds as [|c ds IH]; cbn [all_digits take_digits String.append] in *.
  - destruct Hr as [-> | [r' ->]]; reflexivity.
  - apply andb_true_iff in Hds as [Hc Hds]. simpl. rewrite Hc. f_equal. by apply IH.
Qed.

(** The numeral that Itoa printed can be cut out of what follows it. *)
Lemma leading_numeral_Itoa n r :
  dash_tail r → leading_numeral (strconv.Itoa n +:+ r) = strconv.Itoa n.
Proof.
  intros Hr. unfold strconv.Itoa. destruct (Z.ltb_spec n 0) as [Hneg|Hpos].
  - change (leading_numeral (String "-" (strconv.FormatUint (- n) +:+ r))
            = String "-" (strconv.FormatUint (- n))).
    unfold leading_numeral. f_equal.
    apply take_digits_app; [| done]. apply all_digits_FormatUint. lia.
  - destruct (FormatUint_head n Hpos) as (c & s & Hf & Hc).
    assert (leading_numeral (strconv.FormatUint n +:+ r)
            = take_digits (strconv.FormatUint n +:+ r)) as ->.
    { rewrite Hf. change (String c s +:+ r) with (String c (s +:+ r)).
      unfold leading_numeral.
      destruct c as [[] [] [] [] [] [] [] []]; try reflexivity; discriminate. }
    apply take_digits_app; [| done]. by apply all_digits_FormatUint.
Qed.

Lemma Itoa_inj a b : strconv.Itoa a = strconv.Itoa b → a = b.
Proof.
  unfold strconv.Itoa.
  destruct (Z.ltb_spec a 0) as [Ha|Ha], (Z.ltb_spec b 0) as [Hb|Hb]; intros Heq.
  - injection Heq as Heq.
    pose proof (parse_FormatUint (- a)) as Hpa. pose proof (parse_FormatUint (- b)) as Hpb.
    rewrite Heq in Hpa. rewrite Hpb in Hpa by lia.
    assert (Some (- b) = Some (- a)) as [=] by (apply Hpa; lia). lia.
  - destruct (FormatUint_head b Hb) as (c & s & Hf & Hc).
    rewrite Hf in Heq. injection Heq as <- _. discriminate.
  - destruct (FormatUint_head a Ha) as (c & s & Hf & Hc).
    rewrite Hf in Heq. injection Heq as -> _. discriminate.
  - pose proof (parse_FormatUint a Ha) as Hpa. pose proof (parse_FormatUint b Hb) as Hpb.
    rewrite Heq in Hpa. congruence.
Qed.

(* ===================================================================== *)
(** ** Folder names *)

Lemma append_cons c s r : String c s +:+ r = String c (s +:+ r).
Proof. reflexivity. Qed.

Lemma append_nil_l s : "" +:+ s = s.
Proof. reflexivity. Qed.

Lemma append_nil_r s : s +:+ "" = s.
Proof. induction s as [|c s IH]; [done |]. by rewrite append_cons, IH. Qed.

Lemma append_assoc s1 s2 s3 : (s1 +:+ s2) +:+ s3 = s1 +:+ (s2 +:+ s3).
Proof. induction s1 as [|c s1 IH]; [done |]. by rewrite !append_cons, IH. Qed.

Lemma concat_cons2 sep a b l :
  String.concat sep (a :: b :: l) = a +:+ sep +:+ String.concat sep (b :: l).
Proof. reflexivity. Qed.

Lemma createFolderName_format t email phone :
  createFolderName t email phone
  = strconv.Itoa (Unix t)
      +:+ ((if String.eqb email "" then "" else "-" +:+ sanitizeEmail email)
      +:+ (if String.eqb phone "" then "" else "-" +:+ sanitizePhone phone)).
Proof.
  unfold createFolderName, strings.Join.
  destruct (String.eqb email ""), (String.eqb phone ""); cbn [negb app];
    rewrite ?concat_cons2, ?append_nil_l, ?append_nil_r, ?append_assoc; reflexivity.
Qed.

Lemma createFolderName_tail email phone :
  dash_tail ((if String.eqb email "" then "" else "-" +:+ sanitizeEmail email)
             +:+ (if String.eqb phone "" then "" else "-" +:+ sanitizePhone phone)).
Proof.
  destruct (String.eqb email ""), (String.eqb phone "").
  - by left.
  - right. by eexists.
  - right. by eexists.
  - right. by eexists.
Qed.

(** C9, as amended: the folder name is a function of the instant, the
    email and the phone; it is the decimal Unix time in seconds, followed
    by "-" and the sanitized email exactly when the email is not empty,
    followed by "-" and the sanitized phone exactly when the phone is not
    empty; and two submissions made in different seconds never get the
    same folder name, whatever their emails and phones. *)
Theorem folder_name_of_time_email_phone
    (t t' : Z) (email phone email' phone' : string) :
  Unix t ≠ Unix t' →
  createFolderName t email phone
  = strconv.Itoa (Unix t)
      +:+ ((if String.eqb email "" then "" else "-" +:+ sanitizeEmail email)
      +:+ (if String.eqb phone "" then "" else "-" +:+ sanitizePhone phone))
  ∧ createFolderName t email phone ≠ createFolderName t' email' phone'.
Proof.
  intros Hne. split; [apply createFolderName_format |].
  intros Heq. apply Hne, Itoa_inj.
  apply (f_equal leading_numeral) in Heq.
  rewrite !createFolderName_format in Heq.
  by rewrite !leading_numeral_Itoa in Heq by apply createFolderName_tail.
Qed.

Lemma folder_name_of_time_email_phone_witness :
  createFolderName 1700000000000000000 "ana@example.org" "+34 600-11"
  = strconv.Itoa (Unix 1700000000000000000)
      +:+ ("-" +:+ sanitizeEmail "ana@example.org"
      +:+ "-" +:+ sanitizePhone "+34 600-11")
  ∧ createFolderName 1700000000000000000 "ana@example.org" "+34 600-11"
    ≠ createFolderName 1700000001000000000 "ana@example.org" "+34 600-11".
Proof.
  apply (folder_name_of_time_email_phone 1700000000000000000 1700000001000000000
           "ana@example.org" "+34 600-11" "ana@example.org" "+34 600-11").
  vm_compute. discriminate.
Defined.

(** C9, the claim as written fails: the timestamp has a resolution of one
    second, so two submissions made at different instants of the same
    second with the same email and phone get the same folder name. *)
Lemma folder_names_collide_within_a_second :
  (1700000000000000000 : Z) ≠ 1700000000999999999 ∧
  createFolderName 1700000000000000000 "ana@example.org" "+34 600-11"
  = createFolderName 1700000000999999999 "ana@example.org" "+34 600-11"
  ∧ createFolderName 1700000000000000000 "ana@example.org" "+34 600-11"
    = "1700000000-ana_at_example_org-plus3460011".
Proof. split; [discriminate | split; reflexivity]. Qed.

(* ===================================================================== *)
(** ** Paths *)

Lemma SplitSlash_nonempty s : strings.SplitSlash s ≠ [].
Proof.
  destruct s as [|c s]; cbn; [done |].
  destruct (Ascii.eqb c "/"); [done |]. by destruct (strings.SplitSlash s).
Qed.

Lemma SplitSlash_app a b :
  strings.SplitSlash (a +:+ "/" +:+ b) = strings.SplitSlash a ++ strings.SplitSlash b.
Proof.
  induction a as [|c a IH].
  - reflexivity.
  - rewrite append_cons. cbn [strings.SplitSlash]. rewrite IH.
    destruct (Ascii.eqb c "/"); [done |].
    pose proof (SplitSlash_nonempty a).
    by destruct (strings.SplitSlash a).
Qed.

Lemma SplitSlash_slash_free s : slash_free s = true → strings.SplitSlash s = [s].
Proof.
  induction s as [|c s IH]; [done |]. cbn. intros [Hc Hs]%andb_true_iff.
  apply negb_true_iff in Hc. rewrite Hc, IH; done.
Qed.

Lemma SplitSlash_elements s : Forall (λ e, slash_free e = true) (strings.SplitSlash s).
Proof.
  induction s as [|c s IH]; cbn; [by constructor |].
  destruct (Ascii.eqb c "/") eqn:Hc; [by constructor |].
  destruct (strings.SplitSlash s) as [|x xs]; [by constructor; [cbn; rewrite Hc |] |].
  inversion_clear IH. constructor; [| done]. cbn. by rewrite Hc.
Qed.

Lemma SplitSlash_concat l :
  l ≠ [] → Forall (λ e, slash_free e = true) l →
  strings.SplitSlash (String.concat "/" l) = l.
Proof.
  induction l as [|a l IH]; [done |]. intros _ Hall.
  inversion_clear Hall as [|?? Ha Hl].
  destruct l as [|b l].
  - by apply SplitSlash_slash_free.
  - rewrite concat_cons2, SplitSlash_app, IH by done.
    by rewrite SplitSlash_slash_free.
Qed.

Lemma is_name_walk at_ e : is_name e → os.walk at_ e = e :: at_.
Proof.
  intros (_ & H1 & H2 & H3). unfold os.walk.
  by rewrite (proj2 (String.eqb_neq _ _) H1), (proj2 (String.eqb_neq _ _) H2),
    (proj2 (String.eqb_neq _ _) H3).
Qed.

Lemma is_name_clean_step r out e : is_name e → filepath.clean_step r out e = e :: out.
Proof.
  intros (_ & H1 & H2 & H3). unfold filepath.clean_step.
  by rewrite (proj2 (String.eqb_neq _ _) H1), (proj2 (String.eqb_neq _ _) H2),
    (proj2 (String.eqb_neq _ _) H3).
Qed.

(** An element is empty, ".", ".." or a name. *)
Lemma element_cases e :
  slash_free e = true → e = "" ∨ e = "." ∨ e = ".." ∨ is_name e.
Proof.
  intros He. destruct (decide (e = "")) as [|H1]; [by left |].
  destruct (decide (e = ".")) as [|H2]; [by right; left |].
  destruct (decide (e = "..")) as [|H3]; [by right; right; left |].
  by right; right; right.
Qed.

Lemma clean_step_kept r out e :
  slash_free e = true → Forall is_kept out → Forall is_kept (filepath.clean_step r out e).
Proof.
  intros He Hout.
  destruct (element_cases e He) as [-> | [-> | [-> | Hname]]]; [done | done | |].
  - cbn. destruct out as [|last out'].
    + destruct r; [done |]. constructor; [by left | done].
    + destruct (String.eqb last ".."); [constructor; [by left | done] |].
      by inversion_clear Hout.
  - rewrite is_name_clean_step by done. constructor; [by right | done].
Qed.

(** One iteration of Clean against one step of path resolution: walking
    along the output written so far reaches the directory that walking
    along the input read so far reaches. On a rooted path the walk starts
    at the root, whose parent is the root. *)
Lemma clean_step_walk r out e at_ :
  slash_free e = true → Forall is_kept out → (r = true → at_ = []) →
  (r = true → Forall is_name out) →
  fold_left os.walk (reverse (filepath.clean_step r out e)) at_
  = os.walk (fold_left os.walk (reverse out) at_) e.
Proof.
  intros He Hout Hroot Hnames.
  destruct (element_cases e He) as [-> | [-> | [-> | Hname]]]; [done | done | |].
  - cbn [filepath.clean_step String.eqb Ascii.eqb Bool.eqb].
    destruct out as [|last out'].
    + destruct r; cbn; [by rewrite Hroot | done].
    + destruct (String.eqb_spec last "..") as [-> | Hlast].
      * by rewrite (reverse_cons (".." :: out')), fold_left_app.
      * rewrite reverse_cons, fold_left_app. cbn [fold_left].
        inversion_clear Hout as [|?? [? | Hn] _]; [done |].
        by rewrite (is_name_walk _ _ Hn).
  - rewrite is_name_clean_step by done. by rewrite reverse_cons, fold_left_app.
Qed.

Lemma clean_step_names out e :
  slash_free e = true → Forall is_name out → Forall is_name (filepath.clean_step true out e).
Proof.
  intros He Hout.
  destruct (element_cases e He) as [-> | [-> | [-> | Hname]]]; [done | done | |].
  - cbn. destruct out as [|last out']; [done |].
    inversion_clear Hout as [|?? (_ & _ & _ & Hl) ?].
    by rewrite (proj2 (String.eqb_neq _ _) Hl).
  - rewrite is_name_clean_step by done. by constructor.
Qed.

Lemma clean_fold_walk r elems : ∀ out at_,
  Forall (λ e, slash_free e = true) elems → Forall is_kept out →
  (r = true → at_ = []) → (r = true → Forall is_name out) →
  fold_left os.walk (reverse (fold_left (filepath.clean_step r) elems out)) at_
  = fold_left os.walk elems (fold_left os.walk (reverse out) at_)
  ∧ Forall is_kept (fold_left (filepath.clean_step r) elems out).
Proof.
  induction elems as [|e elems IH]; intros out at_ Helems Hout Hroot Hnames; [done |].
  inversion_clear Helems as [|?? He Hrest]. cbn [fold_left].
  destruct (IH (filepath.clean_step r out e) at_) as [Hwalk Hkept]; try done.
  - by apply clean_step_kept.
  - intros ->. by apply clean_step_names, Hnames.
  - split; [| done]. rewrite Hwalk. f_equal. by apply clean_step_walk.
Qed.

Lemma is_kept_slash_free e : is_kept e → slash_free e = true ∧ e ≠ "".
Proof. by intros [-> | (? & ? & _)]. Qed.

Lemma slash_free_not_rooted e : slash_free e = true → filepath.rooted e = false.
Proof.
  destruct e as [|c e]; [done |]. cbn. intros [Hc _]%andb_true_iff.
  destruct c as [[] [] [] [] [] [] [] []]; try reflexivity; discriminate.
Qed.

Lemma rooted_append a b : a ≠ "" → filepath.rooted (a +:+ b) = filepath.rooted a.
Proof. by destruct a. Qed.

Lemma concat_head sep x l :
  x ≠ "" → filepath.rooted (String.concat sep (x :: l)) = filepath.rooted x.
Proof.
  intros Hx. destruct l as [|y l]; [done |].
  by rewrite concat_cons2, rooted_append.
Qed.

Lemma Forall_kept_slash_free out :
  Forall is_kept out → Forall (λ e, slash_free e = true) (reverse out).
Proof.
  intros Hout. apply Forall_reverse. eapply Forall_impl; [done |].
  intros e He. by apply is_kept_slash_free.
Qed.

(** Walking along the path that Clean renders is walking along the
    elements it kept. *)
Lemma render_walk r out at_ :
  Forall is_kept out →
  fold_left os.walk (strings.SplitSlash (filepath.render r out)) at_
  = fold_left os.walk (reverse out) at_.
Proof.
  intros Hout. destruct out as [|e out].
  - by destruct r.
  - assert (Hne : reverse (e :: out) ≠ []).
    { rewrite reverse_cons. by destruct (reverse out). }
    pose proof (Forall_kept_slash_free _ Hout) as Hfree.
    unfold filepath.render, strings.Join. destruct r.
    + change ("/" +:+ ?s) with ("" +:+ "/" +:+ s).
      by rewrite SplitSlash_app, SplitSlash_concat.
    + by rewrite SplitSlash_concat.
Qed.

Lemma render_rooted r out : Forall is_kept out → filepath.rooted (filepath.render r out) = r.
Proof.
  intros Hout. destruct out as [|e out]; [by destruct r |].
  unfold filepath.render, strings.Join. destruct r; [done |].
  apply Forall_reverse in Hout.
  destruct (reverse (e :: out)) as [|x l] eqn:Hrev.
  { rewrite reverse_cons in Hrev. by destruct (reverse out). }
  inversion_clear Hout as [|?? Hx _]. apply is_kept_slash_free in Hx as [Hfree Hx].
  rewrite concat_head by done. by apply slash_free_not_rooted.
Qed.

Lemma render_nonempty r out : Forall is_kept out → filepath.render r out ≠ "".
Proof.
  intros Hout. destruct out as [|e out]; [by destruct r |].
  unfold filepath.render, strings.Join. destruct r; [done |].
  apply Forall_reverse in Hout.
  destruct (reverse (e :: out)) as [|x l] eqn:Hrev.
  { rewrite reverse_cons in Hrev. by destruct (reverse out). }
  inversion_clear Hout as [|?? Hx _]. apply is_kept_slash_free in Hx as [_ Hx].
  destruct l; [done |]. rewrite concat_cons2. by destruct x.
Qed.

Lemma Clean_kept path :
  Forall is_kept (fold_left (filepath.clean_step (filepath.rooted path))
                    (strings.SplitSlash path) []).
Proof.
  by apply (clean_fold_walk (filepath.rooted path) _ [] []);
    [apply SplitSlash_elements | | |].
Qed.

(** filepath.Clean is sound for path resolution: from the root for a
    rooted path, from any directory for a relative one, the clean path leads
    where the path leads. *)
Lemma Clean_walk path at_ :
  (filepath.rooted path = true → at_ = []) →
  fold_left os.walk (strings.SplitSlash (filepath.Clean path)) at_
  = fold_left os.walk (strings.SplitSlash path) at_.
Proof.
  intros Hroot. unfold filepath.Clean. rewrite render_walk by apply Clean_kept.
  by apply (clean_fold_walk (filepath.rooted path) _ [] at_);
    [apply SplitSlash_elements | | |].
Qed.

Lemma Clean_rooted path : filepath.rooted (filepath.Clean path) = filepath.rooted path.
Proof. apply render_rooted, Clean_kept. Qed.

Lemma Clean_nonempty path : filepath.Clean path ≠ "".
Proof. apply render_nonempty, Clean_kept. Qed.

Lemma resolve_nonempty fs path :
  path ≠ "" →
  os.resolve fs path
  = Some (reverse (fold_left os.walk (strings.SplitSlash path)
            (if filepath.rooted path then [] else reverse (os.cwd fs)))).
Proof. intros Hne. unfold os.resolve. by rewrite (proj2 (String.eqb_neq _ _) Hne). Qed.

Lemma resolve_Clean fs path :
  path ≠ "" → os.resolve fs (filepath.Clean path) = os.resolve fs path.
Proof.
  intros Hne. rewrite !resolve_nonempty by (done || apply Clean_nonempty).
  rewrite Clean_rooted, Clean_walk; [done |]. by intros ->.
Qed.

Lemma Join_two d b : d ≠ "" → filepath.Join [d; b] = filepath.Clean (d +:+ "/" +:+ b).
Proof.
  intros Hd. cbn [filepath.Join]. by rewrite (proj2 (String.eqb_neq _ _) Hd).
Qed.

Lemma Join_nonempty d b : b ≠ "" → filepath.Join [d; b] ≠ "".
Proof.
  intros Hb. cbn [filepath.Join].
  destruct (String.eqb d ""); [| apply Clean_nonempty].
  rewrite (proj2 (String.eqb_neq _ _) Hb). apply Clean_nonempty.
Qed.

(** Joining [b] to a directory path and resolving the result is walking
    along [b] from where the directory path leads. *)
Lemma resolve_Join fs d b p :
  os.resolve fs d = Some p →
  os.resolve fs (filepath.Join [d; b]) = Some (descend p b).
Proof.
  intros Hd. assert (Hne : d ≠ "") by (by intros ->).
  rewrite Join_two, resolve_Clean by (done || by destruct d).
  rewrite resolve_nonempty in Hd by done. injection Hd as <-.
  rewrite resolve_nonempty by by destruct d.
  rewrite rooted_append, SplitSlash_app, fold_left_app by done.
  unfold descend. by rewrite reverse_involutive.
Qed.

Lemma descend_name p n : is_name n → descend p n = p ++ [n].
Proof.
  intros Hn. unfold descend. destruct Hn as (Hfree & Hn).
  rewrite SplitSlash_slash_free by done. cbn [fold_left].
  rewrite is_name_walk by done. by rewrite reverse_cons, reverse_involutive.
Qed.

(** A chunk index that starts with "../" leaves the directory it is
    joined to. *)
Lemma descend_parent_name q n x : is_name x → descend (q ++ [n]) ("../" +:+ x) = q ++ [x].
Proof.
  intros Hx. unfold descend.
  change ("../" +:+ x) with (".." +:+ "/" +:+ x).
  rewrite SplitSlash_app, (SplitSlash_slash_free x) by apply Hx.
  change (strings.SplitSlash "..") with [".."].
  rewrite reverse_app. cbn [fold_left app].
  change (os.walk (reverse [n] ++ reverse q) "..") with (reverse q).
  rewrite (is_name_walk _ x Hx). by rewrite reverse_cons, reverse_involutive.
Qed.

(** filepath.Base returns ".", "/" or the last non-empty element. *)
Lemma Base_cases path :
  filepath.Base path = "." ∨ filepath.Base path = "/"
  ∨ (slash_free (filepath.Base path) = true ∧ filepath.Base path ≠ "").
Proof.
  unfold filepath.Base. destruct (String.eqb path ""); [by left |].
  destruct (reverse _) as [|c l] eqn:Hrev; [by right; left |].
  right; right.
  assert (Hc : c ∈ filter (λ c, c ≠ "") (strings.SplitSlash path)).
  { apply elem_of_reverse. rewrite Hrev. by left. }
  apply list_elem_of_filter in Hc as [Hne Hc]. split; [| done].
  pose proof (SplitSlash_elements path) as Hall.
  by apply (proj1 (Forall_forall _ _) Hall).
Qed.

Lemma Clean_element e : slash_free e = true → e ≠ "" → filepath.Clean e = e.
Proof.
  intros Hfree Hne. unfold filepath.Clean.
  rewrite slash_free_not_rooted, SplitSlash_slash_free by done. cbn [fold_left].
  destruct (element_cases e Hfree) as [-> | [-> | [-> | Hname]]]; [done | done | done |].
  by rewrite is_name_clean_step.
Qed.

Lemma Clean_Base path : filepath.Clean (filepath.Base path) = filepath.Base path.
Proof.
  destruct (Base_cases path) as [-> | [-> | [Hfree Hne]]]; [done | done |].
  by apply Clean_element.
Qed.

(** An identifier that passes the check of the handlers is a name, or
    consists of slashes only. *)
Lemma valid_upload_id path :
  let cleanUploadID := filepath.Clean (filepath.Base path) in
  String.eqb cleanUploadID "." || String.eqb cleanUploadID ".." = false →
  cleanUploadID = "/" ∨ is_name cleanUploadID.
Proof.
  cbn zeta. rewrite Clean_Base. intros [H1 H2]%orb_false_iff.
  apply String.eqb_neq in H1, H2.
  destruct (Base_cases path) as [? | [? | [Hfree Hne]]]; [done | by left |].
  by right.
Qed.

(** The scratch directory of an upload whose identifier is a name: a
    directory of that name, wherever the scratch root is. *)
Lemma chunkDir_resolve fs tmp n :
  is_name n → ∃ q, os.resolve fs (filepath.Join [tmp; n]) = Some (q ++ [n]).
Proof.
  intros Hn. destruct (decide (tmp = "")) as [-> | Htmp].
  - exists (os.cwd fs). destruct Hn as (Hfree & Hne & Hn).
    cbn [filepath.Join String.eqb]. rewrite (proj2 (String.eqb_neq _ _) Hne).
    unfold strings.Join. cbn [String.concat]. rewrite Clean_element by done.
    rewrite resolve_nonempty, slash_free_not_rooted, SplitSlash_slash_free by done.
    cbn [fold_left]. rewrite is_name_walk by done.
    by rewrite reverse_cons, reverse_involutive.
  - eexists. erewrite resolve_Join by by apply resolve_nonempty.
    by rewrite descend_name.
Qed.

(* ===================================================================== *)
(** ** The chunk handler *)

Lemma resolve_cwd fs fs' path :
  os.cwd fs = os.cwd fs' → os.resolve fs path = os.resolve fs' path.
Proof. unfold os.resolve. by intros ->. Qed.

Lemma MkdirAll_cwd path fs fs' : os.MkdirAll path fs = Some fs' → os.cwd fs' = os.cwd fs.
Proof.
  unfold os.MkdirAll. destruct (os.resolve fs path); [| done].
  destruct (os.mkdirs _ _ _); [| done]. by intros [= <-].
Qed.

Lemma Create_target name fs fs' dst :
  os.Create name fs = Some (fs', dst) →
  os.resolve fs name = Some dst ∧
  fs' = os.mkFS (<[dst := os.File []]> (os.files fs)) (os.cwd fs).
Proof.
  unfold os.Create. destruct (os.resolve fs name) as [p|]; [| done].
  destruct p as [|e p]; [done |].
  destruct (os.stat (os.files fs) (removelast (e :: p))) as [[]|]; try done.
  destruct (os.stat (os.files fs) (e :: p)) as [[]|]; try done; by intros [= <- <-].
Qed.

(** What handleUploadChunk does with a POST request that carries a file
    and an identifier that passes the check. *)
Lemma handleUploadChunk_run cfg file uploadID index w :
  let cleanUploadID := filepath.Clean (filepath.Base uploadID) in
  let chunkDir := filepath.Join [UploadTempDir cfg; cleanUploadID] in
  let chunkPath := filepath.Join [chunkDir; index] in
  String.eqb cleanUploadID "." || String.eqb cleanUploadID ".." = false →
  handleUploadChunk cfg
    (mkChunkRequest MethodPost (Some (mkMultipartForm (Some file) uploadID index))) w
  = match os.MkdirAll chunkDir (fs w) with
    | None =>
        (http_Error "Server error creating chunk directory." StatusInternalServerError,
         mkWorld (fs w) (uploadSessions w) (now w) (trace w ++ [EvMkdirAll chunkDir]))
    | Some f1 =>
        match os.Create chunkPath f1 with
        | None =>
            (http_Error "Server error creating chunk file." StatusInternalServerError,
             mkWorld f1 (uploadSessions w) (now w)
               ((trace w ++ [EvMkdirAll chunkDir]) ++ [EvCreate chunkPath]))
        | Some (f2, dst) =>
            (mkResponse StatusOK (PlainText "Chunk uploaded successfully"),
             mkWorld (os.mkFS (<[dst := os.File file]> (os.files f2)) (os.cwd f2))
               (uploadSessions w) (now w)
               (((trace w ++ [EvMkdirAll chunkDir]) ++ [EvCreate chunkPath])
                  ++ [EvCopy chunkPath file]))
        end
    end.
Proof.
  intros cleanUploadID chunkDir chunkPath Hvalid.
  unfold handleUploadChunk. cbn [ch_Method Form dataFile uploadId chunkIndex].
  change (negb (String.eqb MethodPost MethodPost)) with false. cbv iota.
  fold cleanUploadID. rewrite Hvalid. fold chunkDir. fold chunkPath.
  unfold bind, os_MkdirAll, os_Create, io_Copy, bind, emit, get_fs, put_fs, ret.
  cbn [fs trace uploadSessions now fst snd].
  destruct (os.MkdirAll chunkDir (fs w)) as [f1|]; [| reflexivity].
  cbn [negb fs trace uploadSessions now].
  destruct (os.Create chunkPath f1) as [[f2 dst]|]; reflexivity.
Qed.

(** C2, as amended: an upload identifier that resolves to "." or ".." after
    normalization (base component, then path cleaning) is rejected with
    400 by the chunk handler and by the finalize handler, and the state is
    untouched: no file system call has been made. *)
Theorem invalid_upload_id_rejected
    (env : Env) (cfg : Config) (w : World) (uploadID chunkIndex : string)
    (file : bytes) (fileName email phone dataOrigin sessionID : string)
    (totalFiles : Z) :
  filepath.Clean (filepath.Base uploadID) = "."
  ∨ filepath.Clean (filepath.Base uploadID) = ".." →
  handleUploadChunk cfg
    (mkChunkRequest MethodPost (Some (mkMultipartForm (Some file) uploadID chunkIndex))) w
  = (http_Error "Invalid upload ID." StatusBadRequest, w)
  ∧ handleUploadComplete env cfg
      (mkJSONRequest MethodPost
         (Some (mkCompleteRequest uploadID fileName email phone dataOrigin
                  sessionID totalFiles))) w
    = (http_Error "Invalid upload ID." StatusBadRequest, w).
Proof.
  intros Hid.
  assert (Hcheck : String.eqb (filepath.Clean (filepath.Base uploadID)) "."
                   || String.eqb (filepath.Clean (filepath.Base uploadID)) ".." = true).
  { destruct Hid as [-> | ->]; reflexivity. }
  split.
  - unfold handleUploadChunk. cbn [ch_Method Form dataFile uploadId].
    change (negb (String.eqb MethodPost MethodPost)) with false. cbv iota zeta.
    by rewrite Hcheck.
  - unfold handleUploadComplete. cbn [Method Decoded UploadID].
    change (negb (String.eqb MethodPost MethodPost)) with false. cbv iota zeta.
    by rewrite Hcheck.
Qed.

Lemma invalid_upload_id_rejected_witness :
  handleUploadChunk defaultConfig
    (mkChunkRequest MethodPost
       (Some (mkMultipartForm (Some [Byte.x41]) "uploads/.." "0"))) emptyWorld
  = (http_Error "Invalid upload ID." StatusBadRequest, emptyWorld)
  ∧ handleUploadComplete plainEnv defaultConfig
      (mkJSONRequest MethodPost
         (Some (mkCompleteRequest "uploads/.." "f.bin" "a@b.c" "" "" "" 0))) emptyWorld
    = (http_Error "Invalid upload ID." StatusBadRequest, emptyWorld).
Proof. apply invalid_upload_id_rejected. right. reflexivity. Defined.

(** C2, the claim as written fails: an identifier that contains "../" and
    an absolute path are not rejected; they are cut down to their last
    element and the chunk is stored under it. *)
Lemma traversal_and_absolute_ids_accepted :
  let post id := handleUploadChunk defaultConfig
                   (mkChunkRequest MethodPost
                      (Some (mkMultipartForm (Some [Byte.x41]) id "0"))) emptyWorld in
  StatusCode (fst (post "../foo")) = 200
  ∧ trace (snd (post "../foo"))
    = [EvMkdirAll "/tmp/nextcloud-public-uploader/foo";
       EvCreate "/tmp/nextcloud-public-uploader/foo/0";
       EvCopy "/tmp/nextcloud-public-uploader/foo/0" [Byte.x41]]
  ∧ StatusCode (fst (post "/etc/passwd")) = 200
  ∧ trace (snd (post "/etc/passwd"))
    = [EvMkdirAll "/tmp/nextcloud-public-uploader/passwd";
       EvCreate "/tmp/nextcloud-public-uploader/passwd/0";
       EvCopy "/tmp/nextcloud-public-uploader/passwd/0" [Byte.x41]].
Proof. vm_compute. repeat split. Qed.

Lemma prefix_snoc_ne {A} (q : list A) (a b : A) : a ≠ b → ¬ (q ++ [a]) `prefix_of` (q ++ [b]).
Proof.
  intros Hab [k Hk]. rewrite <- app_assoc in Hk.
  apply app_inv_head in Hk. by destruct k; simplify_eq/=.
Qed.

(** C10: handleUploadChunk joins the chunkIndex field to the scratch
    directory of the upload as it comes, for every request whose
    identifier passes the check, and creates the file at the joined path;
    and with a chunkIndex that starts with "../" that path is outside the
    scratch directory of the upload (here: a sibling of it), where a
    successful request then leaves the uploaded bytes. *)
Theorem chunk_index_escapes_scratch_directory
    (cfg : Config) (w : World) (uploadID chunkIndex x : string) (file : bytes) :
  let cleanUploadID := filepath.Clean (filepath.Base uploadID) in
  let chunkDir := filepath.Join [UploadTempDir cfg; cleanUploadID] in
  let post index :=
    handleUploadChunk cfg
      (mkChunkRequest MethodPost (Some (mkMultipartForm (Some file) uploadID index))) w in
  is_name cleanUploadID → is_name x → x ≠ cleanUploadID →
  (os.MkdirAll chunkDir (fs w) ≠ None →
   (trace w ++ [EvMkdirAll chunkDir; EvCreate (filepath.Join [chunkDir; chunkIndex])])
     `prefix_of` trace (snd (post chunkIndex)))
  ∧ ∃ dir path,
      os.resolve (fs w) chunkDir = Some dir
      ∧ os.resolve (fs w) (filepath.Join [chunkDir; "../" +:+ x]) = Some path
      ∧ ¬ dir `prefix_of` path
      ∧ (StatusCode (fst (post ("../" +:+ x))) = StatusOK →
         os.files (fs (snd (post ("../" +:+ x)))) !! path = Some (os.File file)).
Proof.
  intros cleanUploadID chunkDir post Hid Hx Hne.
  assert (Hvalid : String.eqb cleanUploadID "." || String.eqb cleanUploadID ".." = false).
  { destruct Hid as (_ & _ & H1 & H2).
    by rewrite (proj2 (String.eqb_neq _ _) H1), (proj2 (String.eqb_neq _ _) H2). }
  split.
  - intros Hmk. unfold post. rewrite handleUploadChunk_run by done.
    fold cleanUploadID. fold chunkDir.
    destruct (os.MkdirAll chunkDir (fs w)) as [f1|]; [| done].
    destruct (os.Create _ f1) as [[f2 dst]|]; cbn [snd trace].
    + rewrite <- !app_assoc. apply prefix_app, prefix_cons, prefix_cons, prefix_nil.
    + rewrite <- !app_assoc. apply prefix_app. done.
  - destruct (chunkDir_resolve (fs w) (UploadTempDir cfg) cleanUploadID Hid) as [q Hq].
    fold chunkDir in Hq.
    exists (q ++ [cleanUploadID]), (q ++ [x]). split; [done |].
    assert (Hpath : os.resolve (fs w) (filepath.Join [chunkDir; "../" +:+ x]) = Some (q ++ [x])).
    { erewrite resolve_Join by done. by rewrite descend_parent_name. }
    split; [done |]. split; [by apply prefix_snoc_ne |].
    unfold post. rewrite handleUploadChunk_run by done.
    fold cleanUploadID. fold chunkDir.
    destruct (os.MkdirAll chunkDir (fs w)) as [f1|] eqn:Hmk; [| done].
    destruct (os.Create _ f1) as [[f2 dst]|] eqn:Hcr; [| done].
    intros _. cbn [snd fs os.files].
    apply Create_target in Hcr as [Hdst _].
    rewrite (resolve_cwd f1 (fs w)) in Hdst by by eapply MkdirAll_cwd.
    rewrite Hpath in Hdst. injection Hdst as <-. apply lookup_insert_eq.
Qed.

Lemma chunk_index_escapes_scratch_directory_witness :
  let post index :=
    handleUploadChunk defaultConfig
      (mkChunkRequest MethodPost (Some (mkMultipartForm (Some [Byte.x45]) "u1" index)))
      emptyWorld in
  StatusCode (fst (post "../evil")) = StatusOK
  ∧ os.files (fs (snd (post "../evil"))) !! ["tmp"; "nextcloud-public-uploader"; "evil"]
    = Some (os.File [Byte.x45])
  ∧ os.resolve (fs emptyWorld) "/tmp/nextcloud-public-uploader/u1"
    = Some ["tmp"; "nextcloud-public-uploader"; "u1"].
Proof.
  pose proof (chunk_index_escapes_scratch_directory defaultConfig emptyWorld
                "u1" "0" "evil" [Byte.x45]) as H.
  cbv zeta in H.
  destruct H as [_ (dir & path & Hdir & Hpath & _ & Hfile)].
  - repeat split; done.
  - repeat split; done.
  - vm_compute. discriminate.
  - assert (Hok : StatusCode (fst (handleUploadChunk defaultConfig
                (mkChunkRequest MethodPost
                   (Some (mkMultipartForm (Some [Byte.x45]) "u1" ("../" +:+ "evil"))))
                emptyWorld)) = StatusOK) by (vm_compute; reflexivity).
    specialize (Hfile Hok).
    assert (path = ["tmp"; "nextcloud-public-uploader"; "evil"]) as ->.
    { vm_compute in Hpath. congruence. }
    split; [exact Hok |]. split; [exact Hfile |]. vm_compute. reflexivity.
Defined.

(* ===================================================================== *)
(** ** What the finalize handler leaves alone *)

Lemma grown_refl P w : grown P w w.
Proof. split; [done |]. exists []. by rewrite app_nil_r. Qed.

Lemma grown_weaken (P P' : Event → Prop) w0 w :
  (∀ e, P e → P' e) → grown P w0 w → grown P' w0 w.
Proof.
  intros HP (Hfs & evs & Htr & Hevs). split; [done |]. exists evs. split; [done |].
  by eapply Forall_impl.
Qed.

Section Grown.

Variable P : Event → Prop.
Variable w0 : World.

Lemma grown_emit e : P e → stable (grown P w0) (emit e).
Proof.
  intros He w (Hfs & evs & Htr & Hevs). split; [done |].
  exists (evs ++ [e]). cbn. rewrite Htr, app_assoc. split; [done |].
  apply Forall_app. split; [done |]. by constructor.
Qed.

Lemma grown_get_fs : stable (grown P w0) get_fs.
Proof. by intros w. Qed.

Lemma grown_time_Now : stable (grown P w0) time_Now.
Proof. by intros w. Qed.

Lemma grown_get_uploadSessions : stable (grown P w0) get_uploadSessions.
Proof. by intros w. Qed.

Lemma grown_set_uploadSessions m : stable (grown P w0) (set_uploadSessions m).
Proof. by intros w. Qed.

Local Hint Resolve grown_get_fs grown_time_Now grown_get_uploadSessions
  grown_set_uploadSessions : stable.
Local Hint Extern 1 (stable (grown _ _) (emit _)) =>
  apply grown_emit; by intros : stable.

Lemma grown_http_Do env method url body :
  (∀ b st, P (EvHTTP method url b st)) →
  stable (grown P w0) (http_Do env method url body).
Proof.
  intros HP. unfold http_Do. destruct (negb _); [apply stable_ret |].
  destruct body as [r|]; [destruct (io.ReadAll r) |].
  - intros w Hw. by apply (grown_emit _ (HP _ _)).
  - stable_walk.
  - intros w Hw. by apply (grown_emit _ (HP _ _)).
Qed.

Local Hint Extern 1 (stable (grown _ _) (http_Do _ _ _ _)) =>
  apply grown_http_Do; by intros : stable.

Lemma grown_os_ReadDir path : P (EvReadDir path) → stable (grown P w0) (os_ReadDir path).
Proof. intros HP. unfold os_ReadDir. stable_walk. Qed.

Lemma grown_os_Open path : P (EvOpen path) → stable (grown P w0) (os_Open path).
Proof. intros HP. unfold os_Open. stable_walk. Qed.

Local Hint Extern 1 (stable (grown _ _) (os_ReadDir _)) =>
  apply grown_os_ReadDir; by intros : stable.
Local Hint Extern 1 (stable (grown _ _) (os_Open _)) =>
  apply grown_os_Open; by intros : stable.

Lemma grown_checkAndUpdateSession id folderName email phone dataOrigin :
  stable (grown P w0) (checkAndUpdateSession id folderName email phone dataOrigin).
Proof. unfold checkAndUpdateSession. stable_walk. Qed.

Local Hint Resolve grown_checkAndUpdateSession : stable.

Hypothesis P_fs : ∀ e, ¬ is_http e → P e.

Lemma grown_openChunks chunkDir chunkFiles readers :
  stable (grown P w0) (openChunks chunkDir chunkFiles readers).
Proof.
  revert readers. induction chunkFiles as [|chunkFile rest IH]; intros readers; cbn.
  - apply stable_ret.
  - stable_walk. apply grown_os_Open, P_fs. by intros [].
Qed.

Lemma grown_assembleChunks env chunkDir : stable (grown P w0) (assembleChunks env chunkDir).
Proof.
  unfold assembleChunks. stable_walk.
  - apply grown_os_ReadDir, P_fs. by intros [].
  - apply grown_openChunks.
Qed.

Lemma grown_createNextcloudFolder env cfg folderName :
  (∀ url b st, P (EvHTTP "MKCOL" url b st)) →
  stable (grown P w0) (createNextcloudFolder env cfg folderName).
Proof.
  intros HP. unfold createNextcloudFolder. stable_walk; by apply grown_http_Do.
Qed.

Lemma grown_uploadToNextcloudFolder env cfg folderName filename data :
  (∀ url b st, P (EvHTTP MethodPut url b st)) →
  stable (grown P w0) (uploadToNextcloudFolder env cfg folderName filename data).
Proof.
  intros HP. unfold uploadToNextcloudFolder. stable_walk; by apply grown_http_Do.
Qed.

End Grown.

Lemma grown_checkDescriptionFileExists w0 env cfg folderName :
  stable (grown (λ _, True) w0) (checkDescriptionFileExists env cfg folderName).
Proof.
  unfold checkDescriptionFileExists. stable_walk. by apply grown_http_Do.
Qed.

Lemma grown_uploadDescription w0 env cfg reqData folderName should :
  stable (grown (λ _, True) w0) (uploadDescription env cfg reqData folderName should).
Proof.
  unfold uploadDescription. stable_walk;
    auto using grown_checkDescriptionFileExists, grown_time_Now,
      grown_uploadToNextcloudFolder.
Qed.

(** Everything between the [defer] statement and the return of
    handleUploadComplete leaves the file system as it is. *)
Lemma grown_completeUpload w0 env cfg reqData chunkDir :
  stable (grown (λ _, True) w0) (completeUpload env cfg reqData chunkDir).
Proof.
  unfold completeUpload. stable_walk;
    auto using grown_assembleChunks, grown_time_Now, grown_createNextcloudFolder,
      grown_uploadToNextcloudFolder, grown_checkAndUpdateSession,
      grown_uploadDescription.
Qed.

(* ===================================================================== *)
(** ** The scratch directory after finalize *)

Lemma RemoveAll_gone fs path dir :
  os.endsWithDot path = false → os.resolve fs path = Some dir →
  ∀ q, dir `prefix_of` q → os.files (os.RemoveAll path fs) !! q = None.
Proof.
  intros Hdot Hdir q Hq. unfold os.RemoveAll.
  destruct (String.eqb_spec path "") as [-> | _]; [done |].
  rewrite Hdot, Hdir. cbn [os.files].
  apply map_lookup_filter_None. right. intros x _ Hkeep. by apply Hkeep.
Qed.

Lemma list_ascii_of_append a b :
  list_ascii_of_string (a +:+ b) = list_ascii_of_string a ++ list_ascii_of_string b.
Proof. induction a as [|c a IH]; [done |]. rewrite append_cons. cbn. by rewrite IH. Qed.

Lemma slash_free_chars n c :
  slash_free n = true → c ∈ list_ascii_of_string n → c ≠ "/"%char.
Proof.
  induction n as [|c' n IH]; cbn; [by intros _ ?%elem_of_nil |].
  intros [Hc Hn]%andb_true_iff [-> | Hin]%elem_of_cons; [| by apply IH].
  intros ->. by rewrite Ascii.eqb_refl in Hc.
Qed.

(** A path whose last element is a name does not end in ".". *)
Lemma endsWithDot_name pre n : is_name n → os.endsWithDot (pre +:+ n) = false.
Proof.
  intros (Hfree & Hne & Hdot & _). unfold os.endsWithDot.
  rewrite list_ascii_of_append, reverse_app.
  destruct (reverse (list_ascii_of_string n)) as [|c rest] eqn:Hrev.
  { apply (f_equal reverse) in Hrev. rewrite reverse_involutive in Hrev.
    by destruct n. }
  assert (Hchars : list_ascii_of_string n = reverse (c :: rest)).
  { by rewrite <- Hrev, reverse_involutive. }
  destruct rest as [|c2 rest].
  - destruct (decide (c = "."%char)) as [-> | Hc].
    + exfalso. apply Hdot. rewrite <- (string_of_list_ascii_of_string n), Hchars.
      reflexivity.
    + cbn. destruct (reverse (list_ascii_of_string pre)) as [|c3 l];
        destruct c as [[] [] [] [] [] [] [] []]; try reflexivity; by destruct Hc.
  - assert (c2 ≠ "/"%char).
    { apply (slash_free_chars n); [done |]. rewrite Hchars.
      apply elem_of_reverse. right. by left. }
    cbn. destruct c as [[] [] [] [] [] [] [] []]; try reflexivity.
    destruct c2 as [[] [] [] [] [] [] [] []]; try reflexivity. done.
Qed.

Lemma concat_snoc sep l n : ∃ pre, String.concat sep (l ++ [n]) = pre +:+ n.
Proof.
  induction l as [|a l [pre IH]].
  - by exists "".
  - destruct (l ++ [n]) as [|b l'] eqn:Hl; [by destruct l |].
    exists (a +:+ sep +:+ pre). cbn [app]. rewrite Hl, concat_cons2, IH.
    by rewrite !append_assoc.
Qed.

(** A clean path ends with the name that the path ends with. *)
Lemma Clean_ends_with_name elems n :
  is_name n → ∀ path, strings.SplitSlash path = elems ++ [n] →
  ∃ pre, filepath.Clean path = pre +:+ n.
Proof.
  intros Hn path Hsplit. unfold filepath.Clean. rewrite Hsplit, fold_left_app.
  cbn [fold_left]. rewrite is_name_clean_step by done.
  unfold filepath.render, strings.Join. rewrite reverse_cons.
  destruct (concat_snoc "/" (reverse (fold_left
              (filepath.clean_step (filepath.rooted path)) elems [])) n) as [pre ->].
  destruct (filepath.rooted path).
  - exists ("/" +:+ pre). by rewrite append_assoc.
  - by exists pre.
Qed.

(** The scratch directory of an upload whose identifier has a name of its
    own (it does not consist of slashes only) is one that RemoveAll
    removes, wherever the scratch root is. *)
Lemma named_upload_removable f tmp n :
  is_name n →
  os.endsWithDot (filepath.Join [tmp; n]) = false
  ∧ os.resolve f (filepath.Join [tmp; n]) ≠ Some [].
Proof.
  intros Hn. split.
  - assert (∃ pre, filepath.Join [tmp; n] = pre +:+ n) as [pre ->];
      [| by apply endsWithDot_name].
    destruct (decide (tmp = "")) as [-> | Htmp].
    + cbn [filepath.Join String.eqb]. destruct Hn as (Hfree & Hne & Hn).
      rewrite (proj2 (String.eqb_neq _ _) Hne). unfold strings.Join.
      cbn [String.concat]. rewrite Clean_element by done. by exists "".
    + rewrite Join_two by done.
      apply (Clean_ends_with_name (strings.SplitSlash tmp)); [done |].
      rewrite SplitSlash_app. f_equal. apply SplitSlash_slash_free, Hn.
  - destruct (chunkDir_resolve f tmp n Hn) as [q ->]. by destruct q.
Qed.

(** handleUploadComplete on a POST request with a decoded body and an
    identifier that passes the check: the part after the [defer] statement
    runs, then the deferred call. *)
Lemma handleUploadComplete_run env cfg reqData w :
  let cleanUploadID := filepath.Clean (filepath.Base (UploadID reqData)) in
  let chunkDir := filepath.Join [UploadTempDir cfg; cleanUploadID] in
  String.eqb cleanUploadID "." || String.eqb cleanUploadID ".." = false →
  handleUploadComplete env cfg (mkJSONRequest MethodPost (Some reqData)) w
  = let '(resp, w1) := completeUpload env cfg reqData chunkDir w in
    (resp, mkWorld (os.RemoveAll chunkDir (fs w1)) (uploadSessions w1) (now w1)
             (trace w1 ++ [EvRemoveAll chunkDir])).
Proof.
  intros cleanUploadID chunkDir Hvalid. unfold handleUploadComplete.
  cbn [Method Decoded]. change (negb (String.eqb MethodPost MethodPost)) with false.
  cbv iota. fold cleanUploadID. rewrite Hvalid. fold chunkDir.
  unfold bind at 1. destruct (completeUpload env cfg reqData chunkDir w) as [resp w1].
  reflexivity.
Qed.



(* ===================================================================== *)
(** ** The description file *)

Lemma stable_run {A} (I : World → Prop) (c : M A) w a w' :
  stable I c → I w → c w = (a, w') → I w'.
Proof. intros Hc Hw Hrun. specialize (Hc w Hw). by rewrite Hrun in Hc. Qed.

Lemma grown_trans P w0 w1 w2 : grown P w0 w1 → grown P w1 w2 → grown P w0 w2.
Proof.
  intros (Hfs1 & evs1 & Htr1 & H1) (Hfs2 & evs2 & Htr2 & H2).
  split; [congruence |]. exists (evs1 ++ evs2).
  rewrite Htr2, Htr1, app_assoc. split; [done |]. by apply Forall_app.
Qed.

(** The description step: what it adds to the trace. *)
Lemma uploadDescription_events env cfg reqData folderName should w :
  ∃ evs, trace (snd (uploadDescription env cfg reqData folderName should w))
         = trace w ++ evs ∧ note_events evs.
Proof.
  unfold uploadDescription. destruct should; cycle 1.
  { exists []. rewrite app_nil_r. split; [done |]. by left. }
  assert (Hput : ∀ w1 t,
    grown not_probe w1
      (snd ((sent <- uploadToNextcloudFolder env cfg folderName "descripcion.txt"
                       (io.StringReader
                          (createDescriptionContent env t (FileName reqData)
                             (cr_Email reqData) (cr_Phone reqData)
                             (cr_DataOrigin reqData))) ;;
             if negb sent
             then ret (Some (jsonError "Failed to upload description file."
                               StatusInternalServerError))
             else ret None) w1))).
  { intros w1 t. apply (stable_bind (grown not_probe w1)); [| | apply grown_refl].
    - apply grown_uploadToNextcloudFolder; by intros.
    - intros sent. destruct (negb sent); apply stable_ret. }
  unfold checkDescriptionFileExists, http_Do.
  destruct (negb (NewRequest_ok env "HEAD" _)) eqn:Hreq.
  - (* the probe request could not be built: not found *)
    unfold bind at 1 2. unfold ret at 1 2. unfold bind at 1. unfold time_Now at 1.
    destruct (Hput w (now w)) as (_ & evs & Htr & Hevs).
    exists evs. split; [done |]. by left.
  - unfold bind at 1 2. cbn [fst snd].
    set (url := webdavFolderURL env cfg folderName +:+ "/descripcion.txt").
    set (st := RoundTrip env (trace w) "HEAD" url None).
    set (w1 := snd (emit (EvHTTP "HEAD" url None st) w)).
    destruct st as [status|] eqn:Hst; unfold ret at 1.
    + destruct (Z.eqb_spec status StatusOK) as [-> | Hne].
      * exists [EvHTTP "HEAD" url None (Some StatusOK)]. split; [done |].
        right. by exists url, (Some StatusOK), [].
      * unfold bind at 1. unfold time_Now at 1.
        destruct (Hput w1 (now w1)) as (_ & evs & Htr & Hevs).
        exists (EvHTTP "HEAD" url None (Some status) :: evs). split.
        { rewrite Htr. unfold w1. cbn. by rewrite <- app_assoc. }
        right. exists url, (Some status), evs. repeat split; [done |].
        intros [= ?]. done.
    + unfold bind at 1. unfold time_Now at 1.
      destruct (Hput w1 (now w1)) as (_ & evs & Htr & Hevs).
      exists (EvHTTP "HEAD" url None None :: evs). split.
      { rewrite Htr. unfold w1. cbn. by rewrite <- app_assoc. }
      right. exists url, None, evs. repeat split; done.
Qed.

(** The part of handleUploadComplete after the [defer] statement: events
    that are not probes, then the events of the description step. *)
Lemma completeUpload_events env cfg reqData chunkDir w :
  ∃ evs1 evs2,
    trace (snd (completeUpload env cfg reqData chunkDir w)) = trace w ++ evs1 ++ evs2
    ∧ Forall not_probe evs1 ∧ note_events evs2.
Proof.
  assert (Hearly : ∀ w1, grown not_probe w w1 →
            ∃ evs1 evs2, trace w1 = trace w ++ evs1 ++ evs2
                         ∧ Forall not_probe evs1 ∧ note_events evs2).
  { intros w1 (_ & evs & Htr & Hevs). exists evs, [].
    rewrite app_nil_r. repeat split; [done.. |]. by left. }
  assert (Hid : ∀ e, ¬ is_http e → not_probe e) by (by intros []).
  assert (Hmkcol : ∀ url b st, not_probe (EvHTTP "MKCOL" url b st)) by done.
  assert (Hput : ∀ url b st, not_probe (EvHTTP MethodPut url b st)) by done.
  unfold completeUpload. unfold bind at 1.
  destruct (assembleChunks env chunkDir w) as [assembled w1] eqn:Hrun1.
  pose proof (stable_run _ _ _ _ _ (grown_assembleChunks not_probe w Hid env chunkDir)
                (grown_refl _ w) Hrun1) as Hw1.
  destruct assembled as [resp | originalFileReader]; [by apply Hearly |].
  unfold bind at 1. unfold time_Now at 1. unfold bind at 1.
  destruct (createNextcloudFolder env cfg _ w1) as [created w2] eqn:Hrun2.
  pose proof (stable_run _ _ _ _ _ (grown_createNextcloudFolder not_probe w env cfg _ Hmkcol)
                Hw1 Hrun2) as Hw2.
  destruct created; cbn [negb]; [| by apply Hearly].
  unfold bind at 1.
  destruct (uploadToNextcloudFolder env cfg _ _ _ w2) as [sent w3] eqn:Hrun3.
  pose proof (stable_run _ _ _ _ _
                (grown_uploadToNextcloudFolder not_probe w env cfg _ _ _ Hput)
                Hw2 Hrun3) as Hw3.
  destruct sent; cbn [negb]; [| by apply Hearly].
  unfold bind at 1.
  destruct ((if negb (String.eqb (SessionID reqData) "")
             then checkAndUpdateSession (SessionID reqData) _ (cr_Email reqData)
                    (cr_Phone reqData) (cr_DataOrigin reqData)
             else ret true) w3) as [should w4] eqn:Hrun4.
  assert (Hw4 : grown not_probe w w4).
  { destruct (negb _).
    - by eapply stable_run; [apply grown_checkAndUpdateSession | | done].
    - by injection Hrun4 as <- <-. }
  unfold bind at 1.
  destruct (uploadDescription_events env cfg reqData
              (createFolderName (now w1) (cr_Email reqData) (cr_Phone reqData))
              should w4) as (evs2 & Htr2 & Hnote).
  destruct (uploadDescription env cfg reqData _ should w4) as [failed w5].
  cbn [snd] in Htr2.
  destruct Hw4 as (_ & evs1 & Htr1 & Hevs1).
  exists evs1, evs2. split; [| done].
  destruct failed; cbn; by rewrite Htr2, Htr1, app_assoc.
Qed.

Lemma not_probe_split evs1 tl pre url st post :
  Forall not_probe evs1 →
  evs1 ++ tl = pre ++ EvHTTP "HEAD" url None st :: post →
  ∃ pre', pre = evs1 ++ pre' ∧ tl = pre' ++ EvHTTP "HEAD" url None st :: post.
Proof.
  revert pre. induction evs1 as [|e evs1 IH]; intros pre Hall Heq.
  - by exists pre.
  - inversion_clear Hall as [|?? He Hrest]. destruct pre as [|e' pre].
    + cbn in Heq. injection Heq as -> _. by cbn in He.
    + cbn in Heq. injection Heq as <- Heq.
      destruct (IH pre Hrest Heq) as (pre' & -> & ->). by exists pre'.
Qed.

Lemma not_probe_no_split evs pre url st post :
  Forall not_probe evs → evs ≠ pre ++ EvHTTP "HEAD" url None st :: post.
Proof.
  intros Hall Heq. rewrite Heq in Hall.
  apply Forall_app in Hall as [_ Hall]. inversion_clear Hall as [|?? He _]. by cbn in He.
Qed.

(** The description step when the probe finds the file: nothing is done
    after the probe, and the step does not fail. *)
Lemma uploadDescription_found env cfg reqData folderName w :
  fst (checkDescriptionFileExists env cfg folderName w) = true →
  uploadDescription env cfg reqData folderName true w
  = (None, snd (checkDescriptionFileExists env cfg folderName w)).
Proof.
  unfold uploadDescription, bind.
  destruct (checkDescriptionFileExists env cfg folderName w) as [found w1].
  cbn [fst snd]. by intros ->.
Qed.

(** C8: during a finalize call, whenever the existence probe for the
    description file is answered with 200 OK, no request is sent after it,
    so the description file is not uploaded; conversely, a request after the
    probe, and the upload of the description file is the only one there can
    be, means that the probe was not answered with 200 OK. *)
Theorem description_not_uploaded_when_probe_finds_it
    (env : Env) (cfg : Config) (r : JSONRequest CompleteRequest) (w : World)
    (pre post : list Event) (url : string) (st : option Z) :
  trace (snd (handleUploadComplete env cfg r w))
  = trace w ++ pre ++ EvHTTP "HEAD" url None st :: post →
  (st = Some StatusOK → Forall (λ e, ¬ is_http e) post)
  ∧ (Exists is_http post → st ≠ Some StatusOK).
Proof.
  intros Htrace.
  assert (Hfound : st = Some StatusOK → Forall (λ e, ¬ is_http e) post); cycle 1.
  { split; [done |]. intros Hex Hst. apply Exists_exists in Hex as (e & He & Hhttp).
    by apply (proj1 (Forall_forall _ _) (Hfound Hst) e). }
  intros ->. revert Htrace. unfold handleUploadComplete.
  destruct (negb _).
  { cbn. rewrite <- (app_nil_r (trace w)) at 1. intros Heq%app_inv_head.
    by destruct pre. }
  destruct (Decoded r) as [reqData|]; cycle 1.
  { cbn. rewrite <- (app_nil_r (trace w)) at 1. intros Heq%app_inv_head.
    by destruct pre. }
  cbv zeta. destruct (_ || _).
  { cbn. rewrite <- (app_nil_r (trace w)) at 1. intros Heq%app_inv_head.
    by destruct pre. }
  set (chunkDir := filepath.Join _).
  unfold bind at 1.
  destruct (completeUpload_events env cfg reqData chunkDir w)
    as (evs1 & evs2 & Htr & Hevs1 & Hnote).
  destruct (completeUpload env cfg reqData chunkDir w) as [resp w1].
  cbn [snd] in Htr. cbn. rewrite Htr, <- !app_assoc.
  intros Heq%app_inv_head.
  apply (not_probe_split evs1) in Heq as (pre' & -> & Heq); [| done].
  destruct Hnote as [Hnone | (url' & st' & rest & -> & Hrest & Hstop)].
  - exfalso. eapply (not_probe_no_split (evs2 ++ [EvRemoveAll chunkDir])); [| done].
    apply Forall_app. split; [done |]. by constructor.
  - destruct pre' as [|e pre'].
    + cbn in Heq. injection Heq as Hurl Hst Hpost. subst url' st' post.
      rewrite (Hstop eq_refl). constructor; [| done]. by intros [].
    + cbn in Heq. injection Heq as _ Heq. exfalso.
      eapply (not_probe_no_split (rest ++ [EvRemoveAll chunkDir])); [| done].
      apply Forall_app. split; [done |]. by constructor.
Qed.

Lemma description_not_uploaded_when_probe_finds_it_witness :
  let w := snd (handleUploadChunk defaultConfig
                  (mkChunkRequest MethodPost
                     (Some (mkMultipartForm (Some [Byte.x41]) "u1" "0"))) emptyWorld) in
  let r := mkJSONRequest MethodPost
             (Some (mkCompleteRequest "u1" "f.bin" "a@b.c" "" "" "" 0)) in
  trace (snd (handleUploadComplete describedEnv defaultConfig r w))
  = trace w
    ++ [EvReadDir "/tmp/nextcloud-public-uploader/u1";
        EvOpen "/tmp/nextcloud-public-uploader/u1/0";
        EvHTTP "MKCOL"
          "https://cloud.example/remote.php/dav/files/user/uploads/0-a_at_b_c"
          None (Some 201);
        EvHTTP "PUT"
          "https://cloud.example/remote.php/dav/files/user/uploads/0-a_at_b_c/f.bin"
          (Some [Byte.x41]) (Some 201)]
    ++ EvHTTP "HEAD"
         "https://cloud.example/remote.php/dav/files/user/uploads/0-a_at_b_c/descripcion.txt"
         None (Some 200)
       :: [EvRemoveAll "/tmp/nextcloud-public-uploader/u1"]
  ∧ (Some 200 = Some StatusOK →
     Forall (λ e, ¬ is_http e) [EvRemoveAll "/tmp/nextcloud-public-uploader/u1"])
  ∧ (Exists is_http [EvRemoveAll "/tmp/nextcloud-public-uploader/u1"] →
     Some 200 ≠ Some StatusOK).
Proof.
  cbv zeta.
  assert (Htrace : trace (snd (handleUploadComplete describedEnv defaultConfig
            (mkJSONRequest MethodPost
               (Some (mkCompleteRequest "u1" "f.bin" "a@b.c" "" "" "" 0)))
            (snd (handleUploadChunk defaultConfig
                    (mkChunkRequest MethodPost
                       (Some (mkMultipartForm (Some [Byte.x41]) "u1" "0"))) emptyWorld))))
    = trace (snd (handleUploadChunk defaultConfig
                    (mkChunkRequest MethodPost
                       (Some (mkMultipartForm (Some [Byte.x41]) "u1" "0"))) emptyWorld))
      ++ [EvReadDir "/tmp/nextcloud-public-uploader/u1";
          EvOpen "/tmp/nextcloud-public-uploader/u1/0";
          EvHTTP "MKCOL"
            "https://cloud.example/remote.php/dav/files/user/uploads/0-a_at_b_c"
            None (Some 201);
          EvHTTP "PUT"
            "https://cloud.example/remote.php/dav/files/user/uploads/0-a_at_b_c/f.bin"
            (Some [Byte.x41]) (Some 201)]
      ++ EvHTTP "HEAD"
           "https://cloud.example/remote.php/dav/files/user/uploads/0-a_at_b_c/descripcion.txt"
           None (Some 200)
         :: [EvRemoveAll "/tmp/nextcloud-public-uploader/u1"]).
  { vm_compute. reflexivity. }
  split; [exact Htrace |].
  exact (description_not_uploaded_when_probe_finds_it _ _ _ _ _ _ _ _ Htrace).
Defined.

(* ===================================================================== *)
(** ** The file system under chunk uploads *)

Lemma mkdirs_mono rest : ∀ m at_ m' q,
  os.mkdirs m at_ rest = Some m' → m !! q = Some os.Dir → m' !! q = Some os.Dir.
Proof.
  induction rest as [|e rest IH]; intros m at_ m' q; cbn.
  - by intros [= <-].
  - destruct (m !! (at_ ++ [e])) as [[c|]|] eqn:He; [done | by apply IH |].
    intros Hmk Hq. eapply IH; [done |].
    rewrite lookup_insert_ne; [done |]. intros <-. congruence.
Qed.

Lemma mkdirs_all_dirs rest : ∀ m at_ m',
  os.mkdirs m at_ rest = Some m' → all_dirs m' at_ rest.
Proof.
  induction rest as [|e rest IH]; intros m at_ m'; cbn; [done |].
  destruct (m !! (at_ ++ [e])) as [[c|]|] eqn:He; [done | |]; intros Hmk.
  - split; [by eapply mkdirs_mono | by eapply IH].
  - split; [| by eapply IH]. eapply mkdirs_mono; [done |]. apply lookup_insert_eq.
Qed.

Lemma mkdirs_existing rest : ∀ m at_, all_dirs m at_ rest → os.mkdirs m at_ rest = Some m.
Proof.
  induction rest as [|e rest IH]; intros m at_; cbn; [done |].
  intros [-> Hrest]. by apply IH.
Qed.

Lemma all_dirs_mono rest : ∀ m m' at_,
  (∀ q, m !! q = Some os.Dir → m' !! q = Some os.Dir) →
  all_dirs m at_ rest → all_dirs m' at_ rest.
Proof.
  induction rest as [|e rest IH]; intros m m' at_ Hmono; cbn; [done |].
  intros [He Hrest]. split; [by apply Hmono | by eapply IH].
Qed.

Lemma all_dirs_last rest : ∀ m at_,
  all_dirs m at_ rest → os.stat m (at_ ++ rest) = Some os.Dir ∨ rest = [].
Proof.
  induction rest as [|e rest IH]; intros m at_; cbn; [by right |].
  intros [He Hrest]. left. destruct (IH _ _ Hrest) as [Hst | ->].
  - by rewrite <- app_assoc in Hst.
  - unfold os.stat. rewrite He. by destruct (at_ ++ [e]).
Qed.

Lemma all_dirs_stat m dir : all_dirs m [] dir → os.stat m dir = Some os.Dir.
Proof. intros Hall. by destruct (all_dirs_last _ _ _ Hall) as [? | ->]. Qed.

Lemma FS_eta f : os.mkFS (os.files f) (os.cwd f) = f.
Proof. by destruct f. Qed.

Lemma MkdirAll_existing path f dir :
  os.resolve f path = Some dir → all_dirs (os.files f) [] dir →
  os.MkdirAll path f = Some f.
Proof.
  intros Hdir Hall. unfold os.MkdirAll.
  by rewrite Hdir, mkdirs_existing, FS_eta.
Qed.

Lemma MkdirAll_all_dirs path f f' dir :
  os.resolve f path = Some dir → os.MkdirAll path f = Some f' →
  all_dirs (os.files f') [] dir.
Proof.
  intros Hdir. unfold os.MkdirAll. rewrite Hdir.
  destruct (os.mkdirs _ _ _) eqn:Hmk; [| done]. intros [= <-].
  by eapply mkdirs_all_dirs.
Qed.








(* ===================================================================== *)
(** ** Listing the scratch directory *)












(* ===================================================================== *)
(** ** Sorting the chunk files *)






(* ===================================================================== *)
(** ** Opening and reading the chunk files *)





Lemma uploadToNextcloudFolder_events env cfg folderName filename reader data w :
  io.ReadAll reader = Some data →
  uploadToNextcloudFolder env cfg folderName filename reader w = (false, w)
  ∨ ∃ sent st,
      uploadToNextcloudFolder env cfg folderName filename reader w
      = (sent, mkWorld (fs w) (uploadSessions w) (now w)
                 (trace w ++ [EvHTTP MethodPut
                                (webdavFileURL env cfg folderName filename)
                                (Some data) st])).
Proof.
  intros Hdata. unfold uploadToNextcloudFolder, http_Do, bind.
  destruct (negb _); [by left |]. rewrite Hdata. right.
  cbn [fst snd]. unfold emit. cbn [snd].
  destruct (RoundTrip env _ _ _ _); by eexists _, _.
Qed.

(** The finalize handler sends the assembled stream, if it sends anything:
    its first upload carries what the chunk files read as. *)
Lemma handleUploadComplete_first_put env cfg reqData w reader data :
  let cleanUploadID := filepath.Clean (filepath.Base (UploadID reqData)) in
  let chunkDir := filepath.Join [UploadTempDir cfg; cleanUploadID] in
  String.eqb cleanUploadID "." || String.eqb cleanUploadID ".." = false →
  fst (assembleChunks env chunkDir w) = inr reader →
  io.ReadAll reader = Some data →
  ∃ evs,
    trace (snd (handleUploadComplete env cfg (mkJSONRequest MethodPost (Some reqData)) w))
    = trace w ++ evs
    ∧ first_put_carries data evs.
Proof.
  intros cleanUploadID chunkDir Hvalid Hreader Hdata.
  rewrite handleUploadComplete_run by done. fold cleanUploadID. fold chunkDir.
  assert (Hfs : ∀ e, ¬ is_http e → not_put e) by (by intros []).
  assert (Hmkcol : ∀ url b st, not_put (EvHTTP "MKCOL" url b st)) by done.
  assert (Hearly : ∀ (resp : Response) w1, grown not_put w w1 →
    ∃ evs, trace (snd (resp, mkWorld (os.RemoveAll chunkDir (fs w1)) (uploadSessions w1)
                               (now w1) (trace w1 ++ [EvRemoveAll chunkDir])))
           = trace w ++ evs ∧ first_put_carries data evs).
  { intros resp w1 (_ & evs & Htr & Hevs). exists (evs ++ [EvRemoveAll chunkDir]).
    cbn. rewrite Htr, <- app_assoc. split; [done |]. left.
    apply Forall_app. split; [done |]. by constructor. }
  unfold completeUpload. unfold bind at 1.
  destruct (assembleChunks env chunkDir w) as [assembled w1] eqn:Hrun1.
  cbn [fst] in Hreader. subst assembled.
  pose proof (stable_run _ _ _ _ _ (grown_assembleChunks not_put w Hfs env chunkDir)
                (grown_refl _ w) Hrun1) as Hw1.
  unfold bind at 1. unfold time_Now at 1. unfold bind at 1.
  destruct (createNextcloudFolder env cfg _ w1) as [created w2] eqn:Hrun2.
  pose proof (stable_run _ _ _ _ _ (grown_createNextcloudFolder not_put w env cfg _ Hmkcol)
                Hw1 Hrun2) as Hw2.
  destruct created; cbn [negb]; [| by apply Hearly].
  unfold bind at 1.
  destruct (uploadToNextcloudFolder_events env cfg
              (createFolderName (now w1) (cr_Email reqData) (cr_Phone reqData))
              (filepath.Base (FileName reqData)) reader data w2 Hdata)
    as [-> | (sent & st & ->)]; [by apply Hearly |].
  set (w3 := mkWorld _ _ _ _).
  set (rest := if negb sent then _ else _).
  assert (Hrest : stable (grown (λ _, True) w3) rest).
  { unfold rest. destruct (negb sent); [apply stable_ret |].
    apply stable_bind.
    - destruct (negb _); [apply grown_checkAndUpdateSession | apply stable_ret].
    - intros should. apply stable_bind; [apply grown_uploadDescription |].
      intros failed. destruct failed; apply stable_ret. }
  destruct (Hrest w3 (grown_refl _ w3)) as (_ & evs' & Htr' & _).
  destruct (rest w3) as [resp w4]. cbn [snd] in *.
  destruct Hw2 as (_ & evs & Htr & Hevs).
  eexists. split.
  - rewrite Htr'. unfold w3. cbn [trace]. rewrite Htr, <- !app_assoc. reflexivity.
  - right. eexists evs, _, st, _. by split.
Qed.


(* ===================================================================== *)
(** ** Insertion sort honours the contract of sort.Slice *)

Lemma insert_sorted_Permutation less x l : insert_sorted less x l ≡ₚ x :: l.
Proof.
  induction l as [|y l IH]; cbn; [done |].
  destruct (less x y); [done |]. rewrite IH. apply Permutation_swap.
Qed.

Lemma insertion_sort_Permutation less l : insertion_sort less l ≡ₚ l.
Proof.
  induction l as [|x l IH]; cbn; [done |].
  by rewrite insert_sorted_Permutation, IH.
Qed.

Lemma insert_sorted_Sorted (key : string → Z) x l :
  StronglySorted (λ a b, key a <= key b) l →
  StronglySorted (λ a b, key a <= key b) (insert_sorted (λ a b, key a <? key b) x l).
Proof.
  induction 1 as [|y l Hl IH Hy]; cbn.
  - by repeat constructor.
  - destruct (Z.ltb_spec (key x) (key y)) as [Hlt | Hge].
    + constructor; [by constructor |]. constructor; [lia |].
      eapply Forall_impl; [done |]. cbn. lia.
    + constructor; [done |]. rewrite insert_sorted_Permutation.
      by constructor.
Qed.

Lemma insertion_sort_sorts_by_key : sorts_by_key insertion_sort.
Proof.
  intros key l. split; [apply insertion_sort_Permutation |].
  induction l as [|x l IH]; cbn; [constructor |]. by apply insert_sorted_Sorted.
Qed.


(* ===================================================================== *)
(** ** Concurrent completions *)

Lemma tally_insert f ps : ∀ i p q,
  ps !! i = Some p →
  (tally f (<[i := q]> ps) + (if f p then 1 else 0)
   = tally f ps + (if f q then 1 else 0))%nat.
Proof.
  induction ps as [|p' ps IH]; intros [|i] p q Hp; simplify_eq/=; [lia |].
  specialize (IH i p q Hp). lia.
Qed.

Lemma tally_le_length f ps : (tally f ps <= length ps)%nat.
Proof. induction ps as [|p ps IH]; cbn; [lia |]. destruct (f p); lia. Qed.

Lemma tally_lt_length f ps i p :
  ps !! i = Some p → f p = false → (tally f ps < length ps)%nat.
Proof.
  revert i. induction ps as [|p' ps IH]; intros [|i] Hp Hf; simplify_eq/=.
  - rewrite Hf. pose proof (tally_le_length f ps). lia.
  - specialize (IH i Hp Hf). destruct (f p'); lia.
Qed.

Lemma tally_ge_1 f ps i p : ps !! i = Some p → f p = true → (1 <= tally f ps)%nat.
Proof.
  revert i. induction ps as [|p' ps IH]; intros [|i] Hp Hf; simplify_eq/=.
  - rewrite Hf. lia.
  - specialize (IH i Hp Hf). lia.
Qed.

Lemma tally_pos f ps : (0 < tally f ps)%nat → ∃ i p, ps !! i = Some p ∧ f p = true.
Proof.
  induction ps as [|p' ps IH]; cbn; [lia |]. destruct (f p') eqn:Hf.
  - intros _. by exists 0%nat, p'.
  - intros Hpos. destruct IH as (i & p & Hp & Hfp); [lia |]. by exists (S i), p.
Qed.

(** Two kinds of goroutines that exclude each other inside a third. *)
Lemma tally_disjoint f g h ps :
  (∀ p, f p = true → h p = true) → (∀ p, g p = true → h p = true) →
  (∀ p, f p = true → g p = false) →
  (tally f ps + tally g ps <= tally h ps)%nat.
Proof.
  intros Hf Hg Hfg. induction ps as [|p ps IH]; cbn; [lia |].
  specialize (Hf p). specialize (Hg p). specialize (Hfg p).
  destruct (f p), (g p), (h p); try lia; naive_solver.
Qed.

Lemma tally_replicate f n p : tally f (replicate n p) = (if f p then n else 0)%nat.
Proof. induction n as [|n IH]; cbn; [by destruct (f p) |]. rewrite IH. by destruct (f p). Qed.

Lemma tally_mono f g ps :
  (∀ p, f p = true → g p = true) → (tally f ps <= tally g ps)%nat.
Proof.
  intros Hfg. induction ps as [|p ps IH]; cbn; [lia |].
  specialize (Hfg p). destruct (f p), (g p); first [lia | naive_solver].
Qed.

(** The five counts before and after goroutine [tid] moves to [q]. *)
Ltac tallies Hp q :=
  pose proof (tally_insert in_critical _ _ _ q Hp);
  pose proof (tally_insert holds_session _ _ _ q Hp);
  pose proof (tally_insert counted _ _ _ q Hp);
  pose proof (tally_insert comparing _ _ _ q Hp);
  pose proof (tally_insert won _ _ _ q Hp);
  cbn [in_critical holds_session counted comparing won] in *.

Lemma points_to_eq l s : Nat.eqb s l = true → s = l.
Proof. apply Nat.eqb_eq. Qed.

(** Every step of every goroutine keeps the invariant. *)
Lemma step_invariant sessionID l n tid st st' :
  Z.of_nat n <= goint.MaxInt →
  calls_invariant sessionID l n st →
  Concurrent.step sessionID tid st = Some st' →
  calls_invariant sessionID l n st'.
Proof.
  intros Hmax (Hlen & Hpts & Hcrit & (o & Ho & Hup & Hcnt & Hholds) & Hreg).
  unfold Concurrent.step.
  destruct (Concurrent.goroutines st !! tid) as [p|] eqn:Hp; [| done].
  pose proof (proj1 (Forall_lookup _ _) Hpts tid p Hp) as Hptr.
  pose proof (tally_mono comparing in_critical (Concurrent.goroutines st)) as Hcmp_crit.
  pose proof (tally_mono holds_session in_critical (Concurrent.goroutines st)) as Hhold_crit.
  assert (Hcrit1 : (tally in_critical (Concurrent.goroutines st) <= 1)%nat)
    by (rewrite Hcrit; destruct (Concurrent.sessionsMutex st); lia).
  specialize (Hcmp_crit ltac:(by intros [])). specialize (Hhold_crit ltac:(by intros [])).
  destruct p as [| |s|s|s|s r|r|r]; cbn [points_to] in Hptr;
    try apply points_to_eq in Hptr; try subst s.
  - (* sessionsMutex.Lock() *)
    destruct (Concurrent.sessionsMutex st) eqn:Hmutex; [done |]. intros [= <-].
    tallies Hp Concurrent.AtLookup.
    unfold calls_invariant. cbn [Concurrent.goroutines Concurrent.heap
      Concurrent.sessions Concurrent.sessionsMutex].
    split; [by rewrite length_insert |]. split; [by apply Forall_insert |].
    split; [lia |]. split; [exists o; repeat split; try done; lia |].
    destruct (Concurrent.sessions st !! sessionID); lia.
  - (* the lookup in the map *)
    destruct (Concurrent.sessions st !! sessionID) as [l'|] eqn:Hl'.
    + destruct Hreg as (-> & Hwon & Hcmp). intros [= <-].
      tallies Hp (Concurrent.AtSessionLock l).
      unfold calls_invariant, Concurrent.set_pc.
      cbn [Concurrent.goroutines Concurrent.heap Concurrent.sessions
           Concurrent.sessionsMutex].
      split; [by rewrite length_insert |].
      split; [apply Forall_insert; [done | cbn; apply Nat.eqb_refl] |].
      split; [lia |]. split; [exists o; repeat split; try done; lia |].
      rewrite Hl'. lia.
    + pose proof (tally_lt_length counted _ _ _ Hp eq_refl). lia.
  - (* session.Mutex.Lock() *)
    rewrite Ho. destruct (Concurrent.Mutex o) eqn:Hmutex; [done |]. intros [= <-].
    tallies Hp (Concurrent.AtIncrement l).
    unfold calls_invariant.
    cbn [Concurrent.goroutines Concurrent.heap Concurrent.sessions
         Concurrent.sessionsMutex].
    split; [by rewrite length_insert |].
    split; [apply Forall_insert; [done | cbn; apply Nat.eqb_refl] |].
    split; [lia |].
    split.
    { eexists. rewrite lookup_insert_eq. split; [done |]. cbn. repeat split; try done; lia. }
    destruct (Concurrent.sessions st !! sessionID); lia.
  - (* session.CompletedCount++ *)
    rewrite Ho. intros [= <-].
    pose proof (tally_lt_length counted _ _ _ Hp eq_refl) as Hlt.
    tallies Hp (Concurrent.AtCompare l).
    unfold calls_invariant.
    cbn [Concurrent.goroutines Concurrent.heap Concurrent.sessions
         Concurrent.sessionsMutex].
    split; [by rewrite length_insert |].
    split; [apply Forall_insert; [done | cbn; apply Nat.eqb_refl] |].
    split; [lia |].
    split.
    { eexists. rewrite lookup_insert_eq. split; [done |]. cbn.
      split; [done |]. split; [| lia].
      rewrite Hcnt, wrap_in_range
        by (unfold goint.in_range, goint.MinInt, goint.MaxInt in *; lia). lia. }
    destruct (Concurrent.sessions st !! sessionID); lia.
  - (* the comparison *)
    rewrite Ho.
    pose proof (tally_ge_1 comparing _ _ _ Hp eq_refl) as Hge.
    pose proof (tally_le_length counted (Concurrent.goroutines st)) as Hle.
    destruct (Concurrent.sessions st !! sessionID) as [l'|] eqn:Hl'; [| lia].
    destruct Hreg as (-> & Hwon & Hcmp).
    destruct (Z.leb_spec (UploadCount (Concurrent.data o))
                (CompletedCount (Concurrent.data o))) as [Hdone | Hmore];
      intros [= <-].
    + tallies Hp (Concurrent.AtSessionUnlock l true).
      unfold calls_invariant.
      cbn [Concurrent.goroutines Concurrent.heap Concurrent.sessions
           Concurrent.sessionsMutex].
      split; [by rewrite length_insert |].
      split; [apply Forall_insert; [done | cbn; apply Nat.eqb_refl] |].
      split; [lia |]. split; [exists o; repeat split; try done; lia |].
      rewrite lookup_delete_eq. lia.
    + tallies Hp (Concurrent.AtSessionUnlock l false).
      unfold calls_invariant, Concurrent.set_pc.
      cbn [Concurrent.goroutines Concurrent.heap Concurrent.sessions
           Concurrent.sessionsMutex].
      split; [by rewrite length_insert |].
      split; [apply Forall_insert; [done | cbn; apply Nat.eqb_refl] |].
      split; [lia |]. split; [exists o; repeat split; try done; lia |].
      rewrite Hl'. lia.
  - (* the deferred session.Mutex.Unlock() *)
    rewrite Ho. intros [= <-].
    pose proof (tally_ge_1 holds_session _ _ _ Hp eq_refl) as Hge.
    tallies Hp (Concurrent.AtUnlock r).
    unfold calls_invariant.
    cbn [Concurrent.goroutines Concurrent.heap Concurrent.sessions
         Concurrent.sessionsMutex].
    split; [by rewrite length_insert |]. split; [by apply Forall_insert |].
    split; [lia |].
    split.
    { eexists. rewrite lookup_insert_eq. split; [done |]. cbn. repeat split; try done; lia. }
    destruct (Concurrent.sessions st !! sessionID); destruct r; lia.
  - (* the deferred sessionsMutex.Unlock() *)
    intros [= <-].
    pose proof (tally_ge_1 in_critical _ _ _ Hp eq_refl) as Hge.
    tallies Hp (Concurrent.Returned r).
    unfold calls_invariant.
    cbn [Concurrent.goroutines Concurrent.heap Concurrent.sessions
         Concurrent.sessionsMutex].
    split; [by rewrite length_insert |]. split; [by apply Forall_insert |].
    split; [lia |]. split; [exists o; repeat split; try done; lia |].
    destruct (Concurrent.sessions st !! sessionID); destruct r; lia.
  - done.
Qed.

Lemma start_invariant sessionID hp reg l o n :
  reg !! sessionID = Some l → hp !! l = Some o → Concurrent.Mutex o = false →
  UploadCount (Concurrent.data o) = Z.of_nat n →
  CompletedCount (Concurrent.data o) = 0 → (1 <= n)%nat →
  calls_invariant sessionID l n (Concurrent.start hp reg n).
Proof.
  intros Hreg Ho Hmutex Hup Hcnt Hn. unfold calls_invariant, Concurrent.start.
  cbn [Concurrent.goroutines Concurrent.heap Concurrent.sessions Concurrent.sessionsMutex].
  rewrite !tally_replicate. cbn.
  split; [by rewrite length_replicate |].
  split; [by apply Forall_replicate |]. split; [done |].
  split; [exists o; by rewrite Hmutex |]. rewrite Hreg. repeat split; lia.
Qed.

Lemma exec_invariant sessionID l n schedule : ∀ st,
  Z.of_nat n <= goint.MaxInt →
  calls_invariant sessionID l n st →
  calls_invariant sessionID l n (Concurrent.exec sessionID schedule st).
Proof.
  induction schedule as [|tid schedule IH]; intros st Hmax Hinv; [done |].
  cbn. apply IH; [done |].
  destruct (Concurrent.step sessionID tid st) as [st'|] eqn:Hstep; [| done].
  by eapply step_invariant.
Qed.

Lemma exec_app sessionID s1 s2 st :
  Concurrent.exec sessionID (s1 ++ s2) st
  = Concurrent.exec sessionID s2 (Concurrent.exec sessionID s1 st).
Proof. apply fold_left_app. Qed.

(** The values returned, when every call has returned. *)
Lemma returned_results gs :
  Forall (λ p, is_Some (Concurrent.returned p)) gs →
  omap Concurrent.returned gs
  ≡ₚ replicate (tally won gs) true ++ replicate (length gs - tally won gs) false.
Proof.
  induction 1 as [|p gs [r Hr] _ IH]; [done |].
  destruct p; simplify_eq/=. pose proof (tally_le_length won gs) as Hle.
  destruct r; cbn.
  - by rewrite IH.
  - rewrite IH. replace (S (length gs) - tally won gs)%nat
      with (S (length gs - tally won gs)) by lia.
    cbn. apply Permutation_middle.
Qed.

Lemma returned_counted gs :
  Forall (λ p, is_Some (Concurrent.returned p)) gs →
  tally counted gs = length gs ∧ tally comparing gs = 0%nat.
Proof.
  induction 1 as [|p gs [r Hr] _ [IH1 IH2]]; [done |].
  destruct p; simplify_eq/=. by rewrite IH1, IH2.
Qed.

Lemma invariant_results sessionID l n st :
  calls_invariant sessionID l n st → Concurrent.all_returned st →
  Concurrent.results st ≡ₚ true :: replicate (n - 1) false.
Proof.
  intros (Hlen & _ & _ & _ & Hreg) Hall. unfold Concurrent.results.
  rewrite returned_results by done.
  destruct (returned_counted _ Hall) as [Hcounted Hcmp].
  destruct (Concurrent.sessions st !! sessionID).
  - destruct Hreg as (_ & _ & Hlt). specialize (Hlt Hcmp). lia.
  - destruct Hreg as (-> & _ & _). by rewrite Hlen.
Qed.

Lemma sum_list_insert (l : list nat) : ∀ i x y,
  l !! i = Some x → (sum_list (<[i := y]> l) + x = sum_list l + y)%nat.
Proof.
  induction l as [|x' l IH]; intros [|i] x y Hx; simplify_eq/=; [lia |].
  specialize (IH i x y Hx). lia.
Qed.

Lemma set_pc_remaining st tid p q hp reg mu :
  Concurrent.goroutines st !! tid = Some p → (remaining q < remaining p)%nat →
  (total_remaining (Concurrent.mkState hp reg mu (<[tid := q]> (Concurrent.goroutines st)))
   < total_remaining st)%nat.
Proof.
  intros Hp Hlt. unfold total_remaining. cbn [Concurrent.goroutines].
  rewrite list_fmap_insert.
  pose proof (sum_list_insert (remaining <$> Concurrent.goroutines st) tid
                (remaining p) (remaining q)) as Hsum.
  rewrite list_lookup_fmap, Hp in Hsum. specialize (Hsum eq_refl). lia.
Qed.

(** Every step brings the goroutine that takes it closer to its return. *)
Lemma step_decreases sessionID tid st st' :
  Concurrent.step sessionID tid st = Some st' →
  (total_remaining st' < total_remaining st)%nat.
Proof.
  unfold Concurrent.step, Concurrent.set_pc.
  destruct (Concurrent.goroutines st !! tid) as [p|] eqn:Hp; [| done].
  destruct p as [| |s|s|s|s r|r|r]; repeat case_match; intros [= <-];
    by apply (set_pc_remaining st tid _ _ _ _ _ Hp); cbn; lia.
Qed.

(** No deadlock: while a call has not returned, some goroutine can move. *)
Lemma step_possible sessionID l n st :
  calls_invariant sessionID l n st → ¬ Concurrent.all_returned st →
  ∃ tid st', Concurrent.step sessionID tid st = Some st'.
Proof.
  intros (Hlen & Hpts & Hcrit & (o & Ho & Hup & Hcnt & Hholds) & Hreg) Hnot.
  destruct (Concurrent.sessionsMutex st) eqn:Hmutex.
  - destruct (tally_pos in_critical (Concurrent.goroutines st)) as (tid & p & Hp & Hin);
      [lia |].
    pose proof (proj1 (Forall_lookup _ _) Hpts tid p Hp) as Hptr.
    exists tid. unfold Concurrent.step. rewrite Hp.
    destruct p as [| |s|s|s|s r|r|r]; try done; cbn [points_to] in Hptr;
      try apply points_to_eq in Hptr; try subst s; rewrite ?Ho; try by eexists.
    + destruct (Concurrent.sessions st !! sessionID); by eexists.
    + pose proof (tally_disjoint holds_session
                    (λ p, match p with Concurrent.AtSessionLock _ => true | _ => false end)
                    in_critical (Concurrent.goroutines st)
                    ltac:(by intros []) ltac:(by intros []) ltac:(by intros [])) as Hdis.
      pose proof (tally_ge_1 (λ p, match p with Concurrent.AtSessionLock _ => true | _ => false end)
                    _ _ _ Hp eq_refl) as Hge.
      destruct (Concurrent.Mutex o); [lia | by eexists].
    + destruct (_ <=? _); by eexists.
  - apply not_Forall_Exists in Hnot; [| apply _].
    apply Exists_exists in Hnot as (p & Hin & Hp).
    apply list_elem_of_lookup in Hin as [tid Htid].
    pose proof (tally_lt_length in_critical _ _ _ Htid) as Hlt.
    exists tid. unfold Concurrent.step. rewrite Htid.
    destruct p as [| |s|s|s|s r|r|r]; cbn in Hp;
      try (pose proof (tally_ge_1 in_critical _ _ _ Htid eq_refl); lia).
    + rewrite Hmutex. by eexists.
    + destruct Hp. by eexists.
Qed.

(** Every call returns: from every state that the calls can reach there
    is a schedule that runs all of them to their return. *)
Lemma calls_terminate sessionID l n : ∀ k st,
  Z.of_nat n <= goint.MaxInt →
  (total_remaining st <= k)%nat → calls_invariant sessionID l n st →
  ∃ schedule, Concurrent.all_returned (Concurrent.exec sessionID schedule st).
Proof.
  induction k as [|k IH]; intros st Hmax Hk Hinv.
  - destruct (decide (Concurrent.all_returned st)) as [Hall | Hnot]; [by exists [] |].
    destruct (step_possible _ _ _ _ Hinv Hnot) as (tid & st' & Hstep).
    apply step_decreases in Hstep. lia.
  - destruct (decide (Concurrent.all_returned st)) as [Hall | Hnot]; [by exists [] |].
    destruct (step_possible _ _ _ _ Hinv Hnot) as (tid & st' & Hstep).
    destruct (IH st') as [schedule Hdone]; [done | | by eapply step_invariant |].
    { apply step_decreases in Hstep. lia. }
    exists (tid :: schedule). cbn. by rewrite Hstep.
Qed.

(** C3: [n >= 1] goroutines call checkAndUpdateSession for one registered
    session that expects [n] files. Whatever the scheduler does, when all
    calls have returned exactly one has returned true and the others false;
    and from every state they can reach, all calls do return. *)
Theorem exactly_one_concurrent_completion_true
    (sessionID : string) (hp : gmap nat Concurrent.Object) (reg : gmap string nat)
    (l : nat) (o : Concurrent.Object) (n : nat) (schedule : list nat) :
  let st := Concurrent.exec sessionID schedule (Concurrent.start hp reg n) in
  reg !! sessionID = Some l → hp !! l = Some o → Concurrent.Mutex o = false →
  UploadCount (Concurrent.data o) = Z.of_nat n →
  CompletedCount (Concurrent.data o) = 0 →
  (1 <= n)%nat → Z.of_nat n <= goint.MaxInt →
  (Concurrent.all_returned st →
   Concurrent.results st ≡ₚ true :: replicate (n - 1) false)
  ∧ ∃ more, Concurrent.all_returned (Concurrent.exec sessionID more st).
Proof.
  intros st Hreg Ho Hmutex Hup Hcnt Hn Hmax.
  assert (Hinv : calls_invariant sessionID l n st).
  { apply exec_invariant; [done |]. by eapply start_invariant. }
  split; [by apply (invariant_results sessionID l) |].
  by eapply (calls_terminate sessionID l n (total_remaining st)).
Qed.

Lemma exactly_one_concurrent_completion_true_witness :
  let hp : gmap nat Concurrent.Object :=
    {[ 0%nat := Concurrent.mkObject (mkUploadSession "a@b.c" "" "" 3 0) false ]} in
  let reg : gmap string nat := {[ "s" := 0%nat ]} in
  let schedule :=
    [1; 0; 2; 1; 1; 0; 1; 1; 2; 1; 1; 0; 2; 0; 0; 2; 0; 0; 0; 0; 1; 2; 2; 2; 2; 2; 2; 2]%nat in
  let st := Concurrent.exec "s" schedule (Concurrent.start hp reg 3) in
  Concurrent.all_returned st
  ∧ Concurrent.results st ≡ₚ [true; false; false]
  ∧ Concurrent.results st = [false; false; true].
Proof.
  cbv zeta.
  assert (Hall : Concurrent.all_returned
            (Concurrent.exec "s"
               [1; 0; 2; 1; 1; 0; 1; 1; 2; 1; 1; 0; 2; 0; 0; 2; 0; 0; 0; 0; 1; 2; 2; 2; 2; 2; 2; 2]%nat
               (Concurrent.start
                  {[ 0%nat := Concurrent.mkObject (mkUploadSession "a@b.c" "" "" 3 0) false ]}
                  {[ "s" := 0%nat ]} 3))).
  { vm_compute. repeat (apply List.Forall_cons; [by eexists |]). apply List.Forall_nil. }
  split; [exact Hall |]. split; [| vm_compute; reflexivity].
  refine (proj1 (exactly_one_concurrent_completion_true "s" _ _ 0%nat
            (Concurrent.mkObject (mkUploadSession "a@b.c" "" "" 3 0) false) 3 _
            _ _ _ _ _ _ _) Hall).
  - reflexivity.
  - reflexivity.
  - reflexivity.
  - reflexivity.
  - reflexivity.
  - lia.
  - vm_compute. discriminate.
Defined.

(** *** The goroutine and the function *)






(* ===================================================================== *)
(** * Further properties of the code *)

(** ** Sessions: from registration to completion *)

(** Calls in a row for a session that is in the registry: as many calls as
    files are still expected, and at least one, complete it. *)
Lemma completions_run id calls : ∀ w s,
  uploadSessions w !! id = Some s →
  0 <= CompletedCount s < goint.MaxInt → UploadCount s <= goint.MaxInt →
  Z.of_nat (length calls) = Z.max 1 (UploadCount s - CompletedCount s) →
  completions id calls w
  = (replicate (length calls - 1) false ++ [true],
     mkWorld (fs w) (delete id (uploadSessions w)) (now w) (trace w)).
Proof.
  induction calls as [|[[[f e] p] o] rest IH]; intros w s Hs Hc Hu Hlen.
  { cbn in Hlen. lia. }
  cbn [completions]. destruct rest as [|c' rest'].
  - cbn in Hlen. unfold bind.
    rewrite (complete_last f e p o w id s) by (try done; lia). reflexivity.
  - unfold bind at 1.
    rewrite (complete_pending f e p o w id s) by (try done; cbn [length] in Hlen; lia).
    set (s' := mkUploadSession _ _ _ _ _). set (w1 := mkWorld _ _ _ _).
    unfold bind at 1.
    rewrite (IH w1 s');
      [| apply lookup_insert_eq | cbn; cbn [length] in Hlen; lia | done
       | cbn [length] in *; cbn; lia].
    unfold ret, w1. cbn [fs uploadSessions now trace length].
    rewrite delete_insert_eq. f_equal.
    replace (S (S (length rest')) - 1)%nat with (S (S (length rest') - 1)) by lia.
    reflexivity.
Qed.

(** X2: a session registered with [totalFiles = N] is completed by call number
    [max 1 N] of checkAndUpdateSession: the calls before it return false,
    that call returns true and removes the session, which leaves the
    registry as if the session had never been registered. This holds
    whatever the registry held before, so registering an identifier again
    starts its count afresh. Nothing else in the state changes. *)
Theorem session_completes_at_expected_count
    (w : World) (reqData : SessionRequest)
    (calls : list (string * string * string * string)) :
  let registered :=
    snd (handleUploadSession (mkJSONRequest MethodPost (Some reqData)) w) in
  let completed := completions (sr_SessionID reqData) calls registered in
  goint.in_range (sr_TotalFiles reqData) →
  Z.of_nat (length calls) = Z.max 1 (sr_TotalFiles reqData) →
  fst completed = replicate (length calls - 1) false ++ [true]
  ∧ uploadSessions (snd completed) = delete (sr_SessionID reqData) (uploadSessions w)
  ∧ fs (snd completed) = fs w ∧ trace (snd completed) = trace w.
Proof.
  intros registered completed [_ Hmax] Hlen. unfold completed, registered.
  erewrite register_run by reflexivity.
  erewrite completions_run;
    [| apply lookup_insert_eq | cbn; unfold goint.MaxInt; lia | done | cbn; lia].
  cbn [fst snd fs uploadSessions trace]. by rewrite delete_insert_eq.
Qed.

Lemma session_completes_at_expected_count_witness :
  fst (completions "s" [("f1", "a@b.c", "", ""); ("f2", "a@b.c", "", "")]
         (snd (handleUploadSession
                 (mkJSONRequest MethodPost (Some (mkSessionRequest "s" "a@b.c" "" "" 2)))
                 emptyWorld)))
  = [false; true]
  ∧ uploadSessions
      (snd (completions "s" [("f1", "a@b.c", "", ""); ("f2", "a@b.c", "", "")]
              (snd (handleUploadSession
                      (mkJSONRequest MethodPost
                         (Some (mkSessionRequest "s" "a@b.c" "" "" 2)))
                      emptyWorld))))
    = delete "s" ∅.
Proof.
  destruct (session_completes_at_expected_count emptyWorld
              (mkSessionRequest "s" "a@b.c" "" "" 2)
              [("f1", "a@b.c", "", ""); ("f2", "a@b.c", "", "")]) as (H1 & H2 & _).
  - unfold goint.in_range, goint.MinInt, goint.MaxInt. cbn. lia.
  - reflexivity.
  - split; [exact H1 | exact H2].
Defined.

(** The part of handleUploadComplete after the [defer] statement reaches
    the registry through checkAndUpdateSession for the session of the
    request only, and not at all when the request names no session. *)
Lemma completeUpload_sessions (Q : gmap string UploadSession → Prop)
    env cfg reqData chunkDir :
  (SessionID reqData ≠ "" → ∀ folderName email phone dataOrigin,
     stable (λ w, Q (uploadSessions w))
       (checkAndUpdateSession (SessionID reqData) folderName email phone dataOrigin)) →
  stable (λ w, Q (uploadSessions w)) (completeUpload env cfg reqData chunkDir).
Proof.
  intros Hc. unfold completeUpload.
  apply stable_bind; [apply (sessions_assembleChunks Q) |].
  intros [resp|reader]; [apply stable_ret |].
  apply stable_bind; [apply (sessions_time_Now Q) |]. intros t. cbv zeta.
  apply stable_bind; [apply (sessions_createNextcloudFolder Q) |]. intros created.
  destruct (negb created); [apply stable_ret |].
  apply stable_bind; [apply (sessions_uploadToNextcloudFolder Q) |]. intros sent.
  destruct (negb sent); [apply stable_ret |].
  apply stable_bind.
  - destruct (String.eqb_spec (SessionID reqData) ""); cbn [negb];
      [apply stable_ret | by apply Hc].
  - intros should. apply stable_bind; [apply (sessions_uploadDescription Q) |].
    intros [resp|]; apply stable_ret.
Qed.

(** X3: a finalize call leaves every session but the one it names as it is,
    whatever the outcome of the call; and it leaves the session registered
    under the empty identifier alone even when it names it, because an
    empty sessionId stands for an upload without a session. *)
Theorem finalize_touches_only_its_session
    (env : Env) (cfg : Config) (r : JSONRequest CompleteRequest) (w : World)
    (id : string) :
  SessionID <$> Decoded r ≠ Some id ∨ id = "" →
  uploadSessions (snd (handleUploadComplete env cfg r w)) !! id
  = uploadSessions w !! id.
Proof.
  intros Hid.
  set (Q := λ m : gmap string UploadSession, m !! id = uploadSessions w !! id).
  enough (stable (λ w', Q (uploadSessions w')) (handleUploadComplete env cfg r)) as H
    by (by apply H).
  unfold handleUploadComplete.
  destruct (negb _); [apply stable_ret |].
  destruct (Decoded r) as [reqData|] eqn:Hd; [| apply stable_ret].
  cbv zeta. destruct (_ || _); [apply stable_ret |].
  apply stable_bind.
  - apply completeUpload_sessions. intros Hne f e p o w1 Hw1. unfold Q in *.
    assert (Hother : SessionID reqData ≠ id).
    { destruct Hid as [Hid | ->]; [| done]. intros <-. by apply Hid. }
    unfold checkAndUpdateSession, bind, get_uploadSessions, set_uploadSessions, ret.
    destruct (uploadSessions w1 !! SessionID reqData); [| done].
    destruct (_ <=? _); cbn; by rewrite ?lookup_delete_ne, lookup_insert_ne.
  - intros resp. apply stable_bind; [apply (sessions_os_RemoveAll Q) |].
    intros; apply stable_ret.
Qed.

Lemma finalize_touches_only_its_session_witness :
  let w := snd (handleUploadSession
                  (mkJSONRequest MethodPost (Some (mkSessionRequest "s2" "x@y.z" "" "" 2)))
                  emptyWorld) in
  uploadSessions
    (snd (handleUploadComplete plainEnv defaultConfig
            (mkJSONRequest MethodPost
               (Some (mkCompleteRequest "u" "f.bin" "a@b.c" "" "" "s1" 1))) w)) !! "s2"
  = uploadSessions w !! "s2".
Proof.
  apply (finalize_touches_only_its_session plainEnv defaultConfig
           (mkJSONRequest MethodPost
              (Some (mkCompleteRequest "u" "f.bin" "a@b.c" "" "" "s1" 1)))).
  left. cbn. discriminate.
Defined.

(* ===================================================================== *)
(** ** The steps of a finalize call, one by one *)

Lemma traced_traced w evs1 evs2 : traced (traced w evs1) evs2 = traced w (evs1 ++ evs2).
Proof. unfold traced. cbn. by rewrite app_assoc. Qed.

Lemma traced_nil w : traced w [] = w.
Proof. unfold traced. rewrite app_nil_r. by destruct w. Qed.

(** One exchange with the server: nothing happens when the request cannot
    be built; otherwise one request is recorded, with the body that was
    read for it, and a body that cannot be read ends the exchange without
    an answer. *)
Lemma http_Do_run env method url body w :
  http_Do env method url body w = (None, w)
  ∨ ∃ st, http_Do env method url body w
          = (st, traced w [EvHTTP method url (body ≫= io.ReadAll) st])
          ∧ (body ≠ None → body ≫= io.ReadAll = None → st = None).
Proof.
  unfold http_Do. destruct (negb _); [by left |]. right.
  destruct body as [r|]; cbn [mbind option_bind].
  - destruct (io.ReadAll r) as [data|].
    + eexists. split; [reflexivity | done].
    + exists None. split; [reflexivity | done].
  - eexists. split; [reflexivity | done].
Qed.

Lemma createNextcloudFolder_run env cfg folderName w :
  createNextcloudFolder env cfg folderName w = (false, w)
  ∨ ∃ st, createNextcloudFolder env cfg folderName w
          = (folder_acknowledged st,
             traced w [EvHTTP "MKCOL" (webdavFolderURL env cfg folderName) None st]).
Proof.
  unfold createNextcloudFolder, bind.
  destruct (http_Do_run env "MKCOL" (webdavFolderURL env cfg folderName) None w)
    as [-> | (st & -> & _)]; [by left |].
  right. exists st. by destruct st.
Qed.

Lemma uploadToNextcloudFolder_run env cfg folderName filename data w :
  uploadToNextcloudFolder env cfg folderName filename data w = (false, w)
  ∨ ∃ st, uploadToNextcloudFolder env cfg folderName filename data w
          = (file_acknowledged st,
             traced w [EvHTTP MethodPut (webdavFileURL env cfg folderName filename)
                         (io.ReadAll data) st])
          ∧ (io.ReadAll data = None → st = None).
Proof.
  unfold uploadToNextcloudFolder, bind.
  destruct (http_Do_run env MethodPut (webdavFileURL env cfg folderName filename)
              (Some data) w) as [-> | (st & -> & Hst)]; [by left |].
  right. exists st. split; [by destruct st |]. by apply Hst.
Qed.

Lemma checkDescriptionFileExists_run env cfg folderName w :
  checkDescriptionFileExists env cfg folderName w = (false, w)
  ∨ ∃ st, checkDescriptionFileExists env cfg folderName w
          = (probe_found st,
             traced w [EvHTTP "HEAD"
                         (webdavFolderURL env cfg folderName +:+ "/descripcion.txt")
                         None st]).
Proof.
  unfold checkDescriptionFileExists, bind.
  destruct (http_Do_run env "HEAD"
              (webdavFolderURL env cfg folderName +:+ "/descripcion.txt") None w)
    as [-> | (st & -> & _)]; [by left |].
  right. exists st. by destruct st.
Qed.

(** Opening the chunk files talks to the file system only, and fails with
    one response. *)
Lemma openChunks_quiet chunkDir chunkFiles : ∀ readers w,
  ∃ evs, snd (openChunks chunkDir chunkFiles readers w) = traced w evs
         ∧ Forall (λ e, ¬ is_http e) evs
         ∧ ∀ resp, fst (openChunks chunkDir chunkFiles readers w) = inl resp →
                   resp = chunksNotRead.
Proof.
  induction chunkFiles as [|chunkFile rest IH]; intros readers w.
  - exists []. rewrite traced_nil. by repeat split.
  - cbn [openChunks]. unfold bind at 1. unfold os_Open, bind, emit, get_fs, ret.
    cbn [fs snd fst].
    destruct (os.Open _ (fs w)) as [f|].
    + set (w1 := mkWorld _ _ _ _).
      destruct (IH (readers ++ [f]) w1) as (evs & Hw & Hevs & Hresp).
      exists (EvOpen (filepath.Join [chunkDir; chunkFile]) :: evs).
      rewrite Hw. split; [| split; [| done]].
      * unfold traced, w1. cbn. by rewrite <- app_assoc.
      * constructor; [by intros [] | done].
    + exists [EvOpen (filepath.Join [chunkDir; chunkFile])].
      repeat split; [by repeat constructor; intros [] |].
      cbn. by intros resp [= <-].
Qed.

Lemma assembleChunks_quiet env chunkDir w :
  ∃ evs, snd (assembleChunks env chunkDir w) = traced w evs
         ∧ Forall (λ e, ¬ is_http e) evs
         ∧ ∀ resp, fst (assembleChunks env chunkDir w) = inl resp →
                   resp = chunksNotFound ∨ resp = chunksNotRead.
Proof.
  unfold assembleChunks. unfold bind at 1. unfold os_ReadDir, bind, emit, get_fs, ret.
  cbn [fs snd fst].
  destruct (os.ReadDir chunkDir (fs w)) as [chunkFiles|].
  - set (w1 := mkWorld _ _ _ _).
    destruct (openChunks_quiet chunkDir (sort_Slice env chunkLess chunkFiles) [] w1)
      as (evs & Hw & Hevs & Hresp).
    destruct (openChunks _ _ _ w1) as [[resp|readers] w2]; cbn [fst snd] in *.
    + exists (EvReadDir chunkDir :: evs). rewrite Hw. split; [| split].
      * unfold traced, w1. cbn. by rewrite <- app_assoc.
      * constructor; [by intros [] | done].
      * intros ? [= <-]. right. by apply Hresp.
    + exists (EvReadDir chunkDir :: evs). rewrite Hw. split; [| split; [| done]].
      * unfold traced, w1. cbn. by rewrite <- app_assoc.
      * constructor; [by intros [] | done].
  - exists [EvReadDir chunkDir]. repeat split; [by repeat constructor; intros [] |].
    cbn. intros resp [= <-]. by left.
Qed.

(** The session step changes the registry and nothing else. *)
Lemma checkAndUpdateSession_world id folderName email phone dataOrigin w :
  ∃ m, snd (checkAndUpdateSession id folderName email phone dataOrigin w)
       = mkWorld (fs w) m (now w) (trace w).
Proof.
  unfold checkAndUpdateSession, bind, get_uploadSessions, set_uploadSessions, ret.
  destruct (uploadSessions w !! id); [| exists (uploadSessions w); by destruct w].
  destruct (_ <=? _); by eexists.
Qed.

Lemma uploadDescription_true env cfg reqData folderName w :
  uploadDescription env cfg reqData folderName true w
  = let '(found, w1) := checkDescriptionFileExists env cfg folderName w in
    if found then (None, w1)
    else
      (sent <- uploadToNextcloudFolder env cfg folderName "descripcion.txt"
                 (io.StringReader
                    (createDescriptionContent env (now w1) (FileName reqData)
                       (cr_Email reqData) (cr_Phone reqData) (cr_DataOrigin reqData))) ;;
       if negb sent
       then ret (Some (jsonError "Failed to upload description file."
                         StatusInternalServerError))
       else ret None) w1.
Proof.
  unfold uploadDescription. unfold bind at 1.
  by destruct (checkDescriptionFileExists env cfg folderName w) as [[] w1].
Qed.

(** The description step of handleUploadComplete, when it is taken: the
    probe, if the request for it can be built, and unless the probe finds
    the file, the upload of the description of this request. *)
Lemma uploadDescription_run env cfg reqData folderName w :
  let content :=
    String.list_byte_of_string
      (createDescriptionContent env (now w) (FileName reqData) (cr_Email reqData)
         (cr_Phone reqData) (cr_DataOrigin reqData)) in
  let probe st :=
    EvHTTP "HEAD" (webdavFolderURL env cfg folderName +:+ "/descripcion.txt") None st in
  let put st :=
    EvHTTP MethodPut (webdavFileURL env cfg folderName "descripcion.txt")
      (Some content) st in
  (∃ st, probe_found st = true
         ∧ uploadDescription env cfg reqData folderName true w
           = (None, traced w [probe st]))
  ∨ ∃ head, (head = [] ∨ ∃ st, head = [probe st] ∧ probe_found st = false)
      ∧ (uploadDescription env cfg reqData folderName true w
         = (Some descriptionFailed, traced w head)
         ∨ ∃ st, uploadDescription env cfg reqData folderName true w
                 = (if file_acknowledged st then None else Some descriptionFailed,
                    traced w (head ++ [put st]))).
Proof.
  intros content probe put.
  assert (Hput : ∀ head w1, w1 = traced w head →
    let res :=
      (sent <- uploadToNextcloudFolder env cfg folderName "descripcion.txt"
                 (io.StringReader
                    (createDescriptionContent env (now w) (FileName reqData)
                       (cr_Email reqData) (cr_Phone reqData) (cr_DataOrigin reqData))) ;;
       if negb sent
       then ret (Some (jsonError "Failed to upload description file."
                         StatusInternalServerError))
       else ret None) w1 in
    res = (Some descriptionFailed, w1)
    ∨ ∃ st, res = (if file_acknowledged st then None else Some descriptionFailed,
                   traced w (head ++ [put st]))).
  { intros head w1 Hw1 res. subst res. unfold bind.
    destruct (uploadToNextcloudFolder_run env cfg folderName "descripcion.txt"
                (io.StringReader
                   (createDescriptionContent env (now w) (FileName reqData)
                      (cr_Email reqData) (cr_Phone reqData) (cr_DataOrigin reqData)))
                w1) as [-> | (st & -> & _)]; [by left |].
    right. exists st. rewrite Hw1, traced_traced. by destruct (file_acknowledged st). }
  rewrite uploadDescription_true.
  destruct (checkDescriptionFileExists_run env cfg folderName w) as [-> | (st & ->)].
  - right. exists []. split; [by left |].
    rewrite (traced_nil w). apply (Hput [] w). by rewrite traced_nil.
  - destruct (probe_found st) eqn:Hfound.
    + left. by exists st.
    + right. exists [probe st]. split; [right; by exists st |].
      exact (Hput [probe st] _ eq_refl).
Qed.

Lemma uploadDescription_skipped env cfg reqData folderName w :
  uploadDescription env cfg reqData folderName false w = (None, w).
Proof. reflexivity. Qed.

(** The part of handleUploadComplete after the [defer] statement, with
    the state written out. *)
Lemma completeUpload_eq env cfg reqData chunkDir w :
  completeUpload env cfg reqData chunkDir w
  = let '(assembled, w1) := assembleChunks env chunkDir w in
    match assembled with
    | inl resp => (resp, w1)
    | inr originalFileReader =>
        let folderName :=
          createFolderName (now w1) (cr_Email reqData) (cr_Phone reqData) in
        let finalFilename := filepath.Base (FileName reqData) in
        let '(created, w2) := createNextcloudFolder env cfg folderName w1 in
        if created then
          let '(sent, w3) :=
            uploadToNextcloudFolder env cfg folderName finalFilename
              originalFileReader w2 in
          if sent then
            let '(should, w4) := sessionStep reqData folderName w3 in
            let '(failed, w5) :=
              uploadDescription env cfg reqData folderName should w4 in
            (match failed with
             | Some resp => resp
             | None => fileUploaded folderName finalFilename
             end, w5)
          else (uploadFailed, w3)
        else (folderFailed, w2)
    end.
Proof.
  unfold completeUpload. unfold bind at 1.
  destruct (assembleChunks env chunkDir w) as [[resp|reader] w1]; [reflexivity |].
  unfold bind at 1. unfold time_Now at 1. cbv zeta. unfold bind at 1.
  destruct (createNextcloudFolder env cfg _ w1) as [[] w2]; [| reflexivity].
  cbn [negb]. unfold bind at 1.
  destruct (uploadToNextcloudFolder env cfg _ _ reader w2) as [[] w3]; [| reflexivity].
  cbn [negb]. unfold bind at 1.
  unfold sessionStep.
  destruct (negb (String.eqb (SessionID reqData) "")).
  - destruct (checkAndUpdateSession _ _ _ _ _ w3) as [should w4].
    unfold bind at 1.
    by destruct (uploadDescription env cfg reqData _ should w4) as [[resp|] w5].
  - unfold bind at 1. change (ret true w3) with (true, w3). cbv iota beta.
    by destruct (uploadDescription env cfg reqData _ true w3) as [[resp|] w5].
Qed.

(** The same, path by path: what it answers, what it has sent by then and
    what has become of the state. [evs0] are the file system calls that
    list and open the chunks. *)
Lemma completeUpload_protocol env cfg reqData chunkDir w :
  let folderName := createFolderName (now w) (cr_Email reqData) (cr_Phone reqData) in
  let finalFilename := filepath.Base (FileName reqData) in
  let mkcol st := EvHTTP "MKCOL" (webdavFolderURL env cfg folderName) None st in
  let put sent st :=
    EvHTTP MethodPut (webdavFileURL env cfg folderName finalFilename) sent st in
  ∃ evs0, Forall (λ e, ¬ is_http e) evs0 ∧
    ((∃ resp, (resp = chunksNotFound ∨ resp = chunksNotRead)
              ∧ completeUpload env cfg reqData chunkDir w = (resp, traced w evs0))
     ∨ (∃ sent, (sent = [] ∨ ∃ st, sent = [mkcol st] ∧ folder_acknowledged st = false)
                ∧ completeUpload env cfg reqData chunkDir w
                  = (folderFailed, traced w (evs0 ++ sent)))
     ∨ (∃ s1 sent, folder_acknowledged s1 = true
                   ∧ (sent = [] ∨ ∃ body st, sent = [put body st]
                                              ∧ file_acknowledged st = false)
                   ∧ completeUpload env cfg reqData chunkDir w
                     = (uploadFailed, traced w (evs0 ++ mkcol s1 :: sent)))
     ∨ (∃ reader data s1 s2,
          fst (assembleChunks env chunkDir w) = inr reader
          ∧ io.ReadAll reader = Some data
          ∧ folder_acknowledged s1 = true ∧ file_acknowledged s2 = true
          ∧ completeUpload env cfg reqData chunkDir w
            = let w3 := traced w (evs0 ++ [mkcol s1; put (Some data) s2]) in
              let '(should, w4) := sessionStep reqData folderName w3 in
              let '(failed, w5) :=
                uploadDescription env cfg reqData folderName should w4 in
              (match failed with
               | Some resp => resp
               | None => fileUploaded folderName finalFilename
               end, w5))).
Proof.
  intros folderName finalFilename mkcol put.
  destruct (assembleChunks_quiet env chunkDir w) as (evs0 & Hw1 & Hevs0 & Hresp).
  exists evs0. split; [done |].
  rewrite completeUpload_eq.
  destruct (assembleChunks env chunkDir w) as [[resp|reader] w1]; cbn [fst snd] in *.
  { left. exists resp. split; [by apply Hresp |]. by rewrite Hw1. }
  subst w1. right. cbv zeta.
  change (now (traced w evs0)) with (now w). fold folderName. fold finalFilename.
  destruct (createNextcloudFolder_run env cfg folderName (traced w evs0))
    as [-> | (s1 & ->)].
  { left. exists []. split; [by left |]. by rewrite app_nil_r. }
  rewrite traced_traced. fold (mkcol s1).
  destruct (folder_acknowledged s1) eqn:Hs1; cycle 1.
  { left. exists [mkcol s1]. split; [right; by exists s1 | done]. }
  right.
  destruct (uploadToNextcloudFolder_run env cfg folderName finalFilename reader
              (traced w (evs0 ++ [mkcol s1]))) as [-> | (s2 & -> & Hread)].
  { left. exists s1, []. split; [done |]. split; [by left | done]. }
  rewrite traced_traced, <- app_assoc. cbn [app]. fold (put (io.ReadAll reader) s2).
  destruct (file_acknowledged s2) eqn:Hs2; cycle 1.
  { left. exists s1, [put (io.ReadAll reader) s2]. split; [done |].
    split; [right; by eexists _, _ | done]. }
  right. destruct (io.ReadAll reader) as [data|] eqn:Hdata; cycle 1.
  { rewrite Hread in Hs2 by done. done. }
  by exists reader, data, s1, s2.
Qed.

(* ===================================================================== *)
(** ** What a finalize call sends, and when *)

(** handleUploadComplete: either the request is turned away at once, or
    the part after the [defer] statement runs, and then the deferred call. *)
Lemma handleUploadComplete_cases env cfg r w :
  (∃ resp, (resp = http_Error "Method not allowed" StatusMethodNotAllowed
            ∨ resp = http_Error "Invalid JSON body." StatusBadRequest
            ∨ resp = http_Error "Invalid upload ID." StatusBadRequest)
           ∧ handleUploadComplete env cfg r w = (resp, w))
  ∨ ∃ reqData,
      Decoded r = Some reqData
      ∧ String.eqb (filepath.Clean (filepath.Base (UploadID reqData))) "."
        || String.eqb (filepath.Clean (filepath.Base (UploadID reqData))) ".." = false
      ∧ handleUploadComplete env cfg r w
        = let chunkDir :=
            filepath.Join [UploadTempDir cfg;
                           filepath.Clean (filepath.Base (UploadID reqData))] in
          let '(resp, w1) := completeUpload env cfg reqData chunkDir w in
          (resp, mkWorld (os.RemoveAll chunkDir (fs w1)) (uploadSessions w1) (now w1)
                   (trace w1 ++ [EvRemoveAll chunkDir])).
Proof.
  unfold handleUploadComplete.
  destruct (negb _); [left; eexists; split; [by left | done] |].
  destruct (Decoded r) as [reqData|];
    [| left; eexists; split; [right; by left | done]].
  cbv zeta. destruct (_ || _) eqn:Hvalid;
    [left; eexists; split; [right; by right | done] |].
  right. exists reqData. split; [done |]. split; [done |].
  unfold bind at 1.
  by destruct (completeUpload env cfg reqData _ w) as [resp w1].
Qed.

Lemma http_requests_app evs1 evs2 :
  http_requests (evs1 ++ evs2) = http_requests evs1 ++ http_requests evs2.
Proof. apply omap_app. Qed.

Lemma http_requests_quiet evs : Forall (λ e, ¬ is_http e) evs → http_requests evs = [].
Proof.
  induction 1 as [|e evs He _ IH]; [done |].
  destruct e; first [exact IH | by destruct He].
Qed.

Lemma uploads_app evs1 evs2 : uploads (evs1 ++ evs2) = uploads evs1 ++ uploads evs2.
Proof. apply omap_app. Qed.

Lemma uploads_quiet evs : Forall (λ e, ¬ is_http e) evs → uploads evs = [].
Proof.
  induction 1 as [|e evs He _ IH]; [done |].
  destruct e; first [exact IH | by destruct He].
Qed.

(** The description step, taken or not: it leaves the state but the trace
    as it is, sends the probe and the description at most, in this order,
    and uploads nothing but the description of this request. *)
Lemma uploadDescription_outcome env cfg reqData folderName should w :
  ∃ evs,
    snd (uploadDescription env cfg reqData folderName should w) = traced w evs
    ∧ (fst (uploadDescription env cfg reqData folderName should w) = None
       ∨ fst (uploadDescription env cfg reqData folderName should w)
         = Some descriptionFailed)
    ∧ http_requests evs
      `sublist_of` [("HEAD", webdavFolderURL env cfg folderName +:+ "/descripcion.txt");
                    (MethodPut, webdavFileURL env cfg folderName "descripcion.txt")]
    ∧ (uploads evs = []
       ∨ uploads evs
         = [(webdavFileURL env cfg folderName "descripcion.txt",
             Some (String.list_byte_of_string
                     (createDescriptionContent env (now w) (FileName reqData)
                        (cr_Email reqData) (cr_Phone reqData)
                        (cr_DataOrigin reqData))))]).
Proof.
  destruct should; cycle 1.
  { exists []. rewrite uploadDescription_skipped, traced_nil. cbn.
    repeat split; [by left | apply sublist_nil_l | by left]. }
  destruct (uploadDescription_run env cfg reqData folderName w)
    as [(st & Hst & ->) | (head & Hhead & [-> | (st2 & ->)])]; cbn [fst snd].
  - eexists. split; [done |]. split; [by left |]. split; [| by left].
    cbn. apply sublist_skip, sublist_cons, sublist_nil.
  - exists head. split; [done |]. split; [by right |].
    destruct Hhead as [-> | (st & -> & _)]; cbn.
    + split; [apply sublist_nil_l | by left].
    + split; [apply sublist_skip, sublist_cons, sublist_nil | by left].
  - eexists. split; [done |].
    split; [destruct (file_acknowledged st2); [by left | by right] |].
    destruct Hhead as [-> | (st & -> & _)]; cbn.
    + split; [apply sublist_cons, sublist_skip, sublist_nil | by right].
    + split; [apply sublist_skip, sublist_skip, sublist_nil | by right].
Qed.

(** The session step of handleUploadComplete leaves the trace, the clock
    and the file system as they are. *)
Lemma sessionStep_world reqData folderName w :
  ∃ m, snd (sessionStep reqData folderName w) = mkWorld (fs w) m (now w) (trace w).
Proof.
  unfold sessionStep. destruct (negb _); [apply checkAndUpdateSession_world |].
  exists (uploadSessions w). by destruct w.
Qed.

(** X4: everything a finalize call can have sent when it returns: at most the
    four requests below, each at most once and in this order, all of them
    for the folder named after the time of the call and the email and
    phone of the request. *)
Theorem finalize_requests_in_order
    (env : Env) (cfg : Config) (r : JSONRequest CompleteRequest) (w : World) :
  ∃ evs,
    trace (snd (handleUploadComplete env cfg r w)) = trace w ++ evs
    ∧ http_requests evs
      `sublist_of`
        match Decoded r with
        | None => []
        | Some reqData =>
            let folderName :=
              createFolderName (now w) (cr_Email reqData) (cr_Phone reqData) in
            [("MKCOL", webdavFolderURL env cfg folderName);
             (MethodPut,
              webdavFileURL env cfg folderName (filepath.Base (FileName reqData)));
             ("HEAD", webdavFolderURL env cfg folderName +:+ "/descripcion.txt");
             (MethodPut, webdavFileURL env cfg folderName "descripcion.txt")]
        end.
Proof.
  destruct (handleUploadComplete_cases env cfg r w)
    as [(resp & _ & ->) | (reqData & -> & _ & ->)].
  { exists []. rewrite app_nil_r. split; [done |]. apply sublist_nil_l. }
  cbv zeta. set (chunkDir := filepath.Join _).
  set (folderName := createFolderName _ _ _).
  destruct (completeUpload_protocol env cfg reqData chunkDir w)
    as (evs0 & Hevs0 & [(resp & _ & ->) | [(sent & Hsent & ->)
         | [(s1 & sent & _ & Hsent & ->)
         | (reader & data & s1 & s2 & _ & _ & _ & _ & ->)]]]).
  - exists (evs0 ++ [EvRemoveAll chunkDir]). cbn. rewrite app_assoc.
    split; [done |]. rewrite http_requests_app, http_requests_quiet by done.
    apply sublist_nil_l.
  - exists ((evs0 ++ sent) ++ [EvRemoveAll chunkDir]). cbn. rewrite !app_assoc.
    split; [done |]. rewrite !http_requests_app, http_requests_quiet by done.
    destruct Hsent as [-> | (st & -> & _)]; cbn; [apply sublist_nil_l |].
    apply sublist_skip, sublist_nil_l.
  - eexists ((evs0 ++ _ :: sent) ++ [EvRemoveAll chunkDir]). cbn. rewrite !app_assoc.
    split; [done |]. rewrite !http_requests_app, http_requests_quiet by done.
    destruct Hsent as [-> | (body & st & -> & _)]; cbn.
    + apply sublist_skip, sublist_nil_l.
    + apply sublist_skip, sublist_skip, sublist_nil_l.
  - cbv zeta. fold folderName. set (w3 := traced w _).
    destruct (sessionStep_world reqData folderName w3) as [m Hw4].
    destruct (sessionStep reqData folderName w3) as [should w4]. cbn [snd] in Hw4.
    destruct (uploadDescription_outcome env cfg reqData folderName should w4)
      as (evsD & Hw5 & _ & Hreq & _).
    destruct (uploadDescription env cfg reqData folderName should w4) as [failed w5].
    cbn [snd] in *. subst w5 w4. unfold w3. cbn [trace traced].
    eexists ((evs0 ++ [_; _]) ++ evsD ++ [EvRemoveAll chunkDir]).
    rewrite <- !app_assoc. split; [done |].
    rewrite !http_requests_app, http_requests_quiet by done.
    change (http_requests [EvRemoveAll chunkDir]) with (@nil (string * string)).
    rewrite app_nil_r.
    change (http_requests [_; _]) with
      [("MKCOL", webdavFolderURL env cfg folderName);
       (MethodPut, webdavFileURL env cfg folderName (filepath.Base (FileName reqData)))].
    cbn [app]. by apply sublist_skip, sublist_skip.
Qed.

Lemma folder_acknowledged_true st :
  folder_acknowledged st = true →
  ∃ c, st = Some c ∧ (c = StatusCreated ∨ c = StatusMethodNotAllowed).
Proof.
  destruct st as [c|]; [| done]. cbn.
  intros [H%Z.eqb_eq | H%Z.eqb_eq]%orb_true_iff; exists c; split; auto.
Qed.

Lemma file_acknowledged_true st :
  file_acknowledged st = true →
  ∃ c, st = Some c ∧ (c = StatusCreated ∨ c = StatusNoContent).
Proof.
  destruct st as [c|]; [| done]. cbn.
  intros [H%Z.eqb_eq | H%Z.eqb_eq]%orb_true_iff; exists c; split; auto.
Qed.

(** X5: a finalize call reports success only after the server has acknowledged
    the folder (201 or 405) and then the file (201 or 204), in two requests
    that follow each other; the response names the folder and the base name
    of the file it was stored under. *)
Theorem success_only_after_acknowledged_upload
    (env : Env) (cfg : Config) (r : JSONRequest CompleteRequest) (w : World) :
  StatusCode (fst (handleUploadComplete env cfg r w)) = StatusOK →
  ∃ reqData pre data c1 c2 post,
    Decoded r = Some reqData
    ∧ let folderName :=
        createFolderName (now w) (cr_Email reqData) (cr_Phone reqData) in
      let finalFilename := filepath.Base (FileName reqData) in
      fst (handleUploadComplete env cfg r w) = fileUploaded folderName finalFilename
      ∧ trace (snd (handleUploadComplete env cfg r w))
        = trace w ++ pre
            ++ EvHTTP "MKCOL" (webdavFolderURL env cfg folderName) None (Some c1)
            :: EvHTTP MethodPut (webdavFileURL env cfg folderName finalFilename)
                 (Some data) (Some c2)
            :: post
      ∧ Forall (λ e, ¬ is_http e) pre
      ∧ (c1 = StatusCreated ∨ c1 = StatusMethodNotAllowed)
      ∧ (c2 = StatusCreated ∨ c2 = StatusNoContent).
Proof.
  destruct (handleUploadComplete_cases env cfg r w)
    as [(resp & Hresp & ->) | (reqData & Hd & _ & ->)].
  { cbn [fst]. by destruct Hresp as [-> | [-> | ->]]. }
  cbv zeta. set (chunkDir := filepath.Join _).
  destruct (completeUpload_protocol env cfg reqData chunkDir w)
    as (evs0 & Hevs0 & [(resp & Hresp & ->) | [(sent & _ & ->)
         | [(s1 & sent & _ & _ & ->)
         | (reader & data & s1 & s2 & _ & _ & Hs1 & Hs2 & ->)]]]).
  - cbn [fst]. by destruct Hresp as [-> | ->].
  - done.
  - done.
  - cbv zeta. set (folderName := createFolderName _ _ _). set (w3 := traced w _).
    destruct (sessionStep_world reqData folderName w3) as [m Hw4].
    destruct (sessionStep reqData folderName w3) as [should w4]. cbn [snd] in Hw4.
    destruct (uploadDescription_outcome env cfg reqData folderName should w4)
      as (evsD & Hw5 & Hfailed & _).
    destruct (uploadDescription env cfg reqData folderName should w4) as [failed w5].
    cbn [fst snd] in *. subst w5 w4.
    destruct Hfailed as [-> | ->]; [| done]. intros _.
    apply folder_acknowledged_true in Hs1 as (c1 & -> & Hc1).
    apply file_acknowledged_true in Hs2 as (c2 & -> & Hc2).
    exists reqData, evs0, data, c1, c2, (evsD ++ [EvRemoveAll chunkDir]).
    split; [done |]. split; [done |]. split; [| done].
    unfold w3. cbn [trace traced]. by rewrite <- !app_assoc.
Qed.

Lemma success_only_after_acknowledged_upload_witness :
  let w := snd (handleUploadChunk defaultConfig
                  (mkChunkRequest MethodPost
                     (Some (mkMultipartForm (Some [Byte.x41]) "u1" "0"))) emptyWorld) in
  let r := mkJSONRequest MethodPost
             (Some (mkCompleteRequest "u1" "dir/f.bin" "a@b.c" "" "" "" 0)) in
  fst (handleUploadComplete plainEnv defaultConfig r w) = fileUploaded "0-a_at_b_c" "f.bin"
  ∧ ∃ reqData pre data c1 c2 post,
      Decoded r = Some reqData
      ∧ let folderName :=
          createFolderName (now w) (cr_Email reqData) (cr_Phone reqData) in
        let finalFilename := filepath.Base (FileName reqData) in
        fst (handleUploadComplete plainEnv defaultConfig r w)
        = fileUploaded folderName finalFilename
        ∧ trace (snd (handleUploadComplete plainEnv defaultConfig r w))
          = trace w ++ pre
              ++ EvHTTP "MKCOL" (webdavFolderURL plainEnv defaultConfig folderName)
                   None (Some c1)
              :: EvHTTP MethodPut
                   (webdavFileURL plainEnv defaultConfig folderName finalFilename)
                   (Some data) (Some c2)
              :: post
        ∧ Forall (λ e, ¬ is_http e) pre
        ∧ (c1 = StatusCreated ∨ c1 = StatusMethodNotAllowed)
        ∧ (c2 = StatusCreated ∨ c2 = StatusNoContent).
Proof.
  split; [vm_compute; reflexivity |].
  apply success_only_after_acknowledged_upload. vm_compute. reflexivity.
Defined.

(** The trace of a finalize call: nothing is uploaded at all, or the first
    request is MKCOL for the folder of the call and it was acknowledged. *)
Lemma finalize_trace_shape env cfg r w :
  ∃ evs,
    trace (snd (handleUploadComplete env cfg r w)) = trace w ++ evs
    ∧ (Forall not_put evs
       ∨ ∃ evs0 url c rest,
           Forall (λ e, ¬ is_http e) evs0
           ∧ evs = evs0 ++ EvHTTP "MKCOL" url None (Some c) :: rest
           ∧ (c = StatusCreated ∨ c = StatusMethodNotAllowed)).
Proof.
  assert (Hquiet : ∀ evs, Forall (λ e, ¬ is_http e) evs → Forall not_put evs).
  { intros evs Hevs. eapply Forall_impl; [done |]. by intros []. }
  destruct (handleUploadComplete_cases env cfg r w)
    as [(resp & _ & ->) | (reqData & _ & _ & ->)].
  { exists []. rewrite app_nil_r. split; [done |]. by left. }
  cbv zeta. set (chunkDir := filepath.Join _).
  destruct (completeUpload_protocol env cfg reqData chunkDir w)
    as (evs0 & Hevs0 & [(resp & _ & ->) | [(sent & Hsent & ->)
         | [(s1 & sent & Hs1 & _ & ->)
         | (reader & data & s1 & s2 & _ & _ & Hs1 & _ & ->)]]]).
  - exists (evs0 ++ [EvRemoveAll chunkDir]). cbn. rewrite app_assoc. split; [done |].
    left. apply Forall_app. split; [by apply Hquiet | by repeat constructor].
  - exists ((evs0 ++ sent) ++ [EvRemoveAll chunkDir]). cbn. rewrite !app_assoc.
    split; [done |]. left. rewrite !Forall_app. repeat split; [by apply Hquiet | |].
    + destruct Hsent as [-> | (st & -> & _)]; by repeat constructor.
    + by repeat constructor.
  - apply folder_acknowledged_true in Hs1 as (c1 & -> & Hc1).
    eexists ((evs0 ++ _ :: sent) ++ [EvRemoveAll chunkDir]). cbn. rewrite !app_assoc.
    split; [done |]. right. eexists evs0, _, c1, (sent ++ [EvRemoveAll chunkDir]).
    split; [done |]. split; [| done]. by rewrite <- !app_assoc.
  - cbv zeta. set (folderName := createFolderName _ _ _). set (w3 := traced w _).
    destruct (sessionStep_world reqData folderName w3) as [m Hw4].
    destruct (sessionStep reqData folderName w3) as [should w4]. cbn [snd] in Hw4.
    destruct (uploadDescription_outcome env cfg reqData folderName should w4)
      as (evsD & Hw5 & _).
    destruct (uploadDescription env cfg reqData folderName should w4) as [failed w5].
    cbn [fst snd] in *. subst w5 w4.
    apply folder_acknowledged_true in Hs1 as (c1 & -> & Hc1).
    unfold w3. cbn [trace traced]. eexists. rewrite <- !app_assoc.
    split; [reflexivity |]. right. eexists evs0, _, c1, _. by split.
Qed.

Lemma not_put_split evs1 tl pre url body st post :
  Forall not_put evs1 →
  evs1 ++ tl = pre ++ EvHTTP MethodPut url body st :: post →
  ∃ pre', pre = evs1 ++ pre' ∧ tl = pre' ++ EvHTTP MethodPut url body st :: post.
Proof.
  revert pre. induction evs1 as [|e evs1 IH]; intros pre Hall Heq.
  - by exists pre.
  - inversion_clear Hall as [|?? He Hrest]. destruct pre as [|e' pre].
    + cbn in Heq. injection Heq as -> _. by cbn in He.
    + cbn in Heq. injection Heq as <- Heq.
      destruct (IH pre Hrest Heq) as (pre' & -> & ->). by exists pre'.
Qed.

(** X6: during a finalize call nothing is uploaded before the folder has been
    acknowledged: every PUT in the trace of the call comes after a MKCOL
    that was answered with 201 or 405. *)
Theorem file_sent_only_after_folder
    (env : Env) (cfg : Config) (r : JSONRequest CompleteRequest) (w : World)
    (pre post : list Event) (url : string) (body : option bytes) (st : option Z) :
  trace (snd (handleUploadComplete env cfg r w))
  = trace w ++ pre ++ EvHTTP MethodPut url body st :: post →
  ∃ pre1 folderURL c pre2,
    pre = pre1 ++ EvHTTP "MKCOL" folderURL None (Some c) :: pre2
    ∧ (c = StatusCreated ∨ c = StatusMethodNotAllowed).
Proof.
  destruct (finalize_trace_shape env cfg r w)
    as (evs & -> & [Hnone | (evs0 & folderURL & c & rest & Hevs0 & -> & Hc)]);
    intros Heq%app_inv_head.
  - rewrite Heq in Hnone. apply Forall_app in Hnone as [_ Hnone].
    inversion_clear Hnone as [|?? He _]. by cbn in He.
  - apply not_put_split in Heq as (pre' & -> & Heq);
      [| eapply Forall_impl; [done |]; by intros []].
    destruct pre' as [|e pre']; [discriminate |].
    cbn in Heq. injection Heq as <- _. by exists evs0, folderURL, c, pre'.
Qed.

Lemma file_sent_only_after_folder_witness :
  let w := snd (handleUploadChunk defaultConfig
                  (mkChunkRequest MethodPost
                     (Some (mkMultipartForm (Some [Byte.x41]) "u1" "0"))) emptyWorld) in
  let r := mkJSONRequest MethodPost
             (Some (mkCompleteRequest "u1" "f.bin" "a@b.c" "" "" "" 0)) in
  ∃ pre1 folderURL c pre2,
    [EvReadDir "/tmp/nextcloud-public-uploader/u1";
     EvOpen "/tmp/nextcloud-public-uploader/u1/0";
     EvHTTP "MKCOL"
       "https://cloud.example/remote.php/dav/files/user/uploads/0-a_at_b_c"
       None (Some 201)]
    = pre1 ++ EvHTTP "MKCOL" folderURL None (Some c) :: pre2
    ∧ (c = StatusCreated ∨ c = StatusMethodNotAllowed).
Proof.
  cbv zeta.
  eapply (file_sent_only_after_folder fullEnv defaultConfig
            (mkJSONRequest MethodPost
               (Some (mkCompleteRequest "u1" "f.bin" "a@b.c" "" "" "" 0)))
            (snd (handleUploadChunk defaultConfig
                    (mkChunkRequest MethodPost
                       (Some (mkMultipartForm (Some [Byte.x41]) "u1" "0"))) emptyWorld))
            _ [EvRemoveAll "/tmp/nextcloud-public-uploader/u1"]
            "https://cloud.example/remote.php/dav/files/user/uploads/0-a_at_b_c/f.bin"
            (Some [Byte.x41]) (Some 507)).
  vm_compute. reflexivity.
Defined.

(** X7: what a finalize call uploads: nothing; or the file, under the base name
    of the requested file name in the folder of the call; or the file with
    its content read and then the description, which is
    createDescriptionContent of the file name, email, phone and origin of
    this very request. *)
Theorem finalize_uploads_file_then_description
    (env : Env) (cfg : Config) (r : JSONRequest CompleteRequest) (w : World) :
  ∃ evs,
    trace (snd (handleUploadComplete env cfg r w)) = trace w ++ evs
    ∧ (uploads evs = []
       ∨ ∃ reqData,
           Decoded r = Some reqData
           ∧ let folderName :=
               createFolderName (now w) (cr_Email reqData) (cr_Phone reqData) in
             let file :=
               webdavFileURL env cfg folderName (filepath.Base (FileName reqData)) in
             let description t :=
               (webdavFileURL env cfg folderName "descripcion.txt",
                Some (String.list_byte_of_string
                        (createDescriptionContent env t (FileName reqData)
                           (cr_Email reqData) (cr_Phone reqData)
                           (cr_DataOrigin reqData)))) in
             (∃ body, uploads evs = [(file, body)])
             ∨ ∃ data t, uploads evs = [(file, Some data); description t]).
Proof.
  destruct (handleUploadComplete_cases env cfg r w)
    as [(resp & _ & ->) | (reqData & Hd & _ & ->)].
  { exists []. rewrite app_nil_r. split; [done |]. by left. }
  cbv zeta. set (chunkDir := filepath.Join _).
  destruct (completeUpload_protocol env cfg reqData chunkDir w)
    as (evs0 & Hevs0 & [(resp & _ & ->) | [(sent & Hsent & ->)
         | [(s1 & sent & _ & Hsent & ->)
         | (reader & data & s1 & s2 & _ & _ & _ & _ & ->)]]]).
  - exists (evs0 ++ [EvRemoveAll chunkDir]). cbn. rewrite app_assoc. split; [done |].
    left. by rewrite uploads_app, uploads_quiet.
  - exists ((evs0 ++ sent) ++ [EvRemoveAll chunkDir]). cbn. rewrite !app_assoc.
    split; [done |]. left. rewrite !uploads_app, uploads_quiet by done.
    by destruct Hsent as [-> | (st & -> & _)].
  - eexists ((evs0 ++ _ :: sent) ++ [EvRemoveAll chunkDir]). cbn. rewrite !app_assoc.
    split; [done |]. rewrite !uploads_app, uploads_quiet by done.
    destruct Hsent as [-> | (body & st & -> & _)]; [by left |].
    right. exists reqData. split; [done |]. left. by exists body.
  - cbv zeta. set (folderName := createFolderName _ _ _). set (w3 := traced w _).
    destruct (sessionStep_world reqData folderName w3) as [m Hw4].
    destruct (sessionStep reqData folderName w3) as [should w4]. cbn [snd] in Hw4.
    destruct (uploadDescription_outcome env cfg reqData folderName should w4)
      as (evsD & Hw5 & _ & _ & Hup).
    destruct (uploadDescription env cfg reqData folderName should w4) as [failed w5].
    cbn [fst snd] in *. subst w5 w4. cbn [now] in Hup.
    unfold w3. cbn [trace traced].
    eexists ((evs0 ++ [_; _]) ++ evsD ++ [EvRemoveAll chunkDir]).
    rewrite <- !app_assoc. split; [done |].
    right. exists reqData. split; [done |]. cbv zeta. fold folderName.
    rewrite !uploads_app, uploads_quiet by done.
    change (uploads [EvRemoveAll chunkDir]) with (@nil (string * option bytes)).
    rewrite app_nil_r.
    destruct Hup as [-> | ->]; [left; by eexists | right; by eexists _, _].
Qed.

(** X8: the session of a finalize call is counted only after the file has
    been uploaded: a call that answers with anything but success or the
    failure of the description upload leaves the whole registry as it was. *)
Theorem registry_changes_only_after_upload
    (env : Env) (cfg : Config) (r : JSONRequest CompleteRequest) (w : World) :
  StatusCode (fst (handleUploadComplete env cfg r w)) ≠ StatusOK →
  fst (handleUploadComplete env cfg r w) ≠ descriptionFailed →
  uploadSessions (snd (handleUploadComplete env cfg r w)) = uploadSessions w.
Proof.
  destruct (handleUploadComplete_cases env cfg r w)
    as [(resp & _ & ->) | (reqData & _ & _ & ->)]; [done |].
  cbv zeta. set (chunkDir := filepath.Join _).
  destruct (completeUpload_protocol env cfg reqData chunkDir w)
    as (evs0 & Hevs0 & [(resp & _ & ->) | [(sent & _ & ->)
         | [(s1 & sent & _ & _ & ->)
         | (reader & data & s1 & s2 & _ & _ & _ & _ & ->)]]]); [done.. |].
  cbv zeta. set (folderName := createFolderName _ _ _). set (w3 := traced w _).
  destruct (sessionStep reqData folderName w3) as [should w4].
  destruct (uploadDescription_outcome env cfg reqData folderName should w4)
    as (evsD & _ & Hfailed & _).
  destruct (uploadDescription env cfg reqData folderName should w4) as [failed w5].
  cbn [fst snd] in *. by destruct Hfailed as [-> | ->].
Qed.

Lemma registry_changes_only_after_upload_witness :
  let w := snd (handleUploadSession
                  (mkJSONRequest MethodPost (Some (mkSessionRequest "s" "a@b.c" "" "" 1)))
                  (snd (handleUploadChunk defaultConfig
                          (mkChunkRequest MethodPost
                             (Some (mkMultipartForm (Some [Byte.x41]) "u1" "0")))
                          emptyWorld))) in
  let r := mkJSONRequest MethodPost
             (Some (mkCompleteRequest "u1" "f.bin" "a@b.c" "" "" "s" 1)) in
  fst (handleUploadComplete fullEnv defaultConfig r w) = uploadFailed
  ∧ uploadSessions (snd (handleUploadComplete fullEnv defaultConfig r w))
    = uploadSessions w.
Proof.
  split; [vm_compute; reflexivity |].
  apply registry_changes_only_after_upload; vm_compute; discriminate.
Defined.

(** X9: a finalize call that cannot list or open its chunk files sends nothing
    to the server. *)
Theorem unread_chunks_send_nothing
    (env : Env) (cfg : Config) (r : JSONRequest CompleteRequest) (w : World) :
  fst (handleUploadComplete env cfg r w) = chunksNotFound
  ∨ fst (handleUploadComplete env cfg r w) = chunksNotRead →
  ∃ evs, trace (snd (handleUploadComplete env cfg r w)) = trace w ++ evs
         ∧ Forall (λ e, ¬ is_http e) evs.
Proof.
  destruct (handleUploadComplete_cases env cfg r w)
    as [(resp & _ & ->) | (reqData & _ & _ & ->)].
  { intros _. exists []. by rewrite app_nil_r. }
  cbv zeta. set (chunkDir := filepath.Join _).
  destruct (completeUpload_protocol env cfg reqData chunkDir w)
    as (evs0 & Hevs0 & [(resp & _ & ->) | [(sent & _ & ->)
         | [(s1 & sent & _ & _ & ->)
         | (reader & data & s1 & s2 & _ & _ & _ & _ & ->)]]]).
  - intros _. exists (evs0 ++ [EvRemoveAll chunkDir]). cbn. rewrite app_assoc.
    split; [done |]. apply Forall_app. split; [done |]. by repeat constructor; intros [].
  - by intros [|].
  - by intros [|].
  - cbv zeta. set (folderName := createFolderName _ _ _). set (w3 := traced w _).
    destruct (sessionStep reqData folderName w3) as [should w4].
    destruct (uploadDescription_outcome env cfg reqData folderName should w4)
      as (evsD & _ & Hfailed & _).
    destruct (uploadDescription env cfg reqData folderName should w4) as [failed w5].
    cbn [fst snd] in *. by destruct Hfailed as [-> | ->]; intros [|].
Qed.

Lemma unread_chunks_send_nothing_witness :
  let r := mkJSONRequest MethodPost
             (Some (mkCompleteRequest "u1" "f.bin" "a@b.c" "" "" "" 0)) in
  fst (handleUploadComplete plainEnv defaultConfig r emptyWorld) = chunksNotFound
  ∧ ∃ evs, trace (snd (handleUploadComplete plainEnv defaultConfig r emptyWorld))
           = trace emptyWorld ++ evs
           ∧ Forall (λ e, ¬ is_http e) evs.
Proof.
  split; [vm_compute; reflexivity |].
  apply unread_chunks_send_nothing. left. vm_compute. reflexivity.
Defined.

(* ===================================================================== *)
(** ** The scratch root and the uploads in it *)

(** The scratch directory of an upload whose identifier is a name is the
    entry of that name in the scratch root. *)
Lemma chunkDir_in_root f tmp n root :
  os.resolve f tmp = Some root → is_name n →
  os.resolve f (filepath.Join [tmp; n]) = Some (root ++ [n]).
Proof. intros Htmp Hn. erewrite resolve_Join by done. by rewrite descend_name. Qed.

(** For an identifier of slashes it is the scratch root itself. *)
Lemma chunkDir_is_root f tmp root :
  os.resolve f tmp = Some root → os.resolve f (filepath.Join [tmp; "/"]) = Some root.
Proof.
  intros Htmp. erewrite resolve_Join by done. unfold descend.
  change (strings.SplitSlash "/") with [""; ""]. cbn [fold_left].
  change (os.walk (os.walk (reverse root) "") "") with (reverse root).
  by rewrite reverse_involutive.
Qed.

(** X10: the sanitizing of the upload identifier does what it is there for:
    whatever the client sends as uploadId, the directory that the chunk
    and finalize handlers work in, if the identifier passes their check, is
    an entry of the scratch root named by the last element of the
    identifier, or, for an identifier of slashes only, the scratch root
    itself. It is never outside the scratch root. *)
Theorem upload_directory_inside_scratch_root
    (f : os.FS) (tmp uploadID : string) (root : list string) :
  let cleanUploadID := filepath.Clean (filepath.Base uploadID) in
  let chunkDir := filepath.Join [tmp; cleanUploadID] in
  String.eqb cleanUploadID "." || String.eqb cleanUploadID ".." = false →
  os.resolve f tmp = Some root →
  (is_name cleanUploadID ∧ cleanUploadID = filepath.Base uploadID
   ∧ os.resolve f chunkDir = Some (root ++ [cleanUploadID]))
  ∨ (cleanUploadID = "/" ∧ os.resolve f chunkDir = Some root).
Proof.
  intros cleanUploadID chunkDir Hvalid Htmp.
  destruct (valid_upload_id uploadID Hvalid) as [Hslash | Hname].
  - right. split; [done |]. unfold chunkDir. fold cleanUploadID in Hslash.
    rewrite Hslash. by apply chunkDir_is_root.
  - left. split; [done |]. split; [apply Clean_Base |]. by apply chunkDir_in_root.
Qed.

Lemma upload_directory_inside_scratch_root_witness :
  os.resolve (fs emptyWorld)
    (filepath.Join ["/tmp/nextcloud-public-uploader/";
                    filepath.Clean (filepath.Base "../../etc/passwd")])
  = Some ["tmp"; "nextcloud-public-uploader"; "passwd"].
Proof.
  destruct (upload_directory_inside_scratch_root (fs emptyWorld)
              "/tmp/nextcloud-public-uploader/" "../../etc/passwd"
              ["tmp"; "nextcloud-public-uploader"]) as [(_ & _ & H) | [H _]].
  - reflexivity.
  - reflexivity.
  - exact H.
  - discriminate H.
Defined.

Lemma name_is_valid n :
  is_name n → String.eqb n "." || String.eqb n ".." = false.
Proof.
  intros (_ & _ & H1 & H2).
  by rewrite (proj2 (String.eqb_neq _ _) H1), (proj2 (String.eqb_neq _ _) H2).
Qed.

(** The file system after a finalize call whose identifier passes the
    check: the one before it, without the scratch directory of the upload. *)
Lemma handleUploadComplete_fs env cfg reqData w :
  let cleanUploadID := filepath.Clean (filepath.Base (UploadID reqData)) in
  let chunkDir := filepath.Join [UploadTempDir cfg; cleanUploadID] in
  String.eqb cleanUploadID "." || String.eqb cleanUploadID ".." = false →
  fs (snd (handleUploadComplete env cfg (mkJSONRequest MethodPost (Some reqData)) w))
  = os.RemoveAll chunkDir (fs w).
Proof.
  intros cleanUploadID chunkDir Hvalid.
  rewrite handleUploadComplete_run by done. fold cleanUploadID. fold chunkDir.
  pose proof (grown_completeUpload w env cfg reqData chunkDir w (grown_refl _ w))
    as (Hfs & _).
  destruct (completeUpload env cfg reqData chunkDir w) as [resp w1].
  cbn [snd fs] in *. by rewrite Hfs.
Qed.

Lemma RemoveAll_cwd path f : os.cwd (os.RemoveAll path f) = os.cwd f.
Proof.
  unfold os.RemoveAll. destruct (String.eqb path ""); [done |].
  destruct (os.endsWithDot path); [done |]. by destruct (os.resolve f path).
Qed.

Lemma RemoveAll_other f path dir q :
  os.resolve f path = Some dir → ¬ dir `prefix_of` q →
  os.files (os.RemoveAll path f) !! q = os.files f !! q.
Proof.
  intros Hdir Hq. unfold os.RemoveAll. destruct (String.eqb path ""); [done |].
  destruct (os.endsWithDot path); [done |]. rewrite Hdir. cbn [os.files].
  destruct (os.files f !! q) as [x|] eqn:Hx.
  - by apply map_lookup_filter_Some_2.
  - apply map_lookup_filter_None_2. by left.
Qed.

(** X11: a finalize call for an upload whose identifier is a name removes the
    directory of that upload and nothing else: every path outside it holds
    after the call what it held before, the chunks of other uploads
    included. *)
Theorem finalize_leaves_other_uploads
    (env : Env) (cfg : Config) (w : World) (reqData : CompleteRequest)
    (root q : list string) :
  let cleanUploadID := filepath.Clean (filepath.Base (UploadID reqData)) in
  let w' :=
    snd (handleUploadComplete env cfg (mkJSONRequest MethodPost (Some reqData)) w) in
  is_name cleanUploadID →
  os.resolve (fs w) (UploadTempDir cfg) = Some root →
  ¬ (root ++ [cleanUploadID]) `prefix_of` q →
  os.files (fs w') !! q = os.files (fs w) !! q.
Proof.
  intros cleanUploadID w' Hname Htmp Hq. unfold w'.
  rewrite handleUploadComplete_fs by by apply name_is_valid.
  eapply RemoveAll_other; [| done]. by apply chunkDir_in_root.
Qed.

Lemma finalize_leaves_other_uploads_witness :
  let w := snd (handleUploadChunk defaultConfig
                  (mkChunkRequest MethodPost
                     (Some (mkMultipartForm (Some [Byte.x42]) "u2" "0")))
                  (snd (handleUploadChunk defaultConfig
                          (mkChunkRequest MethodPost
                             (Some (mkMultipartForm (Some [Byte.x41]) "u1" "0")))
                          emptyWorld))) in
  let w' := snd (handleUploadComplete plainEnv defaultConfig
                   (mkJSONRequest MethodPost
                      (Some (mkCompleteRequest "u1" "f.bin" "a@b.c" "" "" "" 0))) w) in
  os.files (fs w') !! ["tmp"; "nextcloud-public-uploader"; "u2"; "0"]
  = Some (os.File [Byte.x42])
  ∧ os.files (fs w') !! ["tmp"; "nextcloud-public-uploader"; "u1"; "0"] = None.
Proof.
  cbv zeta. split; [| vm_compute; reflexivity].
  rewrite (finalize_leaves_other_uploads plainEnv defaultConfig _
             (mkCompleteRequest "u1" "f.bin" "a@b.c" "" "" "" 0)
             ["tmp"; "nextcloud-public-uploader"]).
  - vm_compute. reflexivity.
  - repeat split; done.
  - vm_compute. reflexivity.
  - intros [k Hk]. discriminate Hk.
Defined.



Lemma RemoveAll_again path f : os.RemoveAll path (os.RemoveAll path f) = os.RemoveAll path f.
Proof.
  unfold os.RemoveAll at 1. destruct (String.eqb_spec path "") as [-> | Hne]; [done |].
  destruct (os.endsWithDot path) eqn:Hdot; [done |].
  rewrite (resolve_cwd _ f) by apply RemoveAll_cwd.
  destruct (os.resolve f path) as [p|] eqn:Hp; [| done].
  unfold os.RemoveAll. rewrite (proj2 (String.eqb_neq _ _) Hne), Hdot, Hp.
  cbn [os.files os.cwd]. f_equal. apply map_filter_id.
  intros q x Hq. by apply map_lookup_filter_Some in Hq as [_ Hq].
Qed.

(** X13: finalizing consumes the upload: a second finalize call for the same
    upload, whatever else it asks for and whatever the first one answered,
    finds no chunks, answers 500 and sends nothing to the server. *)
Theorem second_finalize_finds_no_chunks
    (env env' : Env) (cfg : Config) (w : World) (req1 req2 : CompleteRequest) :
  let cleanUploadID := filepath.Clean (filepath.Base (UploadID req1)) in
  let chunkDir := filepath.Join [UploadTempDir cfg; cleanUploadID] in
  let w1 :=
    snd (handleUploadComplete env cfg (mkJSONRequest MethodPost (Some req1)) w) in
  is_name cleanUploadID →
  filepath.Clean (filepath.Base (UploadID req2)) = cleanUploadID →
  handleUploadComplete env' cfg (mkJSONRequest MethodPost (Some req2)) w1
  = (chunksNotFound, traced w1 [EvReadDir chunkDir; EvRemoveAll chunkDir]).
Proof.
  intros cleanUploadID chunkDir w1 Hname Hsame.
  pose proof (name_is_valid _ Hname) as Hvalid.
  assert (Hfs : fs w1 = os.RemoveAll chunkDir (fs w))
    by by apply handleUploadComplete_fs.
  destruct (chunkDir_resolve (fs w) (UploadTempDir cfg) cleanUploadID Hname)
    as [q Hdir]. fold chunkDir in Hdir.
  destruct (named_upload_removable (fs w) (UploadTempDir cfg) cleanUploadID Hname)
    as [Hdot _]. fold chunkDir in Hdot.
  assert (Hgone : os.ReadDir chunkDir (fs w1) = None).
  { unfold os.ReadDir. rewrite (resolve_cwd _ (fs w)), Hdir
      by (rewrite Hfs; apply RemoveAll_cwd).
    assert (os.stat (os.files (fs w1)) (q ++ [cleanUploadID]) = None) as ->; [| done].
    replace (os.stat (os.files (fs w1)) (q ++ [cleanUploadID]))
      with (os.files (fs w1) !! (q ++ [cleanUploadID])) by by destruct q.
    rewrite Hfs. by eapply RemoveAll_gone. }
  rewrite handleUploadComplete_run by by rewrite Hsame.
  rewrite Hsame. fold cleanUploadID. fold chunkDir.
  rewrite completeUpload_eq.
  unfold assembleChunks. unfold bind at 1. unfold os_ReadDir, bind, emit, get_fs, ret.
  cbn [fs snd fst]. rewrite Hgone. cbn [fs uploadSessions now trace].
  unfold traced. rewrite <- app_assoc. cbn [app].
  f_equal. f_equal. rewrite Hfs. apply RemoveAll_again.
Qed.

Lemma second_finalize_finds_no_chunks_witness :
  let w := snd (handleUploadChunk defaultConfig
                  (mkChunkRequest MethodPost
                     (Some (mkMultipartForm (Some [Byte.x41]) "u1" "0"))) emptyWorld) in
  let first := mkCompleteRequest "u1" "f.bin" "a@b.c" "" "" "" 0 in
  let w1 := snd (handleUploadComplete plainEnv defaultConfig
                   (mkJSONRequest MethodPost (Some first)) w) in
  StatusCode (fst (handleUploadComplete plainEnv defaultConfig
                     (mkJSONRequest MethodPost (Some first)) w)) = StatusOK
  ∧ handleUploadComplete plainEnv defaultConfig
      (mkJSONRequest MethodPost (Some (mkCompleteRequest "x/u1" "f.bin" "" "" "" "" 0))) w1
    = (chunksNotFound,
       traced w1 [EvReadDir "/tmp/nextcloud-public-uploader/u1";
                  EvRemoveAll "/tmp/nextcloud-public-uploader/u1"]).
Proof.
  cbv zeta. split; [vm_compute; reflexivity |].
  apply (second_finalize_finds_no_chunks plainEnv plainEnv defaultConfig _
           (mkCompleteRequest "u1" "f.bin" "a@b.c" "" "" "" 0)
           (mkCompleteRequest "x/u1" "f.bin" "" "" "" "" 0)).
  - repeat split; done.
  - reflexivity.
Defined.

(** X14: a scratch directory without entries is no error: the finalize call
    goes on with an empty stream, and if it uploads anything, the first
    thing it uploads is a file of zero bytes. *)
Theorem empty_directory_uploads_empty_file
    (env : Env) (cfg : Config) (w : World) (reqData : CompleteRequest) :
  let cleanUploadID := filepath.Clean (filepath.Base (UploadID reqData)) in
  let chunkDir := filepath.Join [UploadTempDir cfg; cleanUploadID] in
  sorts_by_key (sort_Slice env) →
  String.eqb cleanUploadID "." || String.eqb cleanUploadID ".." = false →
  os.ReadDir chunkDir (fs w) = Some [] →
  fst (assembleChunks env chunkDir w) = inr (io.MultiReader [])
  ∧ ∃ evs,
      trace (snd (handleUploadComplete env cfg
                    (mkJSONRequest MethodPost (Some reqData)) w))
      = trace w ++ evs
      ∧ first_put_carries [] evs.
Proof.
  intros cleanUploadID chunkDir Hsort Hvalid Hempty.
  assert (Hreader : fst (assembleChunks env chunkDir w) = inr (io.MultiReader [])).
  { unfold assembleChunks. unfold bind at 1.
    unfold os_ReadDir, bind, emit, get_fs, ret. cbn [fs snd fst]. rewrite Hempty.
    destruct (Hsort strconv.Atoi []) as [Hperm _].
    apply Permutation_nil_r in Hperm.
    change (λ a b, strconv.Atoi a <? strconv.Atoi b) with chunkLess in Hperm.
    by rewrite Hperm. }
  split; [done |].
  by apply (handleUploadComplete_first_put env cfg reqData w (io.MultiReader [])).
Qed.

Lemma empty_directory_uploads_empty_file_witness :
  let w := mkWorld (os.mkFS {[ ["tmp"] := os.Dir;
                               ["tmp"; "nextcloud-public-uploader"] := os.Dir;
                               ["tmp"; "nextcloud-public-uploader"; "u1"] := os.Dir ]}
                      ["app"]) ∅ 0 [] in
  let r := mkJSONRequest MethodPost
             (Some (mkCompleteRequest "u1" "f.bin" "a@b.c" "" "" "" 0)) in
  uploads (trace (snd (handleUploadComplete plainEnv defaultConfig r w)))
  = [("https://cloud.example/remote.php/dav/files/user/uploads/0-a_at_b_c/f.bin",
      Some []);
     ("https://cloud.example/remote.php/dav/files/user/uploads/0-a_at_b_c/descripcion.txt",
      Some (String.list_byte_of_string
              (createDescriptionContent plainEnv 0 "f.bin" "a@b.c" "" "")))]
  ∧ fst (assembleChunks plainEnv "/tmp/nextcloud-public-uploader/u1" w)
    = inr (io.MultiReader [])
  ∧ ∃ evs,
      trace (snd (handleUploadComplete plainEnv defaultConfig r w)) = trace w ++ evs
      ∧ first_put_carries [] evs.
Proof.
  cbv zeta. split; [vm_compute; reflexivity |].
  apply (empty_directory_uploads_empty_file plainEnv defaultConfig _
           (mkCompleteRequest "u1" "f.bin" "a@b.c" "" "" "" 0)).
  - apply insertion_sort_sorts_by_key.
  - reflexivity.
  - vm_compute. reflexivity.
Defined.

(* ===================================================================== *)
(** ** What a chunk upload does to the file system *)

Lemma mkdirs_keeps rest : ∀ m at_ m' q x,
  os.mkdirs m at_ rest = Some m' → m !! q = Some x → m' !! q = Some x.
Proof.
  induction rest as [|e rest IH]; intros m at_ m' q x; cbn.
  - by intros [= <-].
  - destruct (m !! (at_ ++ [e])) as [[c|]|] eqn:He; [done | by apply IH |].
    intros Hmk Hq. eapply IH; [done |].
    rewrite lookup_insert_ne; [done |]. intros <-. congruence.
Qed.

Lemma MkdirAll_keeps path f f' q x :
  os.MkdirAll path f = Some f' → os.files f !! q = Some x → os.files f' !! q = Some x.
Proof.
  unfold os.MkdirAll. destruct (os.resolve f path); [| done].
  destruct (os.mkdirs _ _ _) eqn:Hmk; [| done]. intros [= <-]. cbn.
  by eapply mkdirs_keeps.
Qed.

(** os.Create succeeds where the parent is a directory and the name is not
    one. *)
Lemma Create_inv name f f' dst :
  os.Create name f = Some (f', dst) →
  os.resolve f name = Some dst ∧ dst ≠ []
  ∧ os.stat (os.files f) (removelast dst) = Some os.Dir
  ∧ os.files f !! dst ≠ Some os.Dir
  ∧ f' = os.mkFS (<[dst := os.File []]> (os.files f)) (os.cwd f).
Proof.
  unfold os.Create. destruct (os.resolve f name) as [p|]; [| done].
  destruct p as [|e p]; [done |].
  destruct (os.stat (os.files f) (removelast (e :: p))) as [[]|] eqn:Hparent;
    try done.
  change (os.stat (os.files f) (e :: p)) with (os.files f !! (e :: p)).
  destruct (os.files f !! (e :: p)) as [[]|] eqn:Hfile; try done;
    intros [= <- <-]; repeat split; try done; congruence.
Qed.

(** handleUploadChunk turns the request away and does nothing, or gets as
    far as the file system. *)
Lemma handleUploadChunk_cases cfg r w :
  (∃ resp, (StatusCode resp = StatusBadRequest
            ∨ StatusCode resp = StatusMethodNotAllowed)
           ∧ handleUploadChunk cfg r w = (resp, w))
  ∨ ∃ file uploadID index,
      r = mkChunkRequest MethodPost (Some (mkMultipartForm (Some file) uploadID index))
      ∧ String.eqb (filepath.Clean (filepath.Base uploadID)) "."
        || String.eqb (filepath.Clean (filepath.Base uploadID)) ".." = false.
Proof.
  unfold handleUploadChunk. destruct r as [method form]. cbn [ch_Method Form].
  destruct (String.eqb_spec method MethodPost) as [-> | _]; cbn [negb];
    [| left; eexists; split; [| done]; by right].
  destruct form as [[[file|] uploadID index]|]; cbn [dataFile uploadId chunkIndex];
    [| left; eexists; (split; [| done]); by left ..].
  cbv zeta. destruct (_ || _) eqn:Hvalid;
    [left; eexists; (split; [| done]); by left |].
  right. by exists file, uploadID, index.
Qed.

(** X15: a chunk upload never removes anything and never turns a file into a
    directory or a directory into a file: whatever the request and its
    outcome, a path that exists before the call exists after it, with the
    same node, or, for the one file that the call writes, with new
    content. *)
Theorem chunk_upload_removes_nothing
    (cfg : Config) (r : ChunkRequest) (w : World) (q : list string) (x : os.node) :
  os.files (fs w) !! q = Some x →
  ∃ x', os.files (fs (snd (handleUploadChunk cfg r w))) !! q = Some x'
        ∧ (x' = x ∨ ∃ c c', x = os.File c ∧ x' = os.File c').
Proof.
  intros Hq.
  destruct (handleUploadChunk_cases cfg r w)
    as [(resp & _ & ->) | (file & uploadID & index & -> & Hvalid)].
  { exists x. split; [done | by left]. }
  rewrite handleUploadChunk_run by done.
  destruct (os.MkdirAll _ (fs w)) as [f1|] eqn:Hmk; cbn [snd fs];
    [| exists x; split; [done | by left]].
  pose proof (MkdirAll_keeps _ _ _ _ _ Hmk Hq) as Hq1.
  destruct (os.Create _ f1) as [[f2 dst]|] eqn:Hcr; cbn [snd fs os.files];
    [| exists x; split; [done | by left]].
  apply Create_inv in Hcr as (_ & _ & _ & Hfile & ->). cbn [os.files].
  rewrite insert_insert_eq. destruct (decide (dst = q)) as [-> | Hne].
  - exists (os.File file). rewrite lookup_insert_eq. split; [done |].
    right. destruct x as [c|]; [by exists c, file | done].
  - exists x. rewrite lookup_insert_ne by done. split; [done | by left].
Qed.

Lemma chunk_upload_removes_nothing_witness :
  let w := snd (handleUploadChunk defaultConfig
                  (mkChunkRequest MethodPost
                     (Some (mkMultipartForm (Some [Byte.x41]) "u1" "0"))) emptyWorld) in
  let w' := snd (handleUploadChunk defaultConfig
                   (mkChunkRequest MethodPost
                      (Some (mkMultipartForm (Some [Byte.x42]) "u1" "1"))) w) in
  os.files (fs w) !! ["tmp"; "nextcloud-public-uploader"; "u1"; "0"]
  = Some (os.File [Byte.x41])
  ∧ ∃ x', os.files (fs w') !! ["tmp"; "nextcloud-public-uploader"; "u1"; "0"] = Some x'
          ∧ (x' = os.File [Byte.x41] ∨ ∃ c c', os.File [Byte.x41] = os.File c ∧ x' = os.File c').
Proof.
  cbv zeta. split; [vm_compute; reflexivity |].
  apply chunk_upload_removes_nothing. vm_compute. reflexivity.
Defined.

(** X16: a chunk upload is a local matter: it sends nothing to the WebDAV
    server and leaves the session registry, the clock and the working
    directory alone, whatever the request and its outcome. *)
Theorem chunk_upload_is_local (cfg : Config) (r : ChunkRequest) (w : World) :
  let w' := snd (handleUploadChunk cfg r w) in
  uploadSessions w' = uploadSessions w
  ∧ now w' = now w
  ∧ os.cwd (fs w') = os.cwd (fs w)
  ∧ ∃ evs, trace w' = trace w ++ evs ∧ Forall (λ e, ¬ is_http e) evs.
Proof.
  destruct (handleUploadChunk_cases cfg r w)
    as [(resp & _ & ->) | (file & uploadID & index & -> & Hvalid)]; cbv zeta.
  { repeat split. exists []. by rewrite app_nil_r. }
  rewrite handleUploadChunk_run by done.
  destruct (os.MkdirAll _ (fs w)) as [f1|] eqn:Hmk; cbn [snd fs uploadSessions now trace].
  - pose proof (MkdirAll_cwd _ _ _ Hmk) as Hcwd.
    destruct (os.Create _ f1) as [[f2 dst]|] eqn:Hcr;
      cbn [snd fs uploadSessions now trace os.cwd].
    + apply Create_inv in Hcr as (_ & _ & _ & _ & ->). repeat split; [done |].
      eexists. rewrite <- !app_assoc. split; [done |]. by repeat constructor; intros [].
    + repeat split; [done |].
      eexists. rewrite <- !app_assoc. split; [done |]. by repeat constructor; intros [].
  - repeat split. eexists. split; [done |]. by repeat constructor; intros [].
Qed.

(** X17: with an index that is a plain name, and an identifier whose last
    element is one, a chunk that is answered with 200 is in the file named
    by the index in the directory named by the identifier in the scratch
    root, and no other file has changed. *)
Theorem chunk_stored_in_upload_directory
    (cfg : Config) (w : World) (uploadID index : string) (file : bytes)
    (root : list string) :
  let cleanUploadID := filepath.Clean (filepath.Base uploadID) in
  let posted :=
    handleUploadChunk cfg
      (mkChunkRequest MethodPost (Some (mkMultipartForm (Some file) uploadID index))) w in
  is_name cleanUploadID → is_name index →
  os.resolve (fs w) (UploadTempDir cfg) = Some root →
  StatusCode (fst posted) = StatusOK →
  os.files (fs (snd posted)) !! (root ++ [cleanUploadID; index]) = Some (os.File file)
  ∧ ∀ q c, q ≠ root ++ [cleanUploadID; index] →
           os.files (fs w) !! q = Some (os.File c) →
           os.files (fs (snd posted)) !! q = Some (os.File c).
Proof.
  intros cleanUploadID posted Hid Hindex Htmp. unfold posted.
  rewrite handleUploadChunk_run by by apply name_is_valid.
  fold cleanUploadID. set (chunkDir := filepath.Join [UploadTempDir cfg; cleanUploadID]).
  destruct (os.MkdirAll chunkDir (fs w)) as [f1|] eqn:Hmk; [| done].
  destruct (os.Create _ f1) as [[f2 dst]|] eqn:Hcr; [| done]. intros _.
  apply Create_inv in Hcr as (Hdst & _ & _ & _ & ->). cbn [snd fs os.files].
  rewrite (resolve_cwd f1 (fs w)) in Hdst by by eapply MkdirAll_cwd.
  erewrite resolve_Join in Hdst by by apply chunkDir_in_root.
  rewrite descend_name, <- app_assoc in Hdst by done. injection Hdst as <-.
  rewrite insert_insert_eq. split; [apply lookup_insert_eq |].
  intros q c Hne Hq. rewrite lookup_insert_ne by done.
  by eapply MkdirAll_keeps.
Qed.

Lemma chunk_stored_in_upload_directory_witness :
  let posted :=
    handleUploadChunk defaultConfig
      (mkChunkRequest MethodPost
         (Some (mkMultipartForm (Some [Byte.x41]) "../../u1" "part-7"))) emptyWorld in
  os.files (fs (snd posted)) !! ["tmp"; "nextcloud-public-uploader"; "u1"; "part-7"]
  = Some (os.File [Byte.x41]).
Proof.
  cbv zeta.
  destruct (chunk_stored_in_upload_directory defaultConfig emptyWorld "../../u1"
              "part-7" [Byte.x41] ["tmp"; "nextcloud-public-uploader"]) as [H _].
  - repeat split; done.
  - repeat split; done.
  - reflexivity.
  - vm_compute. reflexivity.
  - exact H.
Defined.

(** X18: uploading a chunk again replaces it: after a chunk upload that was
    answered with 200, a second upload with the same identifier and index
    is answered with 200 as well and leaves the file system exactly as if
    it had been the only one. *)
Theorem chunk_reupload_overwrites
    (cfg : Config) (w : World) (uploadID index : string) (c1 c2 : bytes) :
  let post c :=
    handleUploadChunk cfg
      (mkChunkRequest MethodPost (Some (mkMultipartForm (Some c) uploadID index))) in
  StatusCode (fst (post c1 w)) = StatusOK →
  fst (post c2 (snd (post c1 w))) = chunkStored
  ∧ fs (snd (post c2 (snd (post c1 w)))) = fs (snd (post c2 w)).
Proof.
  intros post. unfold post.
  destruct (handleUploadChunk_cases cfg
              (mkChunkRequest MethodPost (Some (mkMultipartForm (Some c1) uploadID index))) w)
    as [(resp & Hresp & ->) | (file & uploadID' & index' & [= <- <- <-] & Hvalid)].
  { cbn [fst]. intros Hok. rewrite Hok in Hresp. by destruct Hresp. }
  rewrite !(handleUploadChunk_run cfg _ uploadID index w) by done.
  set (chunkDir := filepath.Join [UploadTempDir cfg; _]).
  set (chunkPath := filepath.Join [chunkDir; index]).
  destruct (os.MkdirAll chunkDir (fs w)) as [f1|] eqn:Hmk; [| done].
  destruct (os.Create chunkPath f1) as [[f2 dst]|] eqn:Hcr; [| done]. intros _.
  apply Create_inv in Hcr as (Hdst & Hne & Hparent & Hfile & ->).
  cbn [snd fs os.files os.cwd]. rewrite !insert_insert_eq.
  set (w1 := mkWorld _ _ _ _).
  assert (Hne' : chunkDir ≠ "") by apply Join_nonempty, Clean_nonempty.
  pose proof (resolve_nonempty (fs w) chunkDir Hne') as Hdir.
  set (dir := reverse _) in Hdir.
  pose proof (MkdirAll_cwd _ _ _ Hmk) as Hcwd.
  pose proof (MkdirAll_all_dirs _ _ _ _ Hdir Hmk) as Hdirs.
  assert (Hkeep : ∀ q, os.files f1 !! q = Some os.Dir →
                       <[dst := os.File c1]> (os.files f1) !! q = Some os.Dir).
  { intros q Hq. rewrite lookup_insert_ne; [done |]. by intros <-. }
  assert (Hmk1 : os.MkdirAll chunkDir (fs w1) = Some (fs w1)).
  { apply (MkdirAll_existing _ _ dir).
    - by rewrite (resolve_cwd _ (fs w)).
    - cbn. by eapply all_dirs_mono. }
  rewrite (handleUploadChunk_run cfg _ uploadID index w1) by done.
  fold chunkDir chunkPath. rewrite Hmk1.
  assert (Hcr1 : os.Create chunkPath (fs w1)
                 = Some (os.mkFS (<[dst := os.File []]> (os.files (fs w1)))
                           (os.cwd (fs w1)), dst)).
  { unfold os.Create. rewrite (resolve_cwd _ f1), Hdst by done.
    destruct dst as [|e l]; [done |].
    assert (os.stat (os.files (fs w1)) (removelast (e :: l)) = Some os.Dir) as ->.
    { destruct (removelast (e :: l)) as [|e' l'] eqn:Hrl; [done |].
      cbn. apply Hkeep. exact Hparent. }
    change (os.stat (os.files (fs w1)) (e :: l)) with (os.files (fs w1) !! (e :: l)).
    cbn [w1 fs os.files]. by rewrite lookup_insert_eq. }
  rewrite Hcr1. cbn [fst snd fs os.files os.cwd]. split; [done |].
  unfold w1. cbn [fs os.files os.cwd]. by rewrite !insert_insert_eq.
Qed.

Lemma chunk_reupload_overwrites_witness :
  let post c :=
    handleUploadChunk defaultConfig
      (mkChunkRequest MethodPost (Some (mkMultipartForm (Some c) "u1" "0"))) in
  fst (post [Byte.x42] (snd (post [Byte.x41] emptyWorld))) = chunkStored
  ∧ fs (snd (post [Byte.x42] (snd (post [Byte.x41] emptyWorld))))
    = fs (snd (post [Byte.x42] emptyWorld))
  ∧ os.files (fs (snd (post [Byte.x42] (snd (post [Byte.x41] emptyWorld)))))
      !! ["tmp"; "nextcloud-public-uploader"; "u1"; "0"]
    = Some (os.File [Byte.x42]).
Proof.
  cbv zeta.
  destruct (chunk_reupload_overwrites defaultConfig emptyWorld "u1" "0"
              [Byte.x41] [Byte.x42]) as [H1 H2].
  - vm_compute. reflexivity.
  - split; [exact H1 |]. split; [exact H2 |]. vm_compute. reflexivity.
Defined.

(** X19: a chunk request without chunkIndex (the form value is then empty), or
    with "." for it, names the directory of the upload itself as the chunk
    file: it is answered with 500, not with 400, after the directory of
    the upload has been created, and no chunk is stored. *)
Theorem chunk_without_index_is_server_error
    (cfg : Config) (w : World) (uploadID index : string) (file : bytes) :
  let cleanUploadID := filepath.Clean (filepath.Base uploadID) in
  let chunkDir := filepath.Join [UploadTempDir cfg; cleanUploadID] in
  let posted :=
    handleUploadChunk cfg
      (mkChunkRequest MethodPost (Some (mkMultipartForm (Some file) uploadID index))) w in
  String.eqb cleanUploadID "." || String.eqb cleanUploadID ".." = false →
  index = "" ∨ index = "." →
  StatusCode (fst posted) = StatusInternalServerError
  ∧ fs (snd posted) = default (fs w) (os.MkdirAll chunkDir (fs w)).
Proof.
  intros cleanUploadID chunkDir posted Hvalid Hindex. unfold posted.
  rewrite handleUploadChunk_run by done. fold cleanUploadID. fold chunkDir.
  destruct (os.MkdirAll chunkDir (fs w)) as [f1|] eqn:Hmk; [| done].
  assert (Hne : chunkDir ≠ "") by apply Join_nonempty, Clean_nonempty.
  pose proof (resolve_nonempty (fs w) chunkDir Hne) as Hdir.
  set (dir := reverse _) in Hdir.
  pose proof (all_dirs_stat _ _ (MkdirAll_all_dirs _ _ _ _ Hdir Hmk)) as Hstat.
  assert (Hres : os.resolve f1 (filepath.Join [chunkDir; index]) = Some dir).
  { rewrite (resolve_cwd f1 (fs w)) by by eapply MkdirAll_cwd.
    erewrite resolve_Join by done. unfold descend.
    destruct Hindex as [-> | ->].
    - change (fold_left os.walk (strings.SplitSlash "") (reverse dir))
        with (reverse dir). by rewrite reverse_involutive.
    - change (fold_left os.walk (strings.SplitSlash ".") (reverse dir))
        with (reverse dir). by rewrite reverse_involutive. }
  assert (os.Create (filepath.Join [chunkDir; index]) f1 = None) as ->; [| done].
  unfold os.Create. rewrite Hres. destruct dir as [|e l]; [done |].
  rewrite Hstat. by destruct (os.stat (os.files f1) (removelast (e :: l))) as [[]|].
Qed.

Lemma chunk_without_index_is_server_error_witness :
  let posted :=
    handleUploadChunk defaultConfig
      (mkChunkRequest MethodPost (Some (mkMultipartForm (Some [Byte.x41]) "u1" "")))
      emptyWorld in
  fst posted = http_Error "Server error creating chunk file." StatusInternalServerError
  ∧ StatusCode (fst posted) = StatusInternalServerError
  ∧ fs (snd posted)
    = default (fs emptyWorld)
        (os.MkdirAll (filepath.Join ["/tmp/nextcloud-public-uploader/";
                                     filepath.Clean (filepath.Base "u1")])
           (fs emptyWorld)).
Proof.
  cbv zeta. split; [vm_compute; reflexivity |].
  apply (chunk_without_index_is_server_error defaultConfig emptyWorld "u1" "" [Byte.x41]).
  - reflexivity.
  - by left.
Defined.

(* ===================================================================== *)
(** ** The order of the chunk files *)

(** X20: the comparator that handleUploadComplete gives to sort.Slice orders
    the names of numbered chunks by number, not by spelling: "9" comes
    before "10". *)
Theorem chunk_files_compared_numerically (a b : Z) :
  goint.in_range a → goint.in_range b →
  chunkLess (strconv.Itoa a) (strconv.Itoa b) = (a <? b).
Proof. intros Ha Hb. unfold chunkLess. by rewrite !Atoi_Itoa. Qed.

Lemma chunk_files_compared_numerically_witness :
  chunkLess (strconv.Itoa 9) (strconv.Itoa 10) = (9 <? 10)
  ∧ strconv.Itoa 9 = "9" ∧ strconv.Itoa 10 = "10" ∧ String.ltb "9" "10" = false.
Proof.
  split; [| by vm_compute].
  apply chunk_files_compared_numerically;
    unfold goint.in_range, goint.MinInt, goint.MaxInt; lia.
Defined.




(* ===================================================================== *)
(** ** The characters of a folder name *)

Lemma ReplaceAll_chars s old new c :
  c ∈ list_ascii_of_string (strings.ReplaceAll s old new) →
  (c ∈ list_ascii_of_string s ∧ c ≠ old) ∨ c ∈ list_ascii_of_string new.
Proof.
  induction s as [|a s IH]; cbn; [by intros ?%elem_of_nil |].
  destruct (Ascii.eqb_spec a old) as [-> | Hne].
  - rewrite list_ascii_of_append. intros [Hc | Hc]%elem_of_app; [by right |].
    destruct (IH Hc) as [[Hin Hold] | Hnew]; [| by right].
    left. split; [by right | done].
  - cbn. intros [-> | Hc]%elem_of_cons; [left; split; [by left | done] |].
    destruct (IH Hc) as [[Hin Hold] | Hnew]; [| by right].
    left. split; [by right | done].
Qed.

Ltac chars_of_literal H :=
  cbn in H;
  repeat (let H' := fresh in
          apply elem_of_cons in H as [H' | H]; [discriminate H' |]);
  by apply elem_of_nil in H.

(** X22: the email component of a folder name holds neither "@" nor ".",
    whatever the email address is. *)
Theorem sanitized_email_has_no_at_or_dot (email : string) :
  Forall (λ c, c ≠ "@"%char ∧ c ≠ "."%char)
    (list_ascii_of_string (sanitizeEmail email)).
Proof.
  apply Forall_forall. intros c Hc. unfold sanitizeEmail in Hc.
  apply ReplaceAll_chars in Hc as [[Hc Hdot] | Hc];
    [| split; intros ->; chars_of_literal Hc].
  apply ReplaceAll_chars in Hc as [[Hc Hat] | Hc]; [done |].
  split; intros ->; chars_of_literal Hc.
Qed.

(** X23: the phone component of a folder name holds no space, dash, parenthesis
    or plus sign, whatever the phone number is. *)
Theorem sanitized_phone_has_no_punctuation (phone : string) :
  Forall (λ c, c ≠ " "%char ∧ c ≠ "-"%char ∧ c ≠ "("%char ∧ c ≠ ")"%char
               ∧ c ≠ "+"%char)
    (list_ascii_of_string (sanitizePhone phone)).
Proof.
  apply Forall_forall. intros c Hc. unfold sanitizePhone in Hc.
  apply ReplaceAll_chars in Hc as [[Hc Hplus] | Hc];
    [| repeat split; intros ->; chars_of_literal Hc].
  apply ReplaceAll_chars in Hc as [[Hc Hclose] | Hc]; [| chars_of_literal Hc].
  apply ReplaceAll_chars in Hc as [[Hc Hopen] | Hc]; [| chars_of_literal Hc].
  apply ReplaceAll_chars in Hc as [[Hc Hdash] | Hc]; [| chars_of_literal Hc].
  apply ReplaceAll_chars in Hc as [[Hc Hspace] | Hc]; [| chars_of_literal Hc].
  done.
Qed.

(* ===================================================================== *)
(** ** The configuration *)

Lemma substring_all s : String.substring 0 (String.length s) s = s.
Proof. induction s as [|c s IH]; [done |]. cbn. by rewrite IH. Qed.

Lemma substring_split s : ∀ m,
  (m <= String.length s)%nat →
  s = String.substring 0 m s +:+ String.substring m (String.length s - m) s.
Proof.
  induction s as [|c s IH]; intros m Hm.
  - cbn in Hm. by replace m with 0%nat by lia.
  - destruct m as [|m].
    + change (String.substring 0 0 (String c s)) with "".
      rewrite append_nil_l, Nat.sub_0_r. by rewrite substring_all.
    + cbn [String.length] in *. cbn [String.substring Nat.sub]. rewrite append_cons.
      f_equal. apply IH. lia.
Qed.

(** strings.TrimSuffix takes the suffix off once, if it is there. *)
Lemma TrimSuffix_cases s suffix :
  (s = strings.TrimSuffix s suffix +:+ suffix
   ∧ strings.HasSuffix s suffix = true)
  ∨ (strings.TrimSuffix s suffix = s ∧ strings.HasSuffix s suffix = false).
Proof.
  unfold strings.TrimSuffix. destruct (strings.HasSuffix s suffix) eqn:Hs; [| by right].
  left. split; [| done]. unfold strings.HasSuffix in Hs.
  apply andb_true_iff in Hs as [Hlen%Nat.leb_le Heq%String.eqb_eq].
  assert (Hm : (String.length s - String.length suffix <= String.length s)%nat) by lia.
  pose proof (substring_split s _ Hm) as Hsplit.
  replace (String.length s - (String.length s - String.length suffix))%nat
    with (String.length suffix) in Hsplit by lia.
  by rewrite Heq in Hsplit.
Qed.

(** X24: what main makes of the environment, when it starts the server at all:
    the three variables that must be set are set and not empty; the URL is
    NC_URL without its trailing slash, where one slash is taken off and
    only after the check for emptiness, so that NC_URL = "/" leaves an
    empty URL; the scratch root is UPLOAD_TEMP_DIR as it is set, be it
    empty, and the default only when it is not set. *)
Theorem configuration_from_environment (environ : gmap string string) (cfg : Config) :
  main_appConfig environ = Some cfg →
  ∃ url,
    environ !! "NC_URL" = Some url ∧ url ≠ ""
    ∧ (url = NextcloudURL cfg +:+ "/"
       ∨ (url = NextcloudURL cfg ∧ strings.HasSuffix url "/" = false))
    ∧ environ !! "NC_USER" = Some (NextcloudUser cfg) ∧ NextcloudUser cfg ≠ ""
    ∧ environ !! "NC_APP_PASSWORD" = Some (NextcloudAppPass cfg)
    ∧ NextcloudAppPass cfg ≠ ""
    ∧ NextcloudUploadDir cfg = default "" (environ !! "NC_FOLDER")
    ∧ UploadTempDir cfg
      = default "/tmp/nextcloud-public-uploader/" (environ !! "UPLOAD_TEMP_DIR").
Proof.
  unfold main_appConfig, getEnv.
  cbn [NextcloudURL NextcloudUser NextcloudAppPass NextcloudUploadDir UploadTempDir].
  destruct (environ !! "NC_URL") as [url|]; [| done].
  destruct (String.eqb_spec url "") as [-> | Hurl]; [done |].
  destruct (environ !! "NC_USER") as [user|]; [| done].
  destruct (String.eqb_spec user "") as [-> | Huser]; [done |].
  destruct (environ !! "NC_APP_PASSWORD") as [pass|]; [| done].
  destruct (String.eqb_spec pass "") as [-> | Hpass]; [done |].
  cbn [orb]. intros [= <-]. cbn.
  exists url. repeat split; try done.
  destruct (TrimSuffix_cases url "/") as [[Heq _] | [-> Hno]]; [by left | by right].
Qed.

Lemma configuration_from_environment_witness :
  main_appConfig {[ "NC_URL" := "/"; "NC_USER" := "u"; "NC_APP_PASSWORD" := "p";
                    "UPLOAD_TEMP_DIR" := "" ]}
  = Some (mkConfig "" "u" "p" "" "")
  ∧ ∃ url,
      ({[ "NC_URL" := "/"; "NC_USER" := "u"; "NC_APP_PASSWORD" := "p";
          "UPLOAD_TEMP_DIR" := "" ]} : gmap string string) !! "NC_URL" = Some url
      ∧ url ≠ ""
      ∧ (url = "" +:+ "/" ∨ (url = "" ∧ strings.HasSuffix url "/" = false)).
Proof.
  split; [vm_compute; reflexivity |].
  destruct (configuration_from_environment
              {[ "NC_URL" := "/"; "NC_USER" := "u"; "NC_APP_PASSWORD" := "p";
                 "UPLOAD_TEMP_DIR" := "" ]} (mkConfig "" "u" "p" "" ""))
    as (url & H1 & H2 & H3 & _).
  - vm_compute. reflexivity.
  - exists url. split; [exact H1 |]. split; [exact H2 | exact H3].
Defined.

(* ===================================================================== *)
(** ** Calls that run at the same time: what holds at every moment *)

(** X25: while [n] calls of checkAndUpdateSession for one session that expects
    [n] files run side by side, at every moment and under every schedule:
    at most one of them is between sessionsMutex.Lock and its Unlock, at
    most one holds the mutex of the session, and the completed count is the
    number of calls that have passed the increment, so it never exceeds
    the expected count. *)
Theorem concurrent_calls_never_overcount
    (sessionID : string) (hp : gmap nat Concurrent.Object) (reg : gmap string nat)
    (l : nat) (o : Concurrent.Object) (n : nat) (schedule : list nat) :
  let st := Concurrent.exec sessionID schedule (Concurrent.start hp reg n) in
  reg !! sessionID = Some l → hp !! l = Some o → Concurrent.Mutex o = false →
  UploadCount (Concurrent.data o) = Z.of_nat n →
  CompletedCount (Concurrent.data o) = 0 →
  (1 <= n)%nat → Z.of_nat n <= goint.MaxInt →
  (tally in_critical (Concurrent.goroutines st) <= 1)%nat
  ∧ (tally holds_session (Concurrent.goroutines st) <= 1)%nat
  ∧ ∃ session,
      Concurrent.heap st !! l = Some session
      ∧ UploadCount (Concurrent.data session) = Z.of_nat n
      ∧ CompletedCount (Concurrent.data session)
        = Z.of_nat (tally counted (Concurrent.goroutines st))
      ∧ 0 <= CompletedCount (Concurrent.data session)
        <= UploadCount (Concurrent.data session).
Proof.
  intros st Hreg Ho Hmutex Hup Hcnt Hn Hmax.
  assert (Hinv : calls_invariant sessionID l n st).
  { apply exec_invariant; [done |]. by eapply start_invariant. }
  destruct Hinv as (Hlen & _ & Hcrit & (o' & Ho' & Hup' & Hcnt' & Hholds) & _).
  split; [rewrite Hcrit; destruct (Concurrent.sessionsMutex st); lia |].
  split; [rewrite Hholds; destruct (Concurrent.Mutex o'); lia |].
  exists o'. repeat split; [done.. | lia |].
  rewrite Hcnt', Hup'. pose proof (tally_le_length counted (Concurrent.goroutines st)).
  lia.
Qed.

Lemma concurrent_calls_never_overcount_witness :
  let hp : gmap nat Concurrent.Object :=
    {[ 0%nat := Concurrent.mkObject (mkUploadSession "a@b.c" "" "" 2 0) false ]} in
  let reg : gmap string nat := {[ "s" := 0%nat ]} in
  let st := Concurrent.exec "s" [0; 1; 0; 0; 0; 1]%nat (Concurrent.start hp reg 2) in
  Concurrent.goroutines st = [Concurrent.AtCompare 0; Concurrent.AtLock]
  ∧ (tally in_critical (Concurrent.goroutines st) <= 1)%nat
  ∧ (tally holds_session (Concurrent.goroutines st) <= 1)%nat
  ∧ ∃ session,
      Concurrent.heap st !! 0%nat = Some session
      ∧ UploadCount (Concurrent.data session) = Z.of_nat 2
      ∧ CompletedCount (Concurrent.data session)
        = Z.of_nat (tally counted (Concurrent.goroutines st))
      ∧ 0 <= CompletedCount (Concurrent.data session)
        <= UploadCount (Concurrent.data session).
Proof.
  cbv zeta. split; [vm_compute; reflexivity |].
  apply (concurrent_calls_never_overcount "s" _ _ 0%nat
           (Concurrent.mkObject (mkUploadSession "a@b.c" "" "" 2 0) false) 2).
  - reflexivity.
  - reflexivity.
  - reflexivity.
  - reflexivity.
  - reflexivity.
  - lia.
  - vm_compute. discriminate.
Defined.


(* ===================================================================== *)
(** ** The answers of the three handlers *)

Lemma completeUpload_status env cfg reqData chunkDir w :
  StatusCode (fst (completeUpload env cfg reqData chunkDir w)) = StatusOK
  ∨ StatusCode (fst (completeUpload env cfg reqData chunkDir w))
    = StatusInternalServerError.
Proof.
  destruct (completeUpload_protocol env cfg reqData chunkDir w)
    as (evs0 & _ & [(resp & Hresp & ->) | [(sent & _ & ->)
         | [(s1 & sent & _ & _ & ->)
         | (reader & data & s1 & s2 & _ & _ & _ & _ & ->)]]]).
  - right. by destruct Hresp as [-> | ->].
  - by right.
  - by right.
  - cbv zeta. set (folderName := createFolderName _ _ _). set (w3 := traced w _).
    destruct (sessionStep reqData folderName w3) as [should w4].
    destruct (uploadDescription_outcome env cfg reqData folderName should w4)
      as (evsD & _ & Hfailed & _).
    destruct (uploadDescription env cfg reqData folderName should w4) as [failed w5].
    cbn [fst snd] in *. destruct Hfailed as [-> | ->]; [by left | by right].
Qed.

(** X26: the three handlers answer with 200, 400, 405 or 500 and nothing else;
    and a request that is answered with 400 or 405 has changed nothing: no
    file, no session, no request to the server, no entry in the trace. *)
Theorem rejected_requests_change_nothing
    (env : Env) (cfg : Config) (c : Call) (w : World) (resp : Response) :
  fst (serve env cfg c w) = Some resp →
  (StatusCode resp = StatusOK ∨ StatusCode resp = StatusBadRequest
   ∨ StatusCode resp = StatusMethodNotAllowed
   ∨ StatusCode resp = StatusInternalServerError)
  ∧ (StatusCode resp = StatusBadRequest ∨ StatusCode resp = StatusMethodNotAllowed →
     snd (serve env cfg c w) = w).
Proof.
  destruct c as [r|r|r|t]; cbn [serve]; unfold bind, ret.
  - unfold handleUploadSession. destruct (negb _); [intros [= <-]; cbn; auto |].
    destruct (Decoded r); intros [= <-]; cbn; [| auto].
    split; [auto |]. by intros [|].
  - destruct (handleUploadChunk_cases cfg r w)
      as [(resp' & Hresp & ->) | (file & uploadID & index & -> & Hvalid)].
    { intros [= <-]. cbn [snd]. destruct Hresp; auto. }
    rewrite handleUploadChunk_run by done.
    destruct (os.MkdirAll _ (fs w)) as [f1|];
      [| intros [= <-]; cbn; split; [auto | by intros [|]]].
    destruct (os.Create _ f1) as [[f2 dst]|]; intros [= <-]; cbn;
      (split; [auto | by intros [|]]).
  - destruct (handleUploadComplete_cases env cfg r w)
      as [(resp' & Hresp & ->) | (reqData & _ & _ & ->)].
    { intros [= <-]. cbn [snd]. destruct Hresp as [-> | [-> | ->]]; cbn; auto. }
    cbv zeta. set (chunkDir := filepath.Join _).
    destruct (completeUpload_status env cfg reqData chunkDir w) as [Hst | Hst];
      destruct (completeUpload env cfg reqData chunkDir w) as [resp' w1];
      cbn [fst snd] in *; intros [= <-]; rewrite Hst;
      (split; [auto | by intros [|]]).
  - done.
Qed.

Lemma rejected_requests_change_nothing_witness :
  let w := snd (handleUploadChunk defaultConfig
                  (mkChunkRequest MethodPost
                     (Some (mkMultipartForm (Some [Byte.x41]) "u1" "0"))) emptyWorld) in
  let c := PostComplete (mkJSONRequest "GET"
             (Some (mkCompleteRequest "u1" "f.bin" "a@b.c" "" "" "" 0))) in
  fst (serve plainEnv defaultConfig c w)
  = Some (http_Error "Method not allowed" StatusMethodNotAllowed)
  ∧ snd (serve plainEnv defaultConfig c w) = w.
Proof.
  cbv zeta. split; [reflexivity |].
  eapply (rejected_requests_change_nothing plainEnv defaultConfig); [reflexivity |].
  by right.
Defined.

(* ===================================================================== *)
(** ** Sessions and the description file *)

(** X27: the description file waits for the last file of its session: a
    finalize call for a session that expects at least one more file after
    this one never probes for the description and never uploads it; it
    uploads at most the file, and when it answers with 200 the session has
    one more file completed. *)
Theorem description_waits_for_last_file
    (env : Env) (cfg : Config) (w : World) (reqData : CompleteRequest)
    (session : UploadSession) :
  let finalized :=
    handleUploadComplete env cfg (mkJSONRequest MethodPost (Some reqData)) w in
  SessionID reqData ≠ "" →
  uploadSessions w !! SessionID reqData = Some session →
  0 <= CompletedCount session →
  CompletedCount session + 1 < UploadCount session →
  UploadCount session <= goint.MaxInt →
  (∃ evs, trace (snd finalized) = trace w ++ evs
          ∧ Forall not_probe evs ∧ (length (uploads evs) <= 1)%nat)
  ∧ (StatusCode (fst finalized) = StatusOK →
     uploadSessions (snd finalized)
     = <[SessionID reqData :=
           mkUploadSession (Email session) (Phone session) (DataOrigin session)
             (UploadCount session) (CompletedCount session + 1)]> (uploadSessions w)).
Proof.
  intros finalized Hid Hs H0 Hmore Hmax. unfold finalized.
  assert (Hquiet : ∀ evs, Forall (λ e, ¬ is_http e) evs → Forall not_probe evs).
  { intros evs Hevs. eapply Forall_impl; [done |]. by intros []. }
  destruct (handleUploadComplete_cases env cfg
              (mkJSONRequest MethodPost (Some reqData)) w)
    as [(resp & Hresp & ->) | (reqData' & [= <-] & _ & ->)].
  { split; [exists []; rewrite app_nil_r; repeat split; [constructor | cbn; lia] |].
    cbn [fst].
    by destruct Hresp as [-> | [-> | ->]]. }
  cbv zeta. set (chunkDir := filepath.Join _).
  destruct (completeUpload_protocol env cfg reqData chunkDir w)
    as (evs0 & Hevs0 & [(resp & Hresp & ->) | [(sent & Hsent & ->)
         | [(s1 & sent & _ & Hsent & ->)
         | (reader & data & s1 & s2 & _ & _ & _ & _ & ->)]]]).
  - split; [| cbn [fst]; by destruct Hresp as [-> | ->]].
    exists (evs0 ++ [EvRemoveAll chunkDir]). cbn. rewrite app_assoc.
    split; [done |]. rewrite uploads_app, uploads_quiet by done.
    split; [| cbn; lia]. apply Forall_app. split; [by apply Hquiet | by repeat constructor].
  - split; [| done].
    exists ((evs0 ++ sent) ++ [EvRemoveAll chunkDir]). cbn. rewrite !app_assoc.
    split; [done |]. rewrite !uploads_app, uploads_quiet by done.
    destruct Hsent as [-> | (st & -> & _)]; (split; [| cbn; lia]);
      rewrite !Forall_app; repeat split; try (by apply Hquiet); by repeat constructor.
  - split; [| done].
    eexists ((evs0 ++ _ :: sent) ++ [EvRemoveAll chunkDir]). cbn. rewrite !app_assoc.
    split; [done |]. rewrite !uploads_app, uploads_quiet by done.
    destruct Hsent as [-> | (body & st & -> & _)]; (split; [| cbn; lia]);
      rewrite !Forall_app; repeat split; try (by apply Hquiet); by repeat constructor.
  - cbv zeta. set (folderName := createFolderName _ _ _). set (w3 := traced w _).
    unfold sessionStep. rewrite (proj2 (String.eqb_neq _ _) Hid). cbn [negb].
    rewrite (complete_pending folderName (cr_Email reqData) (cr_Phone reqData)
               (cr_DataOrigin reqData) w3 (SessionID reqData) session) by done.
    rewrite uploadDescription_skipped. cbn [fst snd trace uploadSessions].
    split; [| done]. unfold w3. cbn [trace traced].
    eexists ((evs0 ++ [_; _]) ++ [EvRemoveAll chunkDir]). rewrite <- !app_assoc.
    split; [done |]. rewrite !uploads_app, uploads_quiet by done.
    split; [| cbn; lia].
    rewrite !Forall_app. repeat split; try (by apply Hquiet); by repeat constructor.
Qed.

Lemma description_waits_for_last_file_witness :
  let w := snd (handleUploadSession
                  (mkJSONRequest MethodPost (Some (mkSessionRequest "s" "a@b.c" "" "" 2)))
                  (snd (handleUploadChunk defaultConfig
                          (mkChunkRequest MethodPost
                             (Some (mkMultipartForm (Some [Byte.x41]) "u1" "0")))
                          emptyWorld))) in
  let finalized :=
    handleUploadComplete plainEnv defaultConfig
      (mkJSONRequest MethodPost
         (Some (mkCompleteRequest "u1" "f.bin" "a@b.c" "" "" "s" 2))) w in
  StatusCode (fst finalized) = StatusOK
  ∧ (∃ evs, trace (snd finalized) = trace w ++ evs
            ∧ Forall not_probe evs ∧ (length (uploads evs) <= 1)%nat)
  ∧ (StatusCode (fst finalized) = StatusOK →
     uploadSessions (snd finalized)
     = <["s" := mkUploadSession "a@b.c" "" "" 2 (0 + 1)]> (uploadSessions w)).
Proof.
  cbv zeta. split; [vm_compute; reflexivity |].
  apply (description_waits_for_last_file plainEnv defaultConfig _
           (mkCompleteRequest "u1" "f.bin" "a@b.c" "" "" "s" 2)
           (mkUploadSession "a@b.c" "" "" 2 0)).
  - discriminate.
  - vm_compute. reflexivity.
  - cbn. lia.
  - cbn. lia.
  - cbn. unfold goint.MaxInt. lia.
Defined.

(* ===================================================================== *)
(** ** A server that acknowledges *)

Lemma createNextcloudFolder_sent env cfg folderName w :
  NewRequest_ok env "MKCOL" (webdavFolderURL env cfg folderName) = true →
  fst (createNextcloudFolder env cfg folderName w)
  = folder_acknowledged
      (RoundTrip env (trace w) "MKCOL" (webdavFolderURL env cfg folderName) None)
  ∧ ∃ evs, snd (createNextcloudFolder env cfg folderName w) = traced w evs.
Proof.
  intros Hok. unfold createNextcloudFolder, bind, http_Do. rewrite Hok. cbn [negb fst snd].
  destruct (RoundTrip env (trace w) "MKCOL" _ None); cbn; split; try done; by eexists.
Qed.

Lemma uploadToNextcloudFolder_sent env cfg folderName filename reader data w :
  NewRequest_ok env MethodPut (webdavFileURL env cfg folderName filename) = true →
  io.ReadAll reader = Some data →
  fst (uploadToNextcloudFolder env cfg folderName filename reader w)
  = file_acknowledged
      (RoundTrip env (trace w) MethodPut (webdavFileURL env cfg folderName filename)
         (Some data))
  ∧ ∃ evs, snd (uploadToNextcloudFolder env cfg folderName filename reader w)
           = traced w evs.
Proof.
  intros Hok Hdata. unfold uploadToNextcloudFolder, bind, http_Do.
  rewrite Hok, Hdata. cbn [negb fst snd].
  destruct (RoundTrip env (trace w) MethodPut _ (Some data)); cbn; split; try done;
    by eexists.
Qed.

(** X28: when the chunks can be read and every request can be built, a server
    that acknowledges the folder and what is put into it is all that a
    finalize call needs to succeed: it answers with 200 and names the
    folder and the file, whether or not a session is involved and whether
    or not the description is already there. *)
Theorem acknowledged_upload_succeeds
    (env : Env) (cfg : Config) (w : World) (reqData : CompleteRequest)
    (reader : io.Reader) (data : bytes) :
  let cleanUploadID := filepath.Clean (filepath.Base (UploadID reqData)) in
  let chunkDir := filepath.Join [UploadTempDir cfg; cleanUploadID] in
  String.eqb cleanUploadID "." || String.eqb cleanUploadID ".." = false →
  fst (assembleChunks env chunkDir w) = inr reader →
  io.ReadAll reader = Some data →
  (∀ method url, NewRequest_ok env method url = true) →
  (∀ history url body,
     folder_acknowledged (RoundTrip env history "MKCOL" url body) = true) →
  (∀ history url body,
     file_acknowledged (RoundTrip env history MethodPut url body) = true) →
  fst (handleUploadComplete env cfg (mkJSONRequest MethodPost (Some reqData)) w)
  = fileUploaded (createFolderName (now w) (cr_Email reqData) (cr_Phone reqData))
      (filepath.Base (FileName reqData)).
Proof.
  intros cleanUploadID chunkDir Hvalid Hreader Hdata Hnew Hfolder Hfile.
  rewrite handleUploadComplete_run by done. fold cleanUploadID. fold chunkDir.
  rewrite completeUpload_eq.
  destruct (assembleChunks_quiet env chunkDir w) as (evs0 & Hw1 & _).
  destruct (assembleChunks env chunkDir w) as [assembled w1]. cbn [fst snd] in *.
  subst assembled w1. cbv zeta. change (now (traced w evs0)) with (now w).
  set (folderName := createFolderName _ _ _).
  destruct (createNextcloudFolder_sent env cfg folderName (traced w evs0) (Hnew _ _))
    as [Hcreated (evs1 & Hw2)].
  destruct (createNextcloudFolder env cfg folderName (traced w evs0)) as [created w2].
  cbn [fst snd] in *. rewrite Hfolder in Hcreated. subst created w2.
  destruct (uploadToNextcloudFolder_sent env cfg folderName
              (filepath.Base (FileName reqData)) reader data
              (traced (traced w evs0) evs1) (Hnew _ _) Hdata) as [Hsent (evs2 & Hw3)].
  destruct (uploadToNextcloudFolder env cfg folderName _ reader _) as [sent w3].
  cbn [fst snd] in *. rewrite Hfile in Hsent. subst sent w3.
  destruct (sessionStep reqData folderName _) as [should w4].
  destruct should; [| by rewrite uploadDescription_skipped].
  rewrite uploadDescription_true.
  destruct (checkDescriptionFileExists env cfg folderName w4) as [[] w5]; [done |].
  unfold bind at 1.
  destruct (uploadToNextcloudFolder_sent env cfg folderName "descripcion.txt"
              (io.StringReader
                 (createDescriptionContent env (now w5) (FileName reqData)
                    (cr_Email reqData) (cr_Phone reqData) (cr_DataOrigin reqData)))
              _ w5 (Hnew _ _) eq_refl) as [Hsent _].
  destruct (uploadToNextcloudFolder env cfg folderName "descripcion.txt" _ w5)
    as [sent w6].
  cbn [fst] in Hsent. rewrite Hfile in Hsent. by subst sent.
Qed.

Lemma acknowledged_upload_succeeds_witness :
  let w := snd (handleUploadChunk defaultConfig
                  (mkChunkRequest MethodPost
                     (Some (mkMultipartForm (Some [Byte.x41]) "u1" "0"))) emptyWorld) in
  fst (handleUploadComplete plainEnv defaultConfig
         (mkJSONRequest MethodPost
            (Some (mkCompleteRequest "u1" "f.bin" "a@b.c" "+34 600" "" "" 0))) w)
  = fileUploaded (createFolderName 0 "a@b.c" "+34 600") (filepath.Base "f.bin").
Proof.
  cbv zeta.
  apply (acknowledged_upload_succeeds plainEnv defaultConfig
           (snd (handleUploadChunk defaultConfig
                   (mkChunkRequest MethodPost
                      (Some (mkMultipartForm (Some [Byte.x41]) "u1" "0"))) emptyWorld))
           (mkCompleteRequest "u1" "f.bin" "a@b.c" "+34 600" "" "" 0)
           (io.MultiReader [os.File [Byte.x41]]) [Byte.x41]).
  - reflexivity.
  - vm_compute. reflexivity.
  - reflexivity.
  - reflexivity.
  - intros history url body. reflexivity.
  - intros history url body. reflexivity.
Defined.

(* ===================================================================== *)
(** ** A session that is not registered *)

(** X29: a finalize call that names a session which is not in the registry
    (never registered, or completed already) does exactly what the same
    call without sessionId does: same response, same requests, same state
    (the warning in the log aside). It is treated as a single file upload. *)
Theorem unknown_session_is_single_upload
    (env : Env) (cfg : Config) (w : World) (reqData : CompleteRequest) :
  uploadSessions w !! SessionID reqData = None →
  handleUploadComplete env cfg (mkJSONRequest MethodPost (Some reqData)) w
  = handleUploadComplete env cfg
      (mkJSONRequest MethodPost
         (Some (mkCompleteRequest (UploadID reqData) (FileName reqData)
                  (cr_Email reqData) (cr_Phone reqData) (cr_DataOrigin reqData)
                  "" (TotalFiles reqData)))) w.
Proof.
  intros Hnone. unfold handleUploadComplete. cbn [Method Decoded UploadID].
  destruct (negb _); [done |]. cbv zeta. destruct (_ || _); [done |].
  set (chunkDir := filepath.Join _). unfold bind at 1 3.
  enough (completeUpload env cfg reqData chunkDir w
          = completeUpload env cfg
              (mkCompleteRequest (UploadID reqData) (FileName reqData)
                 (cr_Email reqData) (cr_Phone reqData) (cr_DataOrigin reqData)
                 "" (TotalFiles reqData)) chunkDir w) as -> by done.
  rewrite !completeUpload_eq.
  cbn [FileName cr_Email cr_Phone cr_DataOrigin].
  set (Q := λ m : gmap string UploadSession, m !! SessionID reqData = None).
  pose proof (sessions_assembleChunks Q env chunkDir w Hnone) as H1.
  destruct (assembleChunks env chunkDir w) as [[resp|reader] w1]; [done |].
  cbv zeta. set (folderName := createFolderName _ _ _).
  pose proof (sessions_createNextcloudFolder Q env cfg folderName w1 H1) as H2.
  destruct (createNextcloudFolder env cfg folderName w1) as [[] w2]; [| done].
  pose proof (sessions_uploadToNextcloudFolder Q env cfg folderName
                (filepath.Base (FileName reqData)) reader w2 H2) as H3.
  destruct (uploadToNextcloudFolder env cfg folderName _ reader w2) as [[] w3];
    [| done].
  cbn [snd] in H3. unfold Q in H3.
  assert (sessionStep reqData folderName w3 = (true, w3)) as ->.
  { unfold sessionStep. destruct (negb _); [| done]. by apply complete_unknown. }
  reflexivity.
Qed.

Lemma unknown_session_is_single_upload_witness :
  let w := snd (handleUploadChunk defaultConfig
                  (mkChunkRequest MethodPost
                     (Some (mkMultipartForm (Some [Byte.x41]) "u1" "0"))) emptyWorld) in
  handleUploadComplete plainEnv defaultConfig
    (mkJSONRequest MethodPost
       (Some (mkCompleteRequest "u1" "f.bin" "a@b.c" "" "" "gone" 3))) w
  = handleUploadComplete plainEnv defaultConfig
      (mkJSONRequest MethodPost
         (Some (mkCompleteRequest "u1" "f.bin" "a@b.c" "" "" "" 3))) w.
Proof.
  cbv zeta.
  apply (unknown_session_is_single_upload plainEnv defaultConfig _
           (mkCompleteRequest "u1" "f.bin" "a@b.c" "" "" "gone" 3)).
  vm_compute. reflexivity.
Defined.

(* ===================================================================== *)
(** ** A chunk that leaves its directory and the upload next door *)

Lemma all_dirs_app a : ∀ m at_ b, all_dirs m at_ (a ++ b) → all_dirs m at_ a.
Proof.
  induction a as [|e a IH]; intros m at_ b; cbn; [done |].
  intros [He Hrest]. split; [done |]. by eapply IH.
Qed.

(** os.MkdirAll fails where a regular file has the name of the directory. *)
Lemma mkdirs_blocked a : ∀ m at_ x c,
  all_dirs m at_ a → m !! (at_ ++ a ++ [x]) = Some (os.File c) →
  os.mkdirs m at_ (a ++ [x]) = None.
Proof.
  induction a as [|e a IH]; intros m at_ x c; cbn.
  - intros _ Hx. by rewrite Hx.
  - intros [He Hrest] Hx. rewrite He. eapply IH; [done |].
    by rewrite <- app_assoc.
Qed.

(** X30: the chunk index that leaves the directory of its upload (see
    C10) lands in the scratch root under a name of its own choosing, and
    that blocks the upload of that name: once a chunk with index "../x" has
    been stored, every chunk upload whose identifier comes down to [x] is
    answered with 500, because a regular file is where its directory
    should be. *)
Theorem escaped_chunk_blocks_another_upload
    (cfg : Config) (w : World) (uploadID x other index : string)
    (file chunk : bytes) (root : list string) :
  let cleanUploadID := filepath.Clean (filepath.Base uploadID) in
  let escaped :=
    handleUploadChunk cfg
      (mkChunkRequest MethodPost
         (Some (mkMultipartForm (Some file) uploadID ("../" +:+ x)))) w in
  is_name cleanUploadID → is_name x → x ≠ cleanUploadID →
  os.resolve (fs w) (UploadTempDir cfg) = Some root →
  StatusCode (fst escaped) = StatusOK →
  filepath.Clean (filepath.Base other) = x →
  fst (handleUploadChunk cfg
         (mkChunkRequest MethodPost (Some (mkMultipartForm (Some chunk) other index)))
         (snd escaped))
  = http_Error "Server error creating chunk directory." StatusInternalServerError.
Proof.
  intros cleanUploadID escaped Hid Hx Hne Htmp. unfold escaped.
  rewrite handleUploadChunk_run by by apply name_is_valid.
  fold cleanUploadID. set (chunkDir := filepath.Join [UploadTempDir cfg; cleanUploadID]).
  destruct (os.MkdirAll chunkDir (fs w)) as [f1|] eqn:Hmk; [| done].
  destruct (os.Create _ f1) as [[f2 dst]|] eqn:Hcr; [| done]. intros _ Hother.
  pose proof (chunkDir_in_root _ _ _ _ Htmp Hid) as Hdir. fold chunkDir in Hdir.
  pose proof (MkdirAll_cwd _ _ _ Hmk) as Hcwd.
  pose proof (MkdirAll_all_dirs _ _ _ _ Hdir Hmk) as Hdirs.
  apply Create_inv in Hcr as (Hdst & _ & _ & Hfile & ->).
  rewrite (resolve_cwd f1 (fs w)) in Hdst by done.
  erewrite resolve_Join in Hdst by done.
  rewrite descend_parent_name in Hdst by done. injection Hdst as <-.
  cbn [snd]. set (w1 := mkWorld _ _ _ _).
  rewrite (handleUploadChunk_run cfg chunk other index w1)
    by (rewrite Hother; by apply name_is_valid).
  rewrite Hother.
  assert (os.MkdirAll (filepath.Join [UploadTempDir cfg; x]) (fs w1) = None) as ->;
    [| done].
  unfold os.MkdirAll.
  rewrite (chunkDir_in_root (fs w1) (UploadTempDir cfg) x root);
    [| by rewrite (resolve_cwd _ (fs w)) | done].
  rewrite (mkdirs_blocked root _ [] x file); [done | |].
  - eapply all_dirs_mono; [| by eapply all_dirs_app].
    intros q Hq. cbn. rewrite insert_insert_eq, lookup_insert_ne; [done |].
    by intros <-.
  - cbn. by rewrite insert_insert_eq, lookup_insert_eq.
Qed.

Lemma escaped_chunk_blocks_another_upload_witness :
  let escaped :=
    handleUploadChunk defaultConfig
      (mkChunkRequest MethodPost
         (Some (mkMultipartForm (Some [Byte.x45]) "u1" ("../" +:+ "u2")))) emptyWorld in
  StatusCode (fst escaped) = StatusOK
  ∧ fst (handleUploadChunk defaultConfig
           (mkChunkRequest MethodPost (Some (mkMultipartForm (Some [Byte.x41]) "u2" "0")))
           (snd escaped))
    = http_Error "Server error creating chunk directory." StatusInternalServerError.
Proof.
  cbv zeta. split; [vm_compute; reflexivity |].
  apply (escaped_chunk_blocks_another_upload defaultConfig emptyWorld "u1" "u2" "u2" "0"
           [Byte.x45] [Byte.x41] ["tmp"; "nextcloud-public-uploader"]).
  - repeat split; done.
  - repeat split; done.
  - discriminate.
  - reflexivity.
  - vm_compute. reflexivity.
  - reflexivity.
Defined.
